(** * Weekly todo manager: the task store, the request handlers, the
      pomodoro timer and the client's task lists

    A shallow embedding of [src/database.ts] (class [TodoDatabase], and the
    [TodoApp] client: [fetchAllTasks], [handleWebSocketMessage]),
    [src/index.tsx] (the route handlers of [serve]),
    [src/components/PomodoroTimer.tsx] (the timer's transitions, countdown
    and display), [src/components/TaskList.tsx] ([handleDrop]) and
    [src/components/TaskItem.tsx] ([handleToggleComplete]),
    followed by the properties of the specification checked against it.

    Conventions of the embedding.
    - The two SQLite tables are lists of rows in rowid (insertion) order.
    - [crypto.randomUUID()] and [new Date().toISOString()] are inputs of the
      operation that calls them ([id], [now]).
    - A call that throws is [Thrown]; the handlers catch it and answer 500.
    - JavaScript values that reach the store are [jsval]s; a number is an
      integer (priorities, durations), nested objects and arrays are opaque.
    - A request body is the JSON object the handler destructures; a PUT
      body is its list of entries, in key order. *)

From Stdlib Require Import ZArith String Ascii.
From stdpp Require Import base tactics option list strings sorting pretty gmap.

Local Open Scope string_scope.
Local Open Scope Z_scope.

(** ** Byte-wise order on text (SQLite's BINARY collation) *)

Definition string_le (a b : string) : Prop := String.compare a b ≠ Gt.

Global Instance string_le_dec : RelDecision string_le.
Proof. intros a b. unfold string_le. apply _. Defined.

(** ** Values *)

(** Storage classes of SQLite that the program uses. *)
Inductive value :=
  | VNull
  | VInt (n : Z)
  | VText (s : string).

Global Instance value_eq_dec : EqDecision value.
Proof. solve_decision. Defined.

(** Values of a parsed JSON body or of a JavaScript argument. [JObject]
    stands for any object or array nested inside the body. *)
Inductive jsval :=
  | JUndefined
  | JNull
  | JBool (b : bool)
  | JNum (n : Z)
  | JStr (s : string)
  | JObject.

Global Instance jsval_eq_dec : EqDecision jsval.
Proof. solve_decision. Defined.

(** JavaScript truthiness, as tested by [!x] and [x || y]. *)
Definition truthy (v : jsval) : bool :=
  match v with
  | JUndefined | JNull => false
  | JBool b => b
  | JNum n => negb (n =? 0)
  | JStr s => negb (String.eqb s "")
  | JObject => true
  end.

(** [a || b] of JavaScript. *)
Definition js_or (a b : jsval) : jsval := if truthy a then a else b.

(** Binding a JavaScript value to a statement parameter: [undefined] and
    [null] bind NULL, a boolean binds 0 or 1, and an object or array is
    refused by the driver with a TypeError. *)
Definition bind_value (v : jsval) : option value :=
  match v with
  | JUndefined | JNull => Some VNull
  | JBool b => Some (VInt (if b then 1 else 0))
  | JNum n => Some (VInt n)
  | JStr s => Some (VText s)
  | JObject => None
  end.

(** SQLite's order on storage classes: NULL, then numbers, then text. *)
Definition value_le (a b : value) : Prop :=
  match a, b with
  | VNull, _ => True
  | VInt _, VNull => False
  | VInt x, VInt y => x ≤ y
  | VInt _, VText _ => True
  | VText _, (VNull | VInt _) => False
  | VText x, VText y => string_le x y
  end.

Global Instance value_le_dec : RelDecision value_le.
Proof. intros [|x|x] [|y|y]; simpl; apply _. Defined.

(** ** Column affinity

    The declared type of a column decides how a bound value is stored:
    a TEXT column stores an integer as its decimal text, an INTEGER or
    NUMERIC (here: BOOLEAN) column stores text that is a decimal integer
    literal as that integer. Any other text is kept as text here; SQLite
    would also convert text written as a fraction, with an exponent or with
    surrounding blanks, and stores numbers within 64 bits or as floating
    point. The embedding is exact for NULL, for booleans, for integers of
    32 bits and for text stored in a TEXT column ([exact_value] below); a
    property that pins the stored form of a supplied value is stated for
    these values. *)

Inductive affinity := TEXT | INTEGER | NUMERIC.

Definition digit_of (c : ascii) : option Z :=
  let n := Z.of_N (N_of_ascii c) in
  if (48 <=? n) && (n <=? 57) then Some (n - 48) else None.

Fixpoint digits_value (acc : Z) (s : string) : option Z :=
  match s with
  | EmptyString => Some acc
  | String c s' =>
      match digit_of c with
      | Some d => digits_value (10 * acc + d) s'
      | None => None
      end
  end.

Definition integer_literal (s : string) : option Z :=
  match s with
  | EmptyString => None
  | String "-"%char (String _ _ as t) => Z.opp <$> digits_value 0 t
  | String "+"%char (String _ _ as t) => digits_value 0 t
  | _ => digits_value 0 s
  end.

Definition apply_affinity (a : affinity) (v : value) : value :=
  match a, v with
  | TEXT, VInt n => VText (pretty n)
  | (INTEGER | NUMERIC), VText s =>
      match integer_literal s with
      | Some n => VInt n
      | None => VText s
      end
  | _, _ => v
  end.

(** ** Outcome of a call that may throw *)

Inductive outcome (A : Type) :=
  | Returned (a : A)
  | Thrown.
Arguments Returned {A} a.
Arguments Thrown {A}.

Global Instance outcome_ret : MRet outcome := λ A a, Returned a.
Global Instance outcome_bind : MBind outcome := λ A B f m,
  match m with
  | Returned a => f a
  | Thrown => Thrown
  end.

(** A driver call that fails on [None]. *)
Definition or_throw {A} (o : option A) : outcome A :=
  match o with
  | Some a => Returned a
  | None => Thrown
  end.

(** ** The [tasks] table *)

Module Task.

(** A row of
    [tasks (id TEXT PRIMARY KEY, title TEXT NOT NULL, description TEXT,
            day TEXT NOT NULL, priority INTEGER NOT NULL DEFAULT 1,
            completed BOOLEAN NOT NULL DEFAULT FALSE,
            created_at TEXT NOT NULL, updated_at TEXT NOT NULL)]. *)
Record row := mk {
  id : value;
  title : value;
  description : value;
  day : value;
  priority : value;
  completed : value;
  created_at : value;
  updated_at : value
}.

Inductive column :=
  | Id | Title | Description | Day | Priority | Completed | Created_at | Updated_at.

Definition columns : list column :=
  [Id; Title; Description; Day; Priority; Completed; Created_at; Updated_at].

Definition name (c : column) : string :=
  match c with
  | Id => "id" | Title => "title" | Description => "description"
  | Day => "day" | Priority => "priority" | Completed => "completed"
  | Created_at => "created_at" | Updated_at => "updated_at"
  end.

Definition type_of (c : column) : affinity :=
  match c with
  | Priority => INTEGER
  | Completed => NUMERIC
  | _ => TEXT
  end.

Definition not_null (c : column) : bool :=
  match c with
  | Id | Description => false
  | _ => true
  end.

Definition get (c : column) (r : row) : value :=
  match c with
  | Id => id r | Title => title r | Description => description r
  | Day => day r | Priority => priority r | Completed => completed r
  | Created_at => created_at r | Updated_at => updated_at r
  end.

(** Storing [v] in column [c]: the column's affinity is applied. *)
Definition set (c : column) (v : value) (r : row) : row :=
  let w := apply_affinity (type_of c) v in
  match c with
  | Id => mk w (title r) (description r) (day r) (priority r) (completed r) (created_at r) (updated_at r)
  | Title => mk (id r) w (description r) (day r) (priority r) (completed r) (created_at r) (updated_at r)
  | Description => mk (id r) (title r) w (day r) (priority r) (completed r) (created_at r) (updated_at r)
  | Day => mk (id r) (title r) (description r) w (priority r) (completed r) (created_at r) (updated_at r)
  | Priority => mk (id r) (title r) (description r) (day r) w (completed r) (created_at r) (updated_at r)
  | Completed => mk (id r) (title r) (description r) (day r) (priority r) w (created_at r) (updated_at r)
  | Created_at => mk (id r) (title r) (description r) (day r) (priority r) (completed r) w (updated_at r)
  | Updated_at => mk (id r) (title r) (description r) (day r) (priority r) (completed r) (created_at r) w
  end.

(** The column a name in a statement refers to; a name that is no column of
    the table makes the statement fail to compile ("no such column"). Names
    are resolved as the schema writes them. SQLite itself ignores letter
    case in a name and knows three aliases of the hidden rowid; a property
    that speaks of the effect of an update is therefore stated for keys
    written as in the schema (or for one named key that is no column under
    either reading). *)
Definition column_of_name (n : string) : option column :=
  List.find (λ c, String.eqb (name c) n) columns.

(** The NOT NULL constraints of a row ([id] has none: a TEXT PRIMARY KEY
    does not imply NOT NULL in SQLite). *)
Definition constraints_ok (r : row) : bool :=
  forallb (λ c, negb (not_null c) || negb (bool_decide (get c r = VNull))) columns.

End Task.

Global Instance task_column_eq_dec : EqDecision Task.column.
Proof. solve_decision. Defined.

Global Instance task_row_eq_dec : EqDecision Task.row.
Proof. solve_decision. Defined.

(** ** The [pomodoro_sessions] table *)

Module PomodoroSession.

(** A row of
    [pomodoro_sessions (id TEXT PRIMARY KEY, task_id TEXT,
       duration INTEGER NOT NULL, started_at TEXT NOT NULL,
       completed_at TEXT, type TEXT NOT NULL,
       FOREIGN KEY (task_id) REFERENCES tasks (id) ON DELETE SET NULL)]. *)
Record row := mk {
  id : value;
  task_id : value;
  duration : value;
  started_at : value;
  completed_at : value;
  type : value
}.

(** The argument of [createPomodoroSession]:
    [Omit<PomodoroSession, "id">] as it arrives at run time. *)
Record input := mk_input {
  i_task_id : jsval;
  i_duration : jsval;
  i_started_at : jsval;
  i_completed_at : jsval;
  i_type : jsval
}.

(** The object [{ ...session, id }] that [createPomodoroSession] returns. *)
Record object := mk_object {
  o_session : input;
  o_id : string
}.

Definition constraints_ok (r : row) : bool :=
  negb (bool_decide (duration r = VNull))
  && negb (bool_decide (started_at r = VNull))
  && negb (bool_decide (type r = VNull)).

Definition set_completed_at (v : value) (r : row) : row :=
  mk (id r) (task_id r) (duration r) (started_at r) (apply_affinity TEXT v) (type r).

Definition set_task_id (v : value) (r : row) : row :=
  mk (id r) (apply_affinity TEXT v) (duration r) (started_at r) (completed_at r) (type r).

End PomodoroSession.

Global Instance session_row_eq_dec : EqDecision PomodoroSession.row.
Proof. solve_decision. Defined.

(** ** The database connection *)

(** The state behind [this.db]: the two tables and the two settings of the
    connection that matter to the program. [foreign_keys] is SQLite's
    [PRAGMA foreign_keys]; only while it is on does the engine enforce a
    FOREIGN KEY clause and run its ON DELETE action. *)
Record Database := mkDatabase {
  journal_mode_wal : bool;
  foreign_keys : bool;
  tasks : list Task.row;
  pomodoro_sessions : list PomodoroSession.row
}.

(** [new Database(filename)] on a file that does not exist yet: empty,
    and a connection with SQLite's defaults. Foreign-key enforcement is a
    setting of the connection, not of the file, and is off by default. *)
Definition Database_new : Database :=
  {| journal_mode_wal := false; foreign_keys := false;
     tasks := []; pomodoro_sessions := [] |}.

(** [init]: [PRAGMA journal_mode = WAL], then the tables and indexes are
    created unless they exist. No other PRAGMA is issued. *)
Definition init (d : Database) : Database :=
  {| journal_mode_wal := true; foreign_keys := foreign_keys d;
     tasks := tasks d; pomodoro_sessions := pomodoro_sessions d |}.

(** The singleton [db = new TodoDatabase()] at start-up. *)
Definition db : Database := init Database_new.

Definition with_tasks (ts : list Task.row) (d : Database) : Database :=
  {| journal_mode_wal := journal_mode_wal d; foreign_keys := foreign_keys d;
     tasks := ts; pomodoro_sessions := pomodoro_sessions d |}.

Definition with_sessions (ss : list PomodoroSession.row) (d : Database) : Database :=
  {| journal_mode_wal := journal_mode_wal d; foreign_keys := foreign_keys d;
     tasks := tasks d; pomodoro_sessions := ss |}.

(** ** Statements *)

(** [col = $p] for a TEXT column and a bound parameter: the parameter takes
    the column's affinity, and NULL equals nothing. *)
Definition text_eq (p : value) (v : value) : bool :=
  match apply_affinity TEXT p with
  | VNull => false
  | w => bool_decide (v = w)
  end.

(** [UPDATE tasks SET ... WHERE ...]: [f] is applied to the rows selected by
    [sel]; a row that then breaks a NOT NULL constraint aborts the statement
    and nothing is changed. (No statement of the program gives a row a new
    primary key, see [assign_id], so uniqueness cannot be broken here.) *)
Definition update_tasks (sel : Task.row → bool) (f : Task.row → Task.row)
    (rows : list Task.row) : outcome (list Task.row) :=
  if forallb (λ r, negb (sel r) || Task.constraints_ok (f r)) rows
  then Returned (map (λ r, if sel r then f r else r) rows)
  else Thrown.

(** [ORDER BY k1 ASC, k2 ASC, ...]. *)
Fixpoint order_by (keys : list Task.column) (a b : Task.row) : Prop :=
  match keys with
  | [] => True
  | k :: ks =>
      value_le (Task.get k a) (Task.get k b)
      ∧ (value_le (Task.get k b) (Task.get k a) → order_by ks a b)
  end.

Global Instance order_by_dec (keys : list Task.column) : RelDecision (order_by keys).
Proof. intros a b. induction keys as [|k ks IH]; simpl; apply _. Defined.

(** ** [TodoDatabase]: task operations *)

(** The argument of [createTask]:
    [Omit<Task, "id" | "created_at" | "updated_at">] as it arrives at run
    time. *)
Record TaskInput := mkTaskInput {
  in_title : jsval;
  in_description : jsval;
  in_day : jsval;
  in_priority : jsval;
  in_completed : jsval
}.

(** [newTask = { ...task, id, created_at: now, updated_at: now }]. *)
Record TaskObject := mkTaskObject {
  new_task : TaskInput;
  new_id : string;
  new_created_at : string;
  new_updated_at : string
}.

(** The row that is stored for the values [raw]: every value takes its
    column's affinity. *)
Definition stored_form (raw : Task.row) : Task.row :=
  foldr (λ c acc, Task.set c (Task.get c raw) acc) raw Task.columns.

(** [INSERT INTO tasks (...) VALUES (...)]: a second row with the same
    primary key or a NULL in a NOT NULL column makes the statement fail. *)
Definition insert_task (raw : Task.row) (rows : list Task.row) : outcome (list Task.row) :=
  let r := stored_form raw in
  if existsb (λ r', text_eq (Task.id r) (Task.id r')) rows then Thrown
  else if Task.constraints_ok r then Returned (rows ++ [r])%list
  else Thrown.

Definition createTask (id now : string) (task : TaskInput) (d : Database)
    : outcome (TaskObject * Database) :=
  let newTask :=
    {| new_task := task; new_id := id; new_created_at := now; new_updated_at := now |} in
  v_title ← or_throw (bind_value (in_title (new_task newTask)));
  v_description ← or_throw (bind_value (in_description (new_task newTask)));
  v_day ← or_throw (bind_value (in_day (new_task newTask)));
  v_priority ← or_throw (bind_value (in_priority (new_task newTask)));
  v_completed ← or_throw (bind_value (in_completed (new_task newTask)));
  rows ← insert_task
    (Task.mk (VText (new_id newTask)) v_title v_description v_day v_priority
       v_completed (VText (new_created_at newTask)) (VText (new_updated_at newTask)))
    (tasks d);
  Returned (newTask, with_tasks rows d).

(** [SELECT * FROM tasks WHERE day = $day ORDER BY priority ASC, created_at ASC]. *)
Definition getTasksByDay (day : string) (d : Database) : list Task.row :=
  merge_sort (order_by [Task.Priority; Task.Created_at])
    (filter (λ r, text_eq (VText day) (Task.day r)) (tasks d)).

(** [SELECT * FROM tasks ORDER BY day, priority ASC, created_at ASC]. *)
Definition getAllTasks (d : Database) : list Task.row :=
  merge_sort (order_by [Task.Day; Task.Priority; Task.Created_at]) (tasks d).

(** [SELECT * FROM tasks WHERE id = $id], first row or [null]. *)
Definition getTask (id : string) (d : Database) : option Task.row :=
  List.find (λ r, text_eq (VText id) (Task.id r)) (tasks d).

(** [Object.keys(updates).map(key => `${key} = $${key}`).join(", ")]; an
    object is the list of its entries in key order. *)
Definition fields (updates : list (string * jsval)) : string :=
  String.concat ", " (map (λ kv, kv.1 ++ " = $" ++ kv.1) updates).

(** The text handed to [this.db.query] by [updateTask] (without the
    template's line breaks). *)
Definition updateTask_query (updates : list (string * jsval)) : string :=
  "UPDATE tasks SET " ++ fields updates ++ ", updated_at = $updated_at WHERE id = $id".

(** The SET clause of that text as the engine reads it: target name and
    parameter name of each assignment, left to right. *)
Definition updateTask_set_clause (updates : list (string * jsval)) : list (string * string) :=
  app (map (λ kv, (kv.1, "$" ++ kv.1)) updates) [("updated_at", "$updated_at")].

(** [{ $id: id, $updated_at: updated_at, ...Object.fromEntries(...) }]:
    an entry of [updates] replaces an earlier entry of the same name. *)
Definition updateTask_params (id updated_at : string) (updates : list (string * jsval))
    : gmap string jsval :=
  foldl (λ m kv, <["$" ++ kv.1 := kv.2]> m)
    (<["$updated_at" := JStr updated_at]> {["$id" := JStr id]}) updates.

(** Binding the parameter [name] of a statement from the object handed to
    [run]; a parameter the object lacks stays unbound, which reads as NULL
    (every parameter of [updateTask] is present). *)
Definition bind_param (params : gmap string jsval) (name : string) : outcome value :=
  match params !! name with
  | Some v => or_throw (bind_value v)
  | None => Returned VNull
  end.

(** Compiling and binding a SET clause: each target must be a column, each
    parameter must bind. A key is taken as one name here; a key that
    carries SQL text of its own is parsed by SQLite as such, which the
    embedding does not follow (see [Task.column_of_name]). *)
Fixpoint compile_set (params : gmap string jsval) (clause : list (string * string))
    : outcome (list (Task.column * value)) :=
  match clause with
  | [] => Returned []
  | (target, p) :: rest =>
      c ← or_throw (Task.column_of_name target);
      v ← bind_param params p;
      tl ← compile_set params rest;
      Returned ((c, v) :: tl)
  end.

(** The assignments take effect left to right, so the rightmost assignment
    to a column wins. *)
Definition assign (asg : list (Task.column * value)) (r : Task.row) : Task.row :=
  foldl (λ acc cv, Task.set cv.1 cv.2 acc) r asg.

Definition updateTask (now : string) (id : string) (updates : list (string * jsval))
    (d : Database) : outcome (option Task.row * Database) :=
  let updated_at := now in
  if (String.length (fields updates) =? 0)%nat then Returned (getTask id d, d)
  else
    let params := updateTask_params id updated_at updates in
    asg ← compile_set params (updateTask_set_clause updates);
    key ← bind_param params "$id";
    rows ← update_tasks (λ r, text_eq key (Task.id r)) (assign asg) (tasks d);
    let d' := with_tasks rows d in
    Returned (getTask id d', d').

(** [DELETE FROM tasks WHERE id = $id]; [result.changes > 0]. With foreign
    keys enforced, the ON DELETE SET NULL action clears [task_id] in the
    sessions that reference a deleted task. *)
Definition deleteTask (id : string) (d : Database) : bool * Database :=
  let sel := λ r, text_eq (VText id) (Task.id r) in
  let deleted := filter (λ r, sel r) (tasks d) in
  let kept := filter (λ r, negb (sel r)) (tasks d) in
  let references := λ s : PomodoroSession.row,
    existsb (λ t, text_eq (Task.id t) (PomodoroSession.task_id s)) deleted in
  let sessions :=
    if foreign_keys d
    then map (λ s, if references s then PomodoroSession.set_task_id VNull s else s)
           (pomodoro_sessions d)
    else pomodoro_sessions d in
  let changes := Z.of_nat (length deleted) in
  (0 <? changes,
   {| journal_mode_wal := journal_mode_wal d; foreign_keys := foreign_keys d;
      tasks := kept; pomodoro_sessions := sessions |}).

(** The [forEach] of [reorderTasks], from position [index] on:
    [UPDATE tasks SET priority = $priority WHERE id = $id] with
    [$priority = index + 1]. *)
Fixpoint reorder_from (index : Z) (ids : list jsval) (rows : list Task.row)
    : outcome (list Task.row) :=
  match ids with
  | [] => Returned rows
  | id :: rest =>
      key ← or_throw (bind_value id);
      rows' ← update_tasks (λ r, text_eq key (Task.id r))
                (Task.set Task.Priority (VInt (index + 1))) rows;
      reorder_from (index + 1) rest rows'
  end.

(** [reorderTasks]: the updates run in one transaction, so a throw leaves
    the database as it was. [day] is not used. *)
Definition reorderTasks (day : jsval) (taskIds : list jsval) (d : Database)
    : outcome Database :=
  rows ← reorder_from 0 taskIds (tasks d);
  Returned (with_tasks rows d).

(** ** [TodoDatabase]: pomodoro operations *)

(** [INSERT INTO pomodoro_sessions (...) VALUES (...)]. The FOREIGN KEY
    clause is checked only while the connection enforces foreign keys. *)
Definition insert_session (fk : bool) (parents : list Task.row)
    (raw : PomodoroSession.row) (rows : list PomodoroSession.row)
    : outcome (list PomodoroSession.row) :=
  let r :=
    PomodoroSession.mk
      (apply_affinity TEXT (PomodoroSession.id raw))
      (apply_affinity TEXT (PomodoroSession.task_id raw))
      (apply_affinity INTEGER (PomodoroSession.duration raw))
      (apply_affinity TEXT (PomodoroSession.started_at raw))
      (apply_affinity TEXT (PomodoroSession.completed_at raw))
      (apply_affinity TEXT (PomodoroSession.type raw)) in
  let referenced :=
    bool_decide (PomodoroSession.task_id r = VNull)
    || existsb (λ t, text_eq (Task.id t) (PomodoroSession.task_id r)) parents in
  if existsb (λ r', text_eq (PomodoroSession.id r) (PomodoroSession.id r')) rows then Thrown
  else if negb (PomodoroSession.constraints_ok r) then Thrown
  else if fk && negb referenced then Thrown
  else Returned (rows ++ [r])%list.

Definition createPomodoroSession (id : string) (session : PomodoroSession.input)
    (d : Database) : outcome (PomodoroSession.object * Database) :=
  let newSession := {| PomodoroSession.o_session := session; PomodoroSession.o_id := id |} in
  v_task_id ← or_throw (bind_value (PomodoroSession.i_task_id session));
  v_duration ← or_throw (bind_value (PomodoroSession.i_duration session));
  v_started_at ← or_throw (bind_value (PomodoroSession.i_started_at session));
  v_completed_at ← or_throw (bind_value (PomodoroSession.i_completed_at session));
  v_type ← or_throw (bind_value (PomodoroSession.i_type session));
  rows ← insert_session (foreign_keys d) (tasks d)
    (PomodoroSession.mk (VText id) v_task_id v_duration v_started_at v_completed_at v_type)
    (pomodoro_sessions d);
  Returned (newSession, with_sessions rows d).

(** [UPDATE pomodoro_sessions SET completed_at = $completed_at WHERE id = $id]
    followed by [SELECT * FROM pomodoro_sessions WHERE id = $id]. *)
Definition completePomodoroSession (now : string) (id : string) (d : Database)
    : option PomodoroSession.row * Database :=
  let completed_at := now in
  let sel := λ r, text_eq (VText id) (PomodoroSession.id r) in
  let rows :=
    map (λ r, if sel r then PomodoroSession.set_completed_at (VText completed_at) r else r)
      (pomodoro_sessions d) in
  let d' := with_sessions rows d in
  (List.find sel (pomodoro_sessions d'), d').

(** ** The request handlers of [serve] *)

(** The payloads handed to [server.publish], before [JSON.stringify]. *)
Inductive event :=
  | task_created (task : TaskObject)
  | task_updated (task : Task.row)
  | task_deleted (id : string)
  | tasks_reordered (day : jsval) (taskIds : list jsval)
  | session_started (session : PomodoroSession.object)
  | session_completed (session : PomodoroSession.row).

Inductive reply :=
  | reply_error (error : string)
  | reply_task (task : TaskObject)
  | reply_task_row (task : Task.row)
  | reply_success
  | reply_session (session : PomodoroSession.object)
  | reply_session_row (session : PomodoroSession.row).

Record Response := mkResponse {
  status : Z;
  body : reply
}.

(** What a handler works on: the store behind [db] and the log of
    [server.publish] calls as (topic, event), oldest first. *)
Record Server := mkServer {
  store : Database;
  published : list (string * event)
}.

Definition publish (topic : string) (e : event) (sv : Server) : Server :=
  {| store := store sv; published := (published sv ++ [(topic, e)])%list |}.

Definition with_store (d : Database) (sv : Server) : Server :=
  {| store := d; published := published sv |}.

(** The JSON bodies, after the handlers' destructuring; a missing field is
    [JUndefined]. [taskIds] is [Some] exactly when it is an array. *)
Record CreateBody := mkCreateBody {
  b_title : jsval;
  b_description : jsval;
  b_day : jsval
}.

Record ReorderBody := mkReorderBody {
  b_reorder_day : jsval;
  b_taskIds : option (list jsval)
}.

Record SessionBody := mkSessionBody {
  b_task_id : jsval;
  b_duration : jsval;
  b_type : jsval
}.

(** POST /api/tasks *)
Definition POST_tasks (id now : string) (b : CreateBody) (sv : Server) : Response * Server :=
  if negb (truthy (b_title b)) || negb (truthy (b_day b))
  then (mkResponse 400 (reply_error "Title and day are required"), sv)
  else
    match createTask id now
            {| in_title := b_title b; in_description := b_description b;
               in_day := b_day b; in_priority := JNum 1; in_completed := JBool false |}
            (store sv) with
    | Returned (task, d) =>
        (mkResponse 200 (reply_task task),
         publish "tasks" (task_created task) (with_store d sv))
    | Thrown => (mkResponse 500 (reply_error "Failed to create task"), sv)
    end.

(** PUT /api/tasks/:id *)
Definition PUT_task (now : string) (id : string) (b : list (string * jsval)) (sv : Server)
    : Response * Server :=
  match updateTask now id b (store sv) with
  | Returned (None, d) =>
      (mkResponse 404 (reply_error "Task not found"), with_store d sv)
  | Returned (Some task, d) =>
      (mkResponse 200 (reply_task_row task),
       publish "tasks" (task_updated task) (with_store d sv))
  | Thrown => (mkResponse 500 (reply_error "Failed to update task"), sv)
  end.

(** DELETE /api/tasks/:id *)
Definition DELETE_task (id : string) (sv : Server) : Response * Server :=
  let '(deleted, d) := deleteTask id (store sv) in
  if negb deleted
  then (mkResponse 404 (reply_error "Task not found"), with_store d sv)
  else (mkResponse 200 reply_success, publish "tasks" (task_deleted id) (with_store d sv)).

(** POST /api/tasks/reorder; the guard [!day || !Array.isArray(taskIds)]
    is the two 400 branches. *)
Definition POST_reorder (b : ReorderBody) (sv : Server) : Response * Server :=
  match b_taskIds b with
  | Some taskIds =>
      if negb (truthy (b_reorder_day b))
      then (mkResponse 400 (reply_error "Day and taskIds array are required"), sv)
      else
        match reorderTasks (b_reorder_day b) taskIds (store sv) with
        | Returned d =>
            (mkResponse 200 reply_success,
             publish "tasks" (tasks_reordered (b_reorder_day b) taskIds) (with_store d sv))
        | Thrown => (mkResponse 500 (reply_error "Failed to reorder tasks"), sv)
        end
  | None => (mkResponse 400 (reply_error "Day and taskIds array are required"), sv)
  end.

(** POST /api/pomodoro/sessions *)
Definition POST_sessions (id now : string) (b : SessionBody) (sv : Server)
    : Response * Server :=
  if negb (truthy (b_duration b)) || negb (truthy (b_type b))
  then (mkResponse 400 (reply_error "Duration and type are required"), sv)
  else
    match createPomodoroSession id
            {| PomodoroSession.i_task_id := js_or (b_task_id b) JNull;
               PomodoroSession.i_duration := b_duration b;
               PomodoroSession.i_started_at := JStr now;
               PomodoroSession.i_completed_at := JNull;
               PomodoroSession.i_type := b_type b |}
            (store sv) with
    | Returned (session, d) =>
        (mkResponse 200 (reply_session session),
         publish "pomodoro" (session_started session) (with_store d sv))
    | Thrown => (mkResponse 500 (reply_error "Failed to create session"), sv)
    end.

(** POST /api/pomodoro/sessions/:id/complete *)
Definition POST_complete (now : string) (id : string) (sv : Server) : Response * Server :=
  let '(found, d) := completePomodoroSession now id (store sv) in
  match found with
  | None => (mkResponse 404 (reply_error "Session not found"), with_store d sv)
  | Some session =>
      (mkResponse 200 (reply_session_row session),
       publish "pomodoro" (session_completed session) (with_store d sv))
  end.

(** The mutating requests of the API, each with the identifier and the
    clock reading its handler draws. *)
Inductive request :=
  | Create (id now : string) (b : CreateBody)
  | Update (now : string) (id : string) (b : list (string * jsval))
  | Delete (id : string)
  | Reorder (b : ReorderBody)
  | StartSession (id now : string) (b : SessionBody)
  | CompleteSession (now : string) (id : string).

Definition handle (r : request) (sv : Server) : Response * Server :=
  match r with
  | Create id now b => POST_tasks id now b sv
  | Update now id b => PUT_task now id b sv
  | Delete id => DELETE_task id sv
  | Reorder b => POST_reorder b sv
  | StartSession id now b => POST_sessions id now b sv
  | CompleteSession now id => POST_complete now id sv
  end.


(** ** The server over a sequence of requests *)

(** The server at start-up: the fresh store, nothing published. *)
Definition start : Server := {| store := db; published := [] |}.

(** The server after the requests [rs], first request first. *)
Definition serve (rs : list request) (sv : Server) : Server :=
  foldl (λ sv r, (handle r sv).2) sv rs.

(** ** The client *)

(** The weekday tokens of the client ([DAYS]). *)
Definition DAYS : list string :=
  ["monday"; "tuesday"; "wednesday"; "thursday"; "friday"; "saturday"; "sunday"].

(** The grouping of [fetchAllTasks]:
    [data.tasks.filter(task => task.day === day)]. *)
Definition tasks_of_day (tasks : list Task.row) (day : string) : list Task.row :=
  filter (λ task, Task.day task = VText day) tasks.

(** ** The pomodoro timer component *)

Module PomodoroTimer.

Inductive session_type := work | short_break | long_break.

Record PomodoroState := mkState {
  timeLeft : Z;
  isRunning : bool;
  currentType : session_type;
  sessionCount : Z;
  currentSessionId : option string
}.

Definition TIMER_DURATIONS (t : session_type) : Z :=
  match t with
  | work => 25 * 60
  | short_break => 5 * 60
  | long_break => 15 * 60
  end.

(** The argument of [useState]. *)
Definition initial : PomodoroState :=
  {| timeLeft := TIMER_DURATIONS work; isRunning := false; currentType := work;
     sessionCount := 0; currentSessionId := None |}.

Definition is_work (t : session_type) : bool :=
  match t with work => true | _ => false end.

(** [completeSession], after its request to the server: the state it
    passes to [setState]. [%] is JavaScript's remainder; [sessionCount]
    counts sessions and stays far below 2^53, where a JavaScript number is
    the integer. *)
Definition completeSession (state : PomodoroState) : PomodoroState :=
  let newSessionCount :=
    if is_work (currentType state) then sessionCount state + 1 else sessionCount state in
  let nextType :=
    if is_work (currentType state)
    then (if Z.rem newSessionCount 4 =? 0 then long_break else short_break)
    else work in
  {| timeLeft := TIMER_DURATIONS nextType; isRunning := false; currentType := nextType;
     sessionCount := newSessionCount; currentSessionId := None |}.

(** The interval callback. *)
Definition tick (prev : PomodoroState) : PomodoroState :=
  {| timeLeft := Z.max 0 (timeLeft prev - 1); isRunning := isRunning prev;
     currentType := currentType prev; sessionCount := sessionCount prev;
     currentSessionId := currentSessionId prev |}.

(** How the request of [startSession] ended: the server answered with a
    session, answered with an error status, or the request itself failed. *)
Inductive start_answer :=
  | Created (id : string)
  | Refused
  | Failed.

Definition startSession (answer : start_answer) (prev : PomodoroState) : PomodoroState :=
  match answer with
  | Created id =>
      {| timeLeft := timeLeft prev; isRunning := true; currentType := currentType prev;
         sessionCount := sessionCount prev; currentSessionId := Some id |}
  | Refused => prev
  | Failed =>
      {| timeLeft := timeLeft prev; isRunning := true; currentType := currentType prev;
         sessionCount := sessionCount prev; currentSessionId := currentSessionId prev |}
  end.

Definition pauseTimer (prev : PomodoroState) : PomodoroState :=
  {| timeLeft := timeLeft prev; isRunning := false; currentType := currentType prev;
     sessionCount := sessionCount prev; currentSessionId := currentSessionId prev |}.

Definition resetTimer (state : PomodoroState) : PomodoroState :=
  {| timeLeft := TIMER_DURATIONS (currentType state); isRunning := false;
     currentType := currentType state; sessionCount := sessionCount state;
     currentSessionId := None |}.

Definition switchType (type : session_type) (state : PomodoroState) : PomodoroState :=
  if isRunning state then state
  else {| timeLeft := TIMER_DURATIONS type; isRunning := false; currentType := type;
          sessionCount := sessionCount state; currentSessionId := None |}.

Inductive action :=
  | Tick
  | Start (answer : start_answer)
  | Pause
  | Reset
  | Switch (type : session_type)
  | Complete.

Definition step (a : action) (s : PomodoroState) : PomodoroState :=
  match a with
  | Tick => tick s
  | Start answer => startSession answer s
  | Pause => pauseTimer s
  | Reset => resetTimer s
  | Switch type => switchType type s
  | Complete => completeSession s
  end.

(** The state after a sequence of actions, first action first. *)
Definition run (acts : list action) (s : PomodoroState) : PomodoroState :=
  foldl (λ s a, step a s) s acts.

(** The next types chosen by the completions of work sessions along a
    sequence of actions, in order. *)
Fixpoint selections (acts : list action) (s : PomodoroState) : list session_type :=
  match acts with
  | [] => []
  | a :: rest =>
      let s' := step a s in
      match a with
      | Complete =>
          if is_work (currentType s)
          then currentType s' :: selections rest s'
          else selections rest s'
      | _ => selections rest s'
      end
  end.

End PomodoroTimer.

(** ** [TodoDatabase] and [serve]: reading *)

(** [ORDER BY started_at DESC]. *)
Definition started_at_desc (a b : PomodoroSession.row) : Prop :=
  value_le (PomodoroSession.started_at b) (PomodoroSession.started_at a).

Global Instance started_at_desc_dec : RelDecision started_at_desc.
Proof. intros a b. unfold started_at_desc. apply _. Defined.

(** [getPomodoroSessions(taskId?)]: with a task id that is not empty,
    [SELECT * FROM pomodoro_sessions WHERE task_id = $task_id ORDER BY
    started_at DESC]; without one, or with the empty string (which [if
    (taskId)] takes for absent), all sessions in that order. *)
Definition getPomodoroSessions (taskId : option string) (d : Database)
    : list PomodoroSession.row :=
  match taskId with
  | Some task_id =>
      if truthy (JStr task_id)
      then merge_sort started_at_desc
             (filter (λ s, text_eq (VText task_id) (PomodoroSession.task_id s))
                (pomodoro_sessions d))
      else merge_sort started_at_desc (pomodoro_sessions d)
  | None => merge_sort started_at_desc (pomodoro_sessions d)
  end.

(** GET /api/tasks: [day] is [url.searchParams.get("day")], absent as
    [None]; the answer is [{ tasks }] with status 200 (a read of the store
    does not throw). *)
Definition GET_tasks (day : option string) (sv : Server) : list Task.row :=
  match day with
  | Some day =>
      if truthy (JStr day) then getTasksByDay day (store sv) else getAllTasks (store sv)
  | None => getAllTasks (store sv)
  end.

(** GET /api/pomodoro/sessions: [taskId] is
    [url.searchParams.get("taskId") || undefined]. *)
Definition GET_sessions (taskId : option string) (sv : Server)
    : list PomodoroSession.row :=
  getPomodoroSessions
    (match taskId with
     | Some t => if truthy (JStr t) then Some t else None
     | None => None
     end)
    (store sv).

(** ** The pomodoro timer component: display and effect *)

(** [s.padStart(target, c)] for a one-character pad string. *)
Definition padStart (target : nat) (c : ascii) (s : string) : string :=
  String.concat "" (replicate (target - String.length s) (String c "")) ++ s.

(** [formatTime]: [Math.floor(seconds / 60)] and [seconds % 60], each
    printed in decimal and padded to two characters. *)
Definition formatTime (seconds : Z) : string :=
  let minutes := seconds / 60 in
  let remainingSeconds := Z.rem seconds 60 in
  padStart 2 "0" (pretty minutes) ++ ":" ++ padStart 2 "0" (pretty remainingSeconds).

(** The test [state.currentSessionId] of the effect and of
    [completeSession]: a session id that is neither [null] nor empty. *)
Definition has_session (s : PomodoroTimer.PomodoroState) : bool :=
  match PomodoroTimer.currentSessionId s with
  | Some id => truthy (JStr id)
  | None => false
  end.

(** The first branch of the effect on [[state.isRunning, state.timeLeft]]:
    the interval that calls [tick] every second is set. *)
Definition interval_set (s : PomodoroTimer.PomodoroState) : bool :=
  PomodoroTimer.isRunning s && (0 <? PomodoroTimer.timeLeft s).

(** The other branch: the interval is cleared, and [completeSession] is
    called when the time is up and a session is held. *)
Definition effect (s : PomodoroTimer.PomodoroState) : PomodoroTimer.PomodoroState :=
  if interval_set s then s
  else if (PomodoroTimer.timeLeft s =? 0) && has_session s
       then PomodoroTimer.completeSession s
       else s.

(** [n] seconds of the clock: each second the interval, while it is set,
    calls [tick], and the effect runs on the new state. *)
Fixpoint seconds_pass (n : nat) (s : PomodoroTimer.PomodoroState)
    : PomodoroTimer.PomodoroState :=
  match n with
  | O => s
  | S k => if interval_set s then seconds_pass k (effect (PomodoroTimer.tick s)) else s
  end.

(** The body of the request that [startSession] sends. *)
Definition startSession_body (s : PomodoroTimer.PomodoroState) : SessionBody :=
  {| b_task_id := JNull;
     b_duration := JNum (PomodoroTimer.TIMER_DURATIONS (PomodoroTimer.currentType s));
     b_type :=
       JStr (match PomodoroTimer.currentType s with
             | PomodoroTimer.work => "work"
             | PomodoroTimer.short_break => "short_break"
             | PomodoroTimer.long_break => "long_break"
             end) |}.

(** The Start button against the server: the request is handled, and the
    timer takes the id of the session from a 200 answer. *)
Definition click_start (id now : string) (s : PomodoroTimer.PomodoroState) (sv : Server)
    : PomodoroTimer.PomodoroState * Server :=
  let '(response, sv') := POST_sessions id now (startSession_body s) sv in
  match body response with
  | reply_session session =>
      (PomodoroTimer.startSession
         (PomodoroTimer.Created (PomodoroSession.o_id session)) s, sv')
  | _ => (PomodoroTimer.startSession PomodoroTimer.Refused s, sv')
  end.

(** [completeSession] against the server: the completion request for the
    held session, if any, then the transition. *)
Definition complete_on_server (now : string) (s : PomodoroTimer.PomodoroState)
    (sv : Server) : PomodoroTimer.PomodoroState * Server :=
  let sv' :=
    match PomodoroTimer.currentSessionId s with
    | Some id => if truthy (JStr id) then (POST_complete now id sv).2 else sv
    | None => sv
    end in
  (PomodoroTimer.completeSession s, sv').

(** ** The task list component: drag and drop *)

(** [list.splice(i, 1)] and [list.splice(i, 0, x)] as the list they leave. *)
Definition splice_out {A} (i : nat) (l : list A) : list A :=
  (take i l ++ drop (S i) l)%list.

Definition splice_in {A} (i : nat) (x : A) (l : list A) : list A :=
  (take i l ++ x :: drop i l)%list.

(** [handleDrop] of [TaskList]: the ids handed to [onReorder], or [None]
    when it returns without reordering. [id] reads [task.id]. *)
Definition handleDrop {A} (id : A → string) (tasks : list A)
    (draggedTask : option string) (dropIndex : nat) : option (list string) :=
  match draggedTask with
  | None => None
  | Some dragged =>
      if negb (truthy (JStr dragged)) then None
      else
        match list_find (λ task, id task = dragged) tasks with
        | None => None
        | Some (dragIndex, draggedItem) =>
            if (dragIndex =? dropIndex)%nat then None
            else Some (id <$> splice_in dropIndex draggedItem (splice_out dragIndex tasks))
        end
  end.

(** ** The client: reordering *)

(** [reorderTasks(day, taskIds)] of the client: the request it sends, as
    the server handles it. *)
Definition client_reorderTasks (day : string) (taskIds : list string) (sv : Server)
    : Response * Server :=
  POST_reorder {| b_reorder_day := JStr day; b_taskIds := Some (JStr <$> taskIds) |} sv.

(** The [tasks_reordered] case of [handleWebSocketMessage], on the list
    [prev[message.day]]:
    [taskIds.map(id => list.find(task => task.id === id)).filter(Boolean)]. *)
Definition tasks_reordered_view {A K} `{EqDecision K} (id : A → K) (taskIds : list K)
    (prev_day : list A) : list A :=
  omap (λ x, List.find (λ task, bool_decide (id task = x)) prev_day) taskIds.

(** ** The task item component *)

(** A stored value as the client reads it from the JSON of a row. *)
Definition js_of_value (v : value) : jsval :=
  match v with
  | VNull => JNull
  | VInt n => JNum n
  | VText s => JStr s
  end.

(** [handleToggleComplete]: the updates [{ completed: !task.completed }]
    handed to [onUpdate], for a task whose field reads [completed]. *)
Definition handleToggleComplete (completed : jsval) : list (string * jsval) :=
  [("completed", JBool (negb (truthy completed)))].

(** [JSON.stringify] of an object given by its entries: an entry whose
    value is [undefined] is left out. *)
Definition JSON_entries (o : list (string * jsval)) : list (string * jsval) :=
  filter (λ kv, kv.2 ≠ JUndefined) o.

(** [handleSaveEdit]: the updates handed to [onUpdate], if any; [title]
    and [description] are [editTitle.trim()] and [editDescription.trim()]. *)
Definition handleSaveEdit (title description : string) : option (list (string * jsval)) :=
  if truthy (JStr title)
  then Some [("title", JStr title); ("description", js_or (JStr description) JUndefined)]
  else None.

(** The client's [updateTask(id, updates)]: the PUT request with the JSON
    of [updates] as its body, as the server handles it. *)
Definition client_updateTask (now id : string) (updates : list (string * jsval))
    (sv : Server) : Response * Server :=
  PUT_task now id (JSON_entries updates) sv.

(** ** The client: the tasks of the week *)

(** A task as the client holds it: the object of a [task_created] message,
    or a row of a listing or of a [task_updated] message. *)
Inductive client_task :=
  | of_object (task : TaskObject)
  | of_row (task : Task.row).

(** [task.id] *)
Definition task_id (t : client_task) : jsval :=
  match t with
  | of_object task => JStr (new_id task)
  | of_row task => js_of_value (Task.id task)
  end.

(** The property name a value stands for in [prev[value]]. [JObject] reads
    as a plain object here; an array would give its elements joined by
    commas. The client itself sends strings. *)
Definition property_key (v : jsval) : string :=
  match v with
  | JUndefined => "undefined"
  | JNull => "null"
  | JBool true => "true"
  | JBool false => "false"
  | JNum n => pretty n
  | JStr s => s
  | JObject => "[object Object]"
  end.

(** [DAYS.forEach(day => { tasks[day] = f(day, tasks[day]) })], where an
    absent list reads as the empty one. *)
Definition forEach_DAYS (f : string → list client_task → list client_task)
    (tasks : gmap string (list client_task)) : gmap string (list client_task) :=
  foldl (λ tasks day, <[day := f day (tasks !!! day)]> tasks) tasks DAYS.

(** [fetchAllTasks]: the state after the answer of GET /api/tasks has been
    grouped by day. *)
Definition fetchAllTasks (sv : Server) : gmap string (list client_task) :=
  forEach_DAYS (λ day _, of_row <$> tasks_of_day (GET_tasks None sv) day) ∅.

(** [handleWebSocketMessage] on the state [prev]; the messages are the
    events the server publishes, and the two pomodoro events fall through
    the [switch]. *)
Definition handleWebSocketMessage (message : event) (prev : gmap string (list client_task))
    : gmap string (list client_task) :=
  match message with
  | task_created task =>
      let day := property_key (in_day (new_task task)) in
      <[day := (prev !!! day ++ [of_object task])%list]> prev
  | task_updated task =>
      forEach_DAYS
        (λ _, map (λ t, if bool_decide (task_id t = js_of_value (Task.id task))
                        then of_row task else t))
        prev
  | task_deleted id =>
      if truthy (JStr id)
      then forEach_DAYS (λ _, filter (λ t, task_id t ≠ JStr id)) prev
      else prev
  | tasks_reordered day taskIds =>
      if truthy day
      then <[property_key day :=
               tasks_reordered_view task_id taskIds (prev !!! property_key day)]> prev
      else prev
  | session_started _ | session_completed _ => prev
  end.

(** The client after the request [r] was handled: it has taken in the
    messages published for it. *)
Definition client_after (r : request) (view : gmap string (list client_task))
    (sv : Server) : gmap string (list client_task) :=
  foldl (λ view te, handleWebSocketMessage te.2 view) view
    (drop (length (published sv)) (published (handle r sv).2)).

(** * Vocabulary of the properties *)

(** A task row with identifier [id] is stored. *)
Definition stored (id : string) (d : Database) : Prop :=
  ∃ r, r ∈ tasks d ∧ Task.id r = VText id.

(** [x] identifies a task of [day]. *)
Definition belongs_to (day : string) (d : Database) (x : string) : Prop :=
  ∃ r, r ∈ tasks d ∧ Task.id r = VText x ∧ Task.day r = VText day.

(** What the PRIMARY KEY and NOT NULL clauses of the schema maintain. *)
Record consistent (d : Database) : Prop := mkConsistent {
  unique_task_ids : NoDup (Task.id <$> tasks d);
  task_constraints : Forall (λ r, Task.constraints_ok r = true) (tasks d);
  task_ids_text : Forall (λ r, ∃ s, Task.id r = VText s) (tasks d);
  unique_session_ids : NoDup (PomodoroSession.id <$> pomodoro_sessions d)
}.

(** The fields an update may carry: [Partial<Omit<Task, "id" | "created_at">>]. *)
Definition mutable_fields : list string :=
  ["title"; "description"; "day"; "priority"; "completed"; "updated_at"].

(** An entry of an update that the statement accepts: it names a column,
    its value binds, and it puts no NULL into a NOT NULL column. *)
Definition acceptable (kv : string * jsval) : Prop :=
  ∃ c w, Task.column_of_name kv.1 = Some c
         ∧ bind_value kv.2 = Some w
         ∧ (Task.not_null c = true → w ≠ VNull).



(** A supplied value whose stored form in a column of affinity [a] the
    embedding gives exactly: NULL, a boolean, an integer of 32 bits, or
    text for a TEXT column. *)
Definition exact_value (a : affinity) (v : jsval) : Prop :=
  match v with
  | JUndefined | JNull | JBool _ => True
  | JNum n => -2 ^ 31 ≤ n < 2 ^ 31
  | JStr _ => a = TEXT
  | JObject => False
  end.

(** How the row [r'] after an update relates to the row [r] before it. *)
Definition merged (now id : string) (updates : list (string * jsval))
    (r r' : Task.row) : Prop :=
  if decide (Task.id r = VText id) then
    (∀ c, Task.name c ∉ updates.*1 → c ≠ Task.Updated_at → Task.get c r' = Task.get c r)
    ∧ (∀ c v, (Task.name c, v) ∈ updates → exact_value (Task.type_of c) v →
              ∃ w, bind_value v = Some w
                   ∧ Task.get c r' = apply_affinity (Task.type_of c) w)
    ∧ ("updated_at" ∉ updates.*1 → Task.updated_at r' = VText now)
  else r' = r.

(** A request whose update, if it is one, names its fields as the schema
    writes the columns. *)
Definition plain_request (r : request) : Prop :=
  match r with
  | Update _ _ b => Forall (λ kv, is_Some (Task.column_of_name kv.1)) b
  | _ => True
  end.

(** The last value assigned to column [c], if any. *)
Definition assigned (c : Task.column) (asg : list (Task.column * value)) : option value :=
  foldl (λ acc cv, if decide (cv.1 = c) then Some cv.2 else acc) None asg.

(** [s] occurs in [t]. *)
Definition occurs_in (s t : string) : Prop := ∃ pre post, t = pre ++ s ++ post.


(** Identifier and completion time of a session row. *)
Definition stamp (s : PomodoroSession.row) : value * value :=
  (PomodoroSession.id s, PomodoroSession.completed_at s).

(** What the loop of [reorderTasks] does to one row, from position [index]
    on. *)
Fixpoint renumber (index : Z) (ids : list string) (r : Task.row) : Task.row :=
  match ids with
  | [] => r
  | x :: rest =>
      renumber (index + 1) rest
        (if bool_decide (Task.id r = VText x)
         then Task.set Task.Priority (VInt (index + 1)) r
         else r)
  end.

(** Position of [x] in [ids], counted from 0. *)
Fixpoint index_of (x : string) (ids : list string) : Z :=
  match ids with
  | [] => 0
  | y :: rest => if decide (x = y) then 0 else 1 + index_of x rest
  end.

(** [t] is the break that follows the [count]-th completed work session:
    a long break when [count] is a multiple of 4, a short break otherwise. *)
Definition break_after (count : Z) (t : PomodoroTimer.session_type) : Prop :=
  (t = PomodoroTimer.long_break ∧ (4 | count))
  ∨ (t = PomodoroTimer.short_break ∧ ¬ (4 | count)).

(** The requests of the failing run: a task, a session that refers to it,
    and the deletion of the task. *)
Definition referenced_task_run : list request :=
  [ Create "t1" "2025-01-06T09:00:00.000Z"
      {| b_title := JStr "Write spec"; b_description := JUndefined; b_day := JStr "monday" |};
    StartSession "s1" "2025-01-06T09:05:00.000Z"
      {| b_task_id := JStr "t1"; b_duration := JNum 1500; b_type := JStr "work" |};
    Delete "t1" ].

(** The three tasks A, B, C of the specification's example, created in this
    order on monday. *)
Definition three_tasks : Database :=
  store (serve
    [ Create "A" "2025-01-06T09:00:00.000Z"
        {| b_title := JStr "a"; b_description := JUndefined; b_day := JStr "monday" |};
      Create "B" "2025-01-06T09:01:00.000Z"
        {| b_title := JStr "b"; b_description := JUndefined; b_day := JStr "monday" |};
      Create "C" "2025-01-06T09:02:00.000Z"
        {| b_title := JStr "c"; b_description := JUndefined; b_day := JStr "monday" |} ]
    start).

(** The timer state [s] with [t] seconds left. *)
Definition with_timeLeft (t : Z) (s : PomodoroTimer.PomodoroState)
    : PomodoroTimer.PomodoroState :=
  {| PomodoroTimer.timeLeft := t;
     PomodoroTimer.isRunning := PomodoroTimer.isRunning s;
     PomodoroTimer.currentType := PomodoroTimer.currentType s;
     PomodoroTimer.sessionCount := PomodoroTimer.sessionCount s;
     PomodoroTimer.currentSessionId := PomodoroTimer.currentSessionId s |}.

(** The seconds that a display [MM:SS] of two digits each stands for. *)
Definition read_clock (display : string) : option Z :=
  match display with
  | String m1 (String m2 (String ":" (String s1 (String s2 "")))) =>
      minutes ← digits_value 0 (String m1 (String m2 ""));
      seconds ← digits_value 0 (String s1 (String s2 ""));
      Some (60 * minutes + seconds)
  | _ => None
  end.

(** The id of a task row as the client reads it from the JSON of the row;
    the ids of a consistent store are text. *)
Definition row_id (r : Task.row) : string :=
  match Task.id r with
  | VText s => s
  | _ => ""
  end.

(** The JavaScript value of a session type. *)
Definition type_name (t : PomodoroTimer.session_type) : string :=
  match t with
  | PomodoroTimer.work => "work"
  | PomodoroTimer.short_break => "short_break"
  | PomodoroTimer.long_break => "long_break"
  end.

(** The row of a session that the timer started at [started_at] for the
    type [t]. *)
Definition timer_session (id : string) (t : PomodoroTimer.session_type)
    (started_at : string) (completed_at : value) : PomodoroSession.row :=
  PomodoroSession.mk (VText id) VNull (VInt (PomodoroTimer.TIMER_DURATIONS t))
    (VText started_at) completed_at (VText (type_name t)).

(** The row [r] after its checkbox was toggled at [now]. *)
Definition toggled (now : string) (r : Task.row) : Task.row :=
  Task.mk (Task.id r) (Task.title r) (Task.description r) (Task.day r) (Task.priority r)
    (VInt (if truthy (js_of_value (Task.completed r)) then 0 else 1))
    (Task.created_at r) (VText now).

(** The client shows, for every day of the week, the tasks the server
    lists for that day (in some order). *)
Definition in_sync (view : gmap string (list client_task)) (d : Database) : Prop :=
  ∀ day, day ∈ DAYS →
    task_id <$> (view !!! day) ≡ₚ (λ r, js_of_value (Task.id r)) <$> getTasksByDay day d.

(** The requests the client sends: a task is created for a day given as a
    string, an update leaves [id] and [day] alone, the id of a deletion is
    not empty, and a reordering of a day of the week carries the ids of the
    tasks shown for that day. *)
Definition sent_by_client (r : request) (view : gmap string (list client_task)) : Prop :=
  match r with
  | Create _ _ b => ∃ day, b_day b = JStr day
  | Update _ _ b => Forall (λ kv, kv.1 ∈ mutable_fields ∧ kv.1 ≠ "day") b
  | Delete id => id ≠ ""
  | Reorder b =>
      ∃ day, b_reorder_day b = JStr day
             ∧ (day ∈ DAYS → ∀ taskIds, b_taskIds b = Some taskIds →
                taskIds ≡ₚ task_id <$> (view !!! day))
  | StartSession _ _ _ | CompleteSession _ _ => True
  end.

(** The row [r] after an edit to [title] and [description] was saved at
    [now]; an empty description leaves the stored one. *)
Definition edited (now title description : string) (r : Task.row) : Task.row :=
  Task.mk (Task.id r) (VText title)
    (if decide (description = "") then Task.description r else VText description)
    (Task.day r) (Task.priority r) (Task.completed r) (Task.created_at r) (VText now).

(** * Properties *)

(** ** The orders of the store *)

Lemma ascii_compare_refl (c : ascii) : Ascii.compare c c = Eq.
Proof. unfold Ascii.compare. apply N.compare_refl. Qed.

Lemma ascii_compare_trans (c : comparison) (x y z : ascii) :
  Ascii.compare x y = c → Ascii.compare y z = c → Ascii.compare x z = c.
Proof.
  unfold Ascii.compare. destruct c; intros H1 H2.
  - apply N.compare_eq_iff in H1, H2. apply N.compare_eq_iff. congruence.
  - exact (N.lt_trans _ _ _ H1 H2).
  - rewrite N.compare_gt_iff in *. exact (N.lt_trans _ _ _ H2 H1).
Qed.

Lemma string_compare_refl (s : string) : String.compare s s = Eq.
Proof. induction s as [|c s IH]; simpl; [done|]. by rewrite ascii_compare_refl. Qed.

Lemma string_compare_lt_trans (x y z : string) :
  String.compare x y = Lt → String.compare y z = Lt → String.compare x z = Lt.
Proof.
  revert y z. induction x as [|a x IH]; intros [|b y] [|c z]; simpl; try done.
  destruct (Ascii.compare a b) eqn:Hab; try done;
    destruct (Ascii.compare b c) eqn:Hbc; try done; intros H1 H2.
  - rewrite (ascii_compare_trans Eq a b c Hab Hbc). eauto.
  - apply Ascii.compare_eq_iff in Hab. subst b. by rewrite Hbc.
  - apply Ascii.compare_eq_iff in Hbc. subst c. by rewrite Hab.
  - by rewrite (ascii_compare_trans Lt a b c Hab Hbc).
Qed.

Lemma string_le_alt (a b : string) :
  string_le a b ↔ a = b ∨ String.compare a b = Lt.
Proof.
  unfold string_le. split.
  - destruct (String.compare a b) eqn:E; intros H; try done.
    + left. by apply String.compare_eq_iff.
    + by right.
  - intros [->|H]; [by rewrite string_compare_refl | by rewrite H].
Qed.

Global Instance string_le_refl : Reflexive string_le.
Proof. intros a. unfold string_le. by rewrite string_compare_refl. Qed.

Global Instance string_le_trans : Transitive string_le.
Proof.
  intros x y z. rewrite !string_le_alt.
  intros [->|H1] [->|H2]; eauto using string_compare_lt_trans.
Qed.

Global Instance string_le_total : Total string_le.
Proof.
  intros a b. unfold string_le. rewrite (String.compare_antisym b a).
  destruct (String.compare a b); simpl; auto.
Qed.

Lemma string_le_antisym (a b : string) : string_le a b → string_le b a → a = b.
Proof.
  rewrite !string_le_alt. intros [->|H1] [E|H2]; try done.
  rewrite String.compare_antisym, H1 in H2. done.
Qed.

Global Instance value_le_refl : Reflexive value_le.
Proof. intros [|x|x]; simpl; done. Qed.

Global Instance value_le_trans : Transitive value_le.
Proof.
  intros [|x|x] [|y|y] [|z|z]; simpl; try done; try lia.
  apply string_le_trans.
Qed.

Global Instance value_le_total : Total value_le.
Proof.
  intros [|x|x] [|y|y]; simpl; auto; try lia. apply string_le_total.
Qed.

Lemma value_le_antisym (a b : value) : value_le a b → value_le b a → a = b.
Proof.
  destruct a as [|x|x], b as [|y|y]; simpl; try done.
  - intros. f_equal. lia.
  - intros. f_equal. by apply string_le_antisym.
Qed.

Lemma apply_affinity_null (a : affinity) (v : value) :
  apply_affinity a v = VNull ↔ v = VNull.
Proof.
  destruct a, v as [|n|s]; simpl; try done;
    destruct (integer_literal s); done.
Qed.

Lemma apply_affinity_text (s : string) : apply_affinity TEXT (VText s) = VText s.
Proof. done. Qed.

Global Instance order_by_total (keys : list Task.column) : Total (order_by keys).
Proof.
  intros a b. induction keys as [|k ks IH]; simpl; [by left|].
  destruct (decide (value_le (Task.get k a) (Task.get k b))) as [Hab|Hab],
           (decide (value_le (Task.get k b) (Task.get k a))) as [Hba|Hba].
  - destruct IH; [left|right]; done.
  - left. done.
  - right. done.
  - destruct (value_le_total (Task.get k a) (Task.get k b)); done.
Qed.

Global Instance order_by_trans (keys : list Task.column) : Transitive (order_by keys).
Proof.
  intros a b c. induction keys as [|k ks IH]; simpl; [done|].
  intros [Hab1 Hab2] [Hbc1 Hbc2]. split; [by etrans|].
  intros Hca. apply IH.
  - apply Hab2. by etrans.
  - apply Hbc2. by etrans.
Qed.

(** ** The pomodoro state machine *)

Section Pomodoro.
Import PomodoroTimer.

Lemma completeSession_work (s : PomodoroState) :
  currentType s = work →
  sessionCount (completeSession s) = sessionCount s + 1
  ∧ break_after (sessionCount s + 1) (currentType (completeSession s)).
Proof.
  intros Hw. unfold completeSession, break_after. rewrite Hw. simpl. split; [done|].
  destruct (Z.eqb_spec (Z.rem (sessionCount s + 1) 4) 0) as [E|E].
  - left. split; [done|]. by apply Z.rem_divide.
  - right. split; [done|]. intros D. apply E. by apply Z.rem_divide.
Qed.

Lemma completeSession_break (s : PomodoroState) :
  currentType s ≠ work →
  sessionCount (completeSession s) = sessionCount s
  ∧ currentType (completeSession s) = work.
Proof. intros Hw. unfold completeSession. by destruct (currentType s). Qed.

Lemma step_sessionCount (a : action) (s : PomodoroState) :
  a ≠ Complete → sessionCount (step a s) = sessionCount s.
Proof.
  intros Ha. destruct a as [ |answer| | |t| ]; simpl; try done.
  - by destruct answer.
  - unfold switchType. by destruct (isRunning s).
Qed.

Lemma selections_from (acts : list action) (s : PomodoroState) :
  sessionCount (run acts s) = sessionCount s + Z.of_nat (length (selections acts s))
  ∧ ∀ (n : nat) (t : session_type),
      selections acts s !! n = Some t →
      break_after (sessionCount s + Z.of_nat (S n)) t.
Proof.
  revert s. induction acts as [|a acts IH]; intros s.
  { split; [simpl; lia | intros n t Hn; done]. }
  destruct (IH (step a s)) as [IHc IHs].
  assert (a ≠ Complete ∨ a = Complete) as [Ha| ->].
  { destruct a; auto; left; done. }
  - assert (selections (a :: acts) s = selections acts (step a s)) as ->.
    { by destruct a. }
    split.
    + change (run (a :: acts) s) with (run acts (step a s)).
      rewrite IHc. by rewrite step_sessionCount.
    + intros n t Hn. rewrite <- (step_sessionCount a s Ha). by apply IHs.
  - change (run (Complete :: acts) s) with (run acts (step Complete s)).
    simpl selections. simpl step in *.
    destruct (currentType s) eqn:Hty; simpl is_work.
    + destruct (completeSession_work s Hty) as [Hc Ht]. split.
      * rewrite IHc, Hc. simpl length. lia.
      * intros [|n] t Hn; simpl in Hn.
        -- injection Hn as <-.
           replace (sessionCount s + Z.of_nat 1) with (sessionCount s + 1) by lia.
           unfold completeSession in Ht. rewrite Hty in Ht. exact Ht.
        -- replace (sessionCount s + Z.of_nat (S (S n)))
             with (sessionCount (completeSession s) + Z.of_nat (S n)) by lia.
           by apply IHs.
    + destruct (completeSession_break s) as [Hc Ht]; [by rewrite Hty|].
      split; [by rewrite IHc, Hc|].
      intros n t Hn. rewrite <- Hc. by apply IHs.
    + destruct (completeSession_break s) as [Hc Ht]; [by rewrite Hty|].
      split; [by rewrite IHc, Hc|].
      intros n t Hn. rewrite <- Hc. by apply IHs.
Qed.

(** C8. Completing a session adds one to the counter exactly when the
    session was a work session, and no other action changes the counter.
    After a work session the next type is [long_break] when the new count
    is a multiple of 4 and [short_break] otherwise; after a break it is
    [work]. Along any sequence of actions from the initial state the
    counter is the number of completed work sessions, and the n-th of them
    selects [long_break] exactly when n is a multiple of 4: the first three
    select [short_break], the fourth [long_break]. *)
Theorem pomodoro_next_type :
  (∀ s : PomodoroState,
     currentType s = work →
     sessionCount (completeSession s) = sessionCount s + 1
     ∧ break_after (sessionCount (completeSession s)) (currentType (completeSession s)))
  ∧ (∀ s : PomodoroState,
     currentType s ≠ work →
     sessionCount (completeSession s) = sessionCount s
     ∧ currentType (completeSession s) = work)
  ∧ (∀ (a : action) (s : PomodoroState),
     a ≠ Complete → sessionCount (step a s) = sessionCount s)
  ∧ (∀ acts : list action,
     sessionCount (run acts initial) = Z.of_nat (length (selections acts initial)))
  ∧ (∀ (acts : list action) (n : nat) (t : session_type),
     selections acts initial !! n = Some t → break_after (Z.of_nat (S n)) t)
  ∧ selections [Complete; Complete; Complete; Complete; Complete; Complete; Complete]
      initial
    = [short_break; short_break; short_break; long_break].
Proof.
  split; [|split; [|split; [|split; [|split]]]].
  - intros s Hw. destruct (completeSession_work s Hw) as [Hc Ht].
    split; [done|]. by rewrite Hc.
  - apply completeSession_break.
  - apply step_sessionCount.
  - intros acts. by destruct (selections_from acts initial) as [-> _].
  - intros acts n t Hn. by destruct (selections_from acts initial) as [_ H];
      apply (H n t Hn).
  - reflexivity.
Qed.

End Pomodoro.

Lemma pomodoro_next_type_witness :
  PomodoroTimer.sessionCount (PomodoroTimer.completeSession PomodoroTimer.initial)
  = PomodoroTimer.sessionCount PomodoroTimer.initial + 1
  ∧ break_after
      (PomodoroTimer.sessionCount (PomodoroTimer.completeSession PomodoroTimer.initial))
      (PomodoroTimer.currentType (PomodoroTimer.completeSession PomodoroTimer.initial)).
Proof.
  apply (proj1 pomodoro_next_type PomodoroTimer.initial). reflexivity.
Defined.

(** ** Deleting a task *)

Lemma text_eq_text (s : string) (v : value) :
  text_eq (VText s) v = bool_decide (v = VText s).
Proof. done. Qed.

Lemma text_eq_true (p v : value) : text_eq p v = true → v = apply_affinity TEXT p ∧ v ≠ VNull.
Proof.
  unfold text_eq. destruct (apply_affinity TEXT p) eqn:E; [done| |];
    intros H%bool_decide_eq_true; by subst.
Qed.

Lemma filter_none {A} (sel : A → bool) (l : list A) :
  (∀ x, x ∈ l → sel x = false) → filter (λ x, sel x) l = [].
Proof.
  induction l as [|x l IH]; intros H; [done|].
  rewrite filter_cons. rewrite (H x) by left. simpl.
  apply IH. intros y Hy. apply H. by right.
Qed.

Lemma filter_all {A} (sel : A → bool) (l : list A) :
  (∀ x, x ∈ l → sel x = true) → filter (λ x, sel x) l = l.
Proof.
  induction l as [|x l IH]; intros H; [done|].
  rewrite filter_cons. rewrite (H x) by left. simpl.
  f_equal. apply IH. intros y Hy. apply H. by right.
Qed.

Lemma map_unchanged {A} (f : A → A) (l : list A) :
  (∀ x, x ∈ l → f x = x) → map f l = l.
Proof.
  induction l as [|x l IH]; intros H; [done|]. simpl.
  rewrite (H x) by left. f_equal. apply IH. intros y Hy. apply H. by right.
Qed.

Lemma stored_dec (id : string) (d : Database) : Decision (stored id d).
Proof.
  destruct (decide (Exists (λ r, Task.id r = VText id) (tasks d))) as [H|H].
  - left. apply Exists_exists in H. exact H.
  - right. intros H'. apply H, Exists_exists. exact H'.
Defined.

Lemma deleteTask_tasks (id : string) (d : Database) :
  tasks (deleteTask id d).2 = filter (λ r, Task.id r ≠ VText id) (tasks d).
Proof.
  simpl. apply list_filter_iff. intros r. rewrite text_eq_text.
  destruct (decide (Task.id r = VText id)) as [E|E].
  - rewrite bool_decide_eq_true_2 by done. simpl. tauto.
  - rewrite bool_decide_eq_false_2 by done. simpl. tauto.
Qed.

Lemma deleteTask_stored (id : string) (d : Database) :
  stored id d → (deleteTask id d).1 = true.
Proof.
  intros (r & Hr & Hid). simpl.
  assert (r ∈ filter (λ r, text_eq (VText id) (Task.id r)) (tasks d)) as Hin.
  { apply list_elem_of_filter. split; [|done].
    rewrite text_eq_text. by rewrite bool_decide_eq_true_2. }
  destruct (filter _ (tasks d)) as [|x l]; [by apply elem_of_nil in Hin|].
  apply Z.ltb_lt. simpl length. lia.
Qed.

Lemma deleteTask_not_stored (id : string) (d : Database) :
  ¬ stored id d → deleteTask id d = (false, d).
Proof.
  intros Hno.
  assert (∀ r, r ∈ tasks d → text_eq (VText id) (Task.id r) = false) as Hsel.
  { intros r Hr. rewrite text_eq_text. apply bool_decide_eq_false_2.
    intros E. apply Hno. by exists r. }
  unfold deleteTask. rewrite (filter_none _ _ Hsel).
  rewrite (filter_all (λ r, negb (text_eq (VText id) (Task.id r)))).
  2:{ intros r Hr. by rewrite (Hsel r Hr). }
  simpl. destruct d as [w fk ts ss]. simpl. f_equal. f_equal.
  destruct fk; [|done]. by apply map_unchanged.
Qed.

Lemma deleteTask_removes (id : string) (d : Database) :
  ¬ stored id (deleteTask id d).2.
Proof.
  intros (r & Hr & Hid). rewrite deleteTask_tasks in Hr.
  apply list_elem_of_filter in Hr as [Hne _]. done.
Qed.

Lemma deleteTask_keeps_others (id : string) (d : Database) (r : Task.row) :
  Task.id r ≠ VText id → r ∈ tasks d → r ∈ tasks (deleteTask id d).2.
Proof.
  intros Hne Hr. rewrite deleteTask_tasks. by apply list_elem_of_filter.
Qed.

(** C7. Deleting a stored task reports success and removes the row; the
    same delete repeated reports "not found" and changes nothing, so the
    handler answers 200 and then 404. A delete of an identifier that is not
    stored never reports success. *)
Theorem deleteTask_twice :
  (∀ (id : string) (d : Database),
     stored id d →
     (deleteTask id d).1 = true
     ∧ ¬ stored id (deleteTask id d).2
     ∧ deleteTask id (deleteTask id d).2 = (false, (deleteTask id d).2))
  ∧ (∀ (id : string) (sv : Server),
     stored id (store sv) →
     status (DELETE_task id sv).1 = 200
     ∧ status (DELETE_task id (DELETE_task id sv).2).1 = 404)
  ∧ (∀ (id : string) (d : Database),
     ¬ stored id d → deleteTask id d = (false, d))
  ∧ (∀ (id : string) (sv : Server),
     ¬ stored id (store sv) →
     status (DELETE_task id sv).1 = 404 ∧ (DELETE_task id sv).2 = sv).
Proof.
  split; [|split; [|split]].
  - intros id d H. split; [by apply deleteTask_stored|].
    split; [apply deleteTask_removes|].
    apply deleteTask_not_stored, deleteTask_removes.
  - intros id sv H. unfold DELETE_task.
    pose proof (deleteTask_stored id (store sv) H) as H1.
    pose proof (deleteTask_not_stored id _ (deleteTask_removes id (store sv))) as H2.
    destruct (deleteTask id (store sv)) as [b d1] eqn:E1. simpl in H1, H2. subst b.
    cbn -[deleteTask]. by rewrite H2.
  - apply deleteTask_not_stored.
  - intros id sv H. unfold DELETE_task.
    rewrite (deleteTask_not_stored id (store sv) H). simpl. by destruct sv.
Qed.

Lemma deleteTask_twice_witness :
  (deleteTask "A" three_tasks).1 = true
  ∧ ¬ stored "A" (deleteTask "A" three_tasks).2
  ∧ deleteTask "A" (deleteTask "A" three_tasks).2 = (false, (deleteTask "A" three_tasks).2).
Proof.
  apply (proj1 deleteTask_twice "A" three_tasks).
  eexists. split; [by left|reflexivity].
Defined.

(** ** Assignments of an UPDATE *)

Lemma get_set (c c' : Task.column) (v : value) (r : Task.row) :
  Task.get c (Task.set c' v r)
  = if decide (c = c') then apply_affinity (Task.type_of c) v else Task.get c r.
Proof. by destruct c, c'. Qed.

Lemma column_of_name_name (c : Task.column) : Task.column_of_name (Task.name c) = Some c.
Proof. by destruct c. Qed.

Lemma column_of_name_Some (n : string) (c : Task.column) :
  Task.column_of_name n = Some c → n = Task.name c.
Proof.
  unfold Task.column_of_name. intros H.
  apply find_some in H as [_ H]. by apply String.eqb_eq in H.
Qed.

Lemma assigned_snoc c asg c' v :
  assigned c (asg ++ [(c', v)])%list = if decide (c' = c) then Some v else assigned c asg.
Proof. unfold assigned. by rewrite foldl_snoc. Qed.

Lemma assign_get (c : Task.column) (asg : list (Task.column * value)) (r : Task.row) :
  Task.get c (assign asg r)
  = match assigned c asg with
    | Some v => apply_affinity (Task.type_of c) v
    | None => Task.get c r
    end.
Proof.
  induction asg as [|[c' v] asg IH] using rev_ind; [done|].
  unfold assign. rewrite foldl_snoc. fold (assign asg r).
  rewrite assigned_snoc, get_set. simpl.
  destruct (decide (c = c')) as [->|Hne].
  - by rewrite decide_True.
  - by rewrite decide_False by congruence.
Qed.

Lemma assigned_None (c : Task.column) (asg : list (Task.column * value)) :
  c ∉ asg.*1 → assigned c asg = None.
Proof.
  induction asg as [|[c' v] asg IH] using rev_ind; [done|].
  rewrite fmap_app, not_elem_of_app. simpl. intros [H1 H2].
  rewrite assigned_snoc. rewrite decide_False; [by apply IH|].
  intros ->. apply H2. by left.
Qed.

Lemma assigned_Some (c : Task.column) (asg : list (Task.column * value)) (v : value) :
  assigned c asg = Some v → (c, v) ∈ asg.
Proof.
  induction asg as [|[c' v'] asg IH] using rev_ind; [done|].
  rewrite assigned_snoc. destruct (decide (c' = c)) as [->|Hne].
  - intros [= ->]. apply elem_of_app. right. by left.
  - intros H. apply elem_of_app. left. by apply IH.
Qed.

(** ** Parameters of [updateTask] *)

Lemma dollar_inj (a b : string) : "$" ++ a = "$" ++ b → a = b.
Proof. cbv [String.append]. congruence. Qed.

Section Params.

Let spread := foldl (λ (m : gmap string jsval) (kv : string * jsval),
                <["$" ++ kv.1 := kv.2]> m).

Lemma spread_other (l : list (string * jsval)) (m : gmap string jsval) (k : string) :
  k ∉ l.*1 → spread m l !! ("$" ++ k) = m !! ("$" ++ k).
Proof.
  revert m. induction l as [|[k' v'] l IH]; intros m Hk; [done|].
  simpl in Hk. apply not_elem_of_cons in Hk as [Hne Hk].
  simpl. rewrite IH by done. apply lookup_insert_ne.
  intros E. apply Hne. symmetry. by apply dollar_inj.
Qed.

Lemma spread_entry (l : list (string * jsval)) (m : gmap string jsval)
    (k : string) (v : jsval) :
  NoDup l.*1 → (k, v) ∈ l → spread m l !! ("$" ++ k) = Some v.
Proof.
  revert m. induction l as [|[k' v'] l IH]; intros m Hnd Hin.
  { by apply elem_of_nil in Hin. }
  simpl in Hnd. apply NoDup_cons in Hnd as [Hk' Hnd].
  apply elem_of_cons in Hin as [[= <- <-]|Hin].
  - simpl. rewrite spread_other by done. apply lookup_insert_eq.
  - simpl. by apply IH.
Qed.
End Params.

Lemma updateTask_params_entry id now updates k v :
  NoDup updates.*1 → (k, v) ∈ updates →
  updateTask_params id now updates !! ("$" ++ k) = Some v.
Proof. intros. by apply spread_entry. Qed.

Lemma updateTask_params_updated_at id now updates :
  "updated_at" ∉ updates.*1 →
  updateTask_params id now updates !! "$updated_at" = Some (JStr now).
Proof.
  intros H. unfold updateTask_params.
  change "$updated_at" with ("$" ++ "updated_at") at 1.
  rewrite spread_other by done. apply lookup_insert_eq.
Qed.

Lemma updateTask_params_id id now updates :
  "id" ∉ updates.*1 →
  updateTask_params id now updates !! "$id" = Some (JStr id).
Proof.
  intros H. unfold updateTask_params.
  change "$id" with ("$" ++ "id") at 1.
  rewrite spread_other by done. done.
Qed.

(** ** The text of the UPDATE statement *)

Lemma append_assoc (a b c : string) : (a ++ b) ++ c = a ++ (b ++ c).
Proof.
  induction a as [|x a IH]; [done|].
  change (String x ((a ++ b) ++ c) = String x (a ++ b ++ c)). by rewrite IH.
Qed.

Lemma append_empty_r (a : string) : a ++ "" = a.
Proof.
  induction a as [|x a IH]; [done|].
  change (String x (a ++ "") = String x a). by rewrite IH.
Qed.

Lemma append_eq_empty (a b : string) : a ++ b = "" → a = "" ∧ b = "".
Proof. destruct a as [|x a]; [done|]. intros H. discriminate H. Qed.

Lemma occurs_in_append_l (s t u : string) : occurs_in s t → occurs_in s (u ++ t).
Proof. intros (pre & post & ->). exists (u ++ pre), post. by rewrite append_assoc. Qed.

Lemma occurs_in_append_r (s t u : string) : occurs_in s t → occurs_in s (t ++ u).
Proof.
  intros (pre & post & ->). exists pre, (post ++ u). by rewrite !append_assoc.
Qed.

Lemma occurs_in_refl (s : string) : occurs_in s s.
Proof. exists "", "". simpl. by rewrite append_empty_r. Qed.

Lemma occurs_in_concat (sep s : string) (l : list string) :
  s ∈ l → occurs_in s (String.concat sep l).
Proof.
  induction l as [|x l IH]; intros Hin; [by apply elem_of_nil in Hin|].
  apply elem_of_cons in Hin as [->|Hin].
  - destruct l as [|y l]; simpl; [apply occurs_in_refl|].
    apply occurs_in_append_r, occurs_in_refl.
  - destruct l as [|y l]; [by apply elem_of_nil in Hin|].
    change (String.concat sep (x :: y :: l))
      with (x ++ sep ++ String.concat sep (y :: l)).
    by apply occurs_in_append_l, occurs_in_append_l, IH.
Qed.

Lemma fields_empty (updates : list (string * jsval)) :
  (String.length (fields updates) =? 0)%nat = true ↔ updates = [].
Proof.
  split; [|by intros ->].
  destruct updates as [|[k v] l]; [done|]. intros H%Nat.eqb_eq. exfalso.
  assert (fields ((k, v) :: l) = "") as E.
  { by destruct (fields ((k, v) :: l)). }
  unfold fields in E. simpl in E.
  destruct l as [|kv l]; simpl in E.
  - apply append_eq_empty in E as [_ E]. discriminate.
  - apply append_eq_empty in E as [E _].
    apply append_eq_empty in E as [_ E]. discriminate.
Qed.

Lemma fields_key (updates : list (string * jsval)) (k : string) :
  k ∈ updates.*1 → occurs_in (k ++ " = $" ++ k) (updateTask_query updates).
Proof.
  intros Hk. unfold updateTask_query.
  apply occurs_in_append_l, occurs_in_append_r. unfold fields.
  apply occurs_in_concat. apply list_elem_of_fmap in Hk as ([k' v] & -> & Hin).
  apply list_elem_of_fmap. by exists (k', v).
Qed.

(** ** Compiling the SET clause *)

Lemma compile_set_Returned params clause asg :
  compile_set params clause = Returned asg →
  Forall2 (λ tp cv, Task.column_of_name tp.1 = Some cv.1
                    ∧ bind_param params tp.2 = Returned cv.2) clause asg.
Proof.
  revert asg. induction clause as [|[t p] clause IH]; intros asg; simpl.
  { intros [= <-]. constructor. }
  destruct (Task.column_of_name t) as [c|] eqn:Hc; [|done]. simpl.
  destruct (bind_param params p) as [v|] eqn:Hv; [|done]. simpl.
  destruct (compile_set params clause) as [tl|]; [|done]. simpl.
  intros [= <-]. constructor; [done|]. by apply IH.
Qed.

Lemma compile_set_total params clause :
  Forall (λ tp, is_Some (Task.column_of_name tp.1)
                ∧ ∃ v, bind_param params tp.2 = Returned v) clause →
  ∃ asg, compile_set params clause = Returned asg.
Proof.
  induction 1 as [|[t p] clause [[c Hc] [v Hv]] _ [tl IH]]; simpl; [by eexists|].
  simpl in Hc, Hv. rewrite Hc, Hv, IH. simpl. by eexists.
Qed.

Lemma compile_set_columns params clause asg :
  compile_set params clause = Returned asg → Task.name <$> asg.*1 = clause.*1.
Proof.
  intros H%compile_set_Returned. induction H as [|[t p] [c v] ?? [Hc _] _ IH]; [done|].
  simpl in *. f_equal; [|done]. symmetry. by apply column_of_name_Some.
Qed.

(** Every compiled assignment of [updateTask] stores the binding of the
    parameter named after its column. *)
Lemma compile_set_values params updates asg c v :
  compile_set params (updateTask_set_clause updates) = Returned asg →
  (c, v) ∈ asg → bind_param params ("$" ++ Task.name c) = Returned v.
Proof.
  intros H%compile_set_Returned Hin.
  apply list_elem_of_lookup in Hin as [i Hi].
  destruct (Forall2_lookup_r _ _ _ _ _ H Hi) as ([t p] & Ht & Hc & Hv).
  simpl in Hc, Hv. apply column_of_name_Some in Hc. subst t.
  assert (p = "$" ++ Task.name c) as ->; [|done].
  apply list_elem_of_lookup_2 in Ht. unfold updateTask_set_clause in Ht.
  apply elem_of_app in Ht as [Ht|Ht].
  - apply list_elem_of_fmap in Ht as ([k w] & [= -> ->] & _). done.
  - apply list_elem_of_singleton in Ht as [= E ->].
    destruct c; try discriminate E. done.
Qed.

(** ** What [updateTask] stores *)

Lemma name_inj (c c' : Task.column) : Task.name c = Task.name c' → c = c'.
Proof. by destruct c, c'. Qed.

Lemma assigned_is_Some (c : Task.column) (asg : list (Task.column * value)) :
  c ∈ asg.*1 → is_Some (assigned c asg).
Proof.
  induction asg as [|[c' v] asg IH] using rev_ind; [by intros ?%elem_of_nil|].
  rewrite fmap_app, elem_of_app, assigned_snoc. simpl.
  destruct (decide (c' = c)) as [->|Hne]; [by eexists|].
  intros [H|H%list_elem_of_singleton]; [by apply IH | congruence].
Qed.

Lemma bind_param_lookup params name v w :
  params !! name = Some v → bind_param params name = Returned w → bind_value v = Some w.
Proof. unfold bind_param. intros ->. by destruct (bind_value v); intros [= ->]. Qed.

Section UpdateRow.
Context (id now : string) (updates : list (string * jsval)).
Context (asg : list (Task.column * value)).
Hypothesis unique_keys : NoDup updates.*1.
Hypothesis compiled :
  compile_set (updateTask_params id now updates) (updateTask_set_clause updates)
  = Returned asg.

Lemma clause_names : Task.name <$> asg.*1 = (updates.*1 ++ ["updated_at"])%list.
Proof.
  rewrite (compile_set_columns _ _ _ compiled). unfold updateTask_set_clause.
  rewrite fmap_app. f_equal. rewrite <- list_fmap_compose. done.
Qed.

Lemma assigned_column (c : Task.column) :
  c ∈ asg.*1 ↔ Task.name c ∈ updates.*1 ∨ c = Task.Updated_at.
Proof.
  split.
  - intros H. apply (list_elem_of_fmap_2 Task.name) in H.
    rewrite clause_names in H. apply elem_of_app in H as [H|H]; [by left|].
    right. apply list_elem_of_singleton in H. by apply name_inj.
  - intros H.
    assert (Task.name c ∈ Task.name <$> asg.*1) as Hin.
    { rewrite clause_names. apply elem_of_app.
      destruct H as [H| ->]; [by left|]. right. by left. }
    apply list_elem_of_fmap in Hin as (c' & E & Hin). by apply name_inj in E as ->.
Qed.

(** A supplied field takes the stored form of the supplied value. *)
Lemma assign_supplied (c : Task.column) (v : jsval) (r : Task.row) :
  (Task.name c, v) ∈ updates →
  ∃ w, bind_value v = Some w
       ∧ Task.get c (assign asg r) = apply_affinity (Task.type_of c) w.
Proof.
  intros Hin. rewrite assign_get.
  destruct (assigned_is_Some c asg) as [w Hw].
  { apply assigned_column. left. apply list_elem_of_fmap. by exists (Task.name c, v). }
  rewrite Hw. exists w. split; [|done].
  apply assigned_Some in Hw.
  apply (compile_set_values _ _ _ _ _ compiled) in Hw.
  eapply bind_param_lookup; [|done]. by apply updateTask_params_entry.
Qed.

(** [updated_at] takes the clock reading unless the update supplies it. *)
Lemma assign_updated_at (r : Task.row) :
  "updated_at" ∉ updates.*1 → Task.updated_at (assign asg r) = VText now.
Proof.
  intros Hno. change (Task.updated_at (assign asg r))
    with (Task.get Task.Updated_at (assign asg r)).
  rewrite assign_get.
  destruct (assigned_is_Some Task.Updated_at asg) as [w Hw].
  { apply assigned_column. by right. }
  rewrite Hw. apply assigned_Some in Hw.
  apply (compile_set_values _ _ _ _ _ compiled) in Hw.
  apply (bind_param_lookup _ _ (JStr now)) in Hw as [= <-]; [done|].
  by apply updateTask_params_updated_at.
Qed.

(** Every other field is left as it was. *)
Lemma assign_frame (c : Task.column) (r : Task.row) :
  Task.name c ∉ updates.*1 → c ≠ Task.Updated_at →
  Task.get c (assign asg r) = Task.get c r.
Proof.
  intros H1 H2. rewrite assign_get, assigned_None; [done|].
  rewrite assigned_column. tauto.
Qed.

(** Assigning to [id] writes back the key the row was selected by. *)
Lemma assign_id (key : value) (r : Task.row) :
  bind_param (updateTask_params id now updates) "$id" = Returned key →
  text_eq key (Task.id r) = true →
  Task.id (assign asg r) = Task.id r.
Proof.
  intros Hkey Hsel. change (Task.id (assign asg r)) with (Task.get Task.Id (assign asg r)).
  rewrite assign_get. destruct (assigned Task.Id asg) as [w|] eqn:Hw; [|done].
  apply assigned_Some in Hw.
  apply (compile_set_values _ _ _ _ _ compiled) in Hw.
  change ("$" ++ Task.name Task.Id) with "$id" in Hw.
  rewrite Hkey in Hw. injection Hw as <-.
  apply text_eq_true in Hsel as [-> _]. done.
Qed.
End UpdateRow.

Lemma update_tasks_Returned sel f rows rows' :
  update_tasks sel f rows = Returned rows' →
  rows' = map (λ r, if sel r then f r else r) rows
  ∧ ∀ r, r ∈ rows → sel r = true → Task.constraints_ok (f r) = true.
Proof.
  unfold update_tasks. destruct (forallb _ rows) eqn:E; [|done].
  intros [= <-]. split; [done|]. intros r Hr Hsel.
  rewrite forallb_forall in E. apply list_elem_of_In in Hr.
  specialize (E r Hr). by rewrite Hsel in E.
Qed.

Lemma update_tasks_ok sel f rows :
  (∀ r, r ∈ rows → sel r = true → Task.constraints_ok (f r) = true) →
  update_tasks sel f rows = Returned (map (λ r, if sel r then f r else r) rows).
Proof.
  intros H. unfold update_tasks.
  assert (forallb (λ r, negb (sel r) || Task.constraints_ok (f r)) rows = true) as ->; [|done].
  apply forallb_forall. intros r Hr%list_elem_of_In.
  destruct (sel r) eqn:Hsel; [|done]. simpl. by apply H.
Qed.

Lemma updateTask_nonempty now id updates d :
  updates ≠ [] →
  updateTask now id updates d
  = (asg ← compile_set (updateTask_params id now updates) (updateTask_set_clause updates);
     key ← bind_param (updateTask_params id now updates) "$id";
     rows ← update_tasks (λ r, text_eq key (Task.id r)) (assign asg) (tasks d);
     Returned (getTask id (with_tasks rows d), with_tasks rows d)).
Proof.
  intros Hne. unfold updateTask.
  destruct (String.length (fields updates) =? 0)%nat eqn:E; [|done].
  by apply fields_empty in E.
Qed.

Lemma updateTask_Returned now id updates d res d' :
  updates ≠ [] →
  updateTask now id updates d = Returned (res, d') →
  ∃ asg key,
    compile_set (updateTask_params id now updates) (updateTask_set_clause updates)
      = Returned asg
    ∧ bind_param (updateTask_params id now updates) "$id" = Returned key
    ∧ d' = with_tasks (map (λ r, if text_eq key (Task.id r) then assign asg r else r)
                         (tasks d)) d
    ∧ res = getTask id d'
    ∧ ∀ r, r ∈ tasks d → text_eq key (Task.id r) = true →
           Task.constraints_ok (assign asg r) = true.
Proof.
  intros Hne. rewrite updateTask_nonempty by done.
  destruct (compile_set _ _) as [asg|] eqn:Hasg; [|done]. simpl.
  destruct (bind_param _ "$id") as [key|] eqn:Hkey; [|done]. simpl.
  destruct (update_tasks _ _ _) as [rows|] eqn:Hrows; [|done]. simpl.
  intros [= <- <-]. apply update_tasks_Returned in Hrows as [-> Hok].
  by exists asg, key.
Qed.

(** ** Invariants of the store *)

Lemma consistent_db : consistent db.
Proof. split; simpl; constructor. Qed.

Lemma stored_form_eq (raw : Task.row) :
  stored_form raw
  = Task.mk (apply_affinity TEXT (Task.id raw)) (apply_affinity TEXT (Task.title raw))
      (apply_affinity TEXT (Task.description raw)) (apply_affinity TEXT (Task.day raw))
      (apply_affinity INTEGER (Task.priority raw))
      (apply_affinity NUMERIC (Task.completed raw))
      (apply_affinity TEXT (Task.created_at raw))
      (apply_affinity TEXT (Task.updated_at raw)).
Proof. by destruct raw. Qed.

Lemma insert_task_Returned raw rows rows' :
  insert_task raw rows = Returned rows' →
  rows' = (rows ++ [stored_form raw])%list
  ∧ Task.constraints_ok (stored_form raw) = true
  ∧ ∀ r', r' ∈ rows → text_eq (Task.id (stored_form raw)) (Task.id r') = false.
Proof.
  unfold insert_task.
  destruct (existsb _ rows) eqn:Hdup; [done|].
  destruct (Task.constraints_ok (stored_form raw)) eqn:Hok; [|done].
  intros [= <-]. split; [done|]. split; [done|].
  intros r' Hr'. destruct (text_eq _ (Task.id r')) eqn:E; [|done].
  assert (existsb (λ r', text_eq (Task.id (stored_form raw)) (Task.id r')) rows = true)
    as Hex; [|congruence].
  apply existsb_exists. exists r'. split; [by apply list_elem_of_In|done].
Qed.

Lemma createTask_Returned id now task d t d' :
  createTask id now task d = Returned (t, d') →
  ∃ v_title v_description v_day v_priority v_completed rows,
    bind_value (in_title task) = Some v_title
    ∧ bind_value (in_description task) = Some v_description
    ∧ bind_value (in_day task) = Some v_day
    ∧ bind_value (in_priority task) = Some v_priority
    ∧ bind_value (in_completed task) = Some v_completed
    ∧ t = {| new_task := task; new_id := id; new_created_at := now; new_updated_at := now |}
    ∧ insert_task
        (Task.mk (VText id) v_title v_description v_day v_priority v_completed
           (VText now) (VText now)) (tasks d)
      = Returned rows
    ∧ d' = with_tasks rows d.
Proof.
  unfold createTask. simpl.
  destruct (bind_value (in_title task)) as [v1|]; [|done]. simpl.
  destruct (bind_value (in_description task)) as [v2|]; [|done]. simpl.
  destruct (bind_value (in_day task)) as [v3|]; [|done]. simpl.
  destruct (bind_value (in_priority task)) as [v4|]; [|done]. simpl.
  destruct (bind_value (in_completed task)) as [v5|]; [|done]. simpl.
  destruct (insert_task _ (tasks d)) as [rows|] eqn:Hins; [|done]. simpl.
  intros [= <- <-]. by exists v1, v2, v3, v4, v5, rows.
Qed.

Lemma createTask_consistent id now task d t d' :
  consistent d → createTask id now task d = Returned (t, d') → consistent d'.
Proof.
  intros [H1 H2 H3 H4]
    (v1 & v2 & v3 & v4 & v5 & rows & _ & _ & _ & _ & _ & _ & Hins & ->)%createTask_Returned.
  apply insert_task_Returned in Hins as (-> & Hok & Hfresh).
  rewrite stored_form_eq in *. simpl in *.
  split; simpl.
  - rewrite fmap_app. apply NoDup_app. split; [done|]. split; [|apply NoDup_singleton].
    intros v Hv [= ->]%list_elem_of_singleton.
    apply list_elem_of_fmap in Hv as (r' & E & Hr').
    specialize (Hfresh r' Hr'). rewrite text_eq_text in Hfresh.
    by apply bool_decide_eq_false in Hfresh.
  - apply Forall_app. split; [done|]. by constructor.
  - apply Forall_app. split; [done|]. constructor; [by eexists|constructor].
  - done.
Qed.

Lemma update_consistent (sel : Task.row → bool) (f : Task.row → Task.row) (d : Database) :
  consistent d →
  (∀ r, r ∈ tasks d → sel r = true →
        Task.id (f r) = Task.id r ∧ Task.constraints_ok (f r) = true) →
  consistent (with_tasks (map (λ r, if sel r then f r else r) (tasks d)) d).
Proof.
  intros [H1 H2 H3 H4] Hf.
  assert (Task.id <$> map (λ r, if sel r then f r else r) (tasks d) = Task.id <$> tasks d)
    as Hids.
  { change (map ?g ?l) with (g <$> l). rewrite <- list_fmap_compose.
    apply list_fmap_ext. intros i r Hr%list_elem_of_lookup_2. simpl.
    destruct (sel r) eqn:E; [|done]. by apply Hf. }
  split; simpl.
  - by rewrite Hids.
  - apply Forall_fmap, Forall_forall. intros r Hr. simpl.
    destruct (sel r) eqn:E; [by apply Hf|].
    by apply (proj1 (Forall_forall _ _) H2).
  - apply Forall_fmap, Forall_forall. intros r Hr. simpl.
    pose proof (proj1 (Forall_forall _ _) H3 r Hr) as Hid.
    destruct (sel r) eqn:E; [|done]. by rewrite (proj1 (Hf r Hr E)).
  - done.
Qed.

Lemma with_tasks_same (d : Database) : with_tasks (tasks d) d = d.
Proof. by destruct d. Qed.

Lemma updateTask_consistent now id updates d res d' :
  consistent d → updateTask now id updates d = Returned (res, d') → consistent d'.
Proof.
  intros Hd. destruct (decide (updates = [])) as [->|Hne].
  { by intros [= _ <-]. }
  intros (asg & key & Hasg & Hkey & -> & _ & Hok)%updateTask_Returned; [|done].
  apply update_consistent; [done|]. intros r Hr Hsel. split; [|by apply Hok].
  by eapply assign_id.
Qed.

Lemma reorder_from_consistent index ids d rows :
  consistent d → reorder_from index ids (tasks d) = Returned rows →
  consistent (with_tasks rows d).
Proof.
  revert index d. induction ids as [|x ids IH]; intros index d Hd; simpl.
  { intros [= <-]. by rewrite with_tasks_same. }
  destruct (bind_value x) as [key|]; [|done]. simpl.
  destruct (update_tasks _ _ (tasks d)) as [rows'|] eqn:Hup; [|done]. simpl.
  apply update_tasks_Returned in Hup as [-> Hok]. intros Hrest.
  apply (IH (index + 1) (with_tasks _ d)) in Hrest.
  - by destruct d.
  - apply update_consistent; [done|]. intros r Hr Hsel. split; [done|]. by apply Hok.
Qed.

Lemma reorderTasks_consistent day ids d d' :
  consistent d → reorderTasks day ids d = Returned d' → consistent d'.
Proof.
  intros Hd. unfold reorderTasks.
  destruct (reorder_from 0 ids (tasks d)) as [rows|] eqn:E; [|done]. simpl.
  intros [= <-]. by eapply reorder_from_consistent.
Qed.

Lemma filter_fmap_NoDup {A B} (f : A → B) (P : A → Prop) `{!∀ x, Decision (P x)}
    (l : list A) :
  NoDup (f <$> l) → NoDup (f <$> filter P l).
Proof.
  intros Hnd. eapply sublist_NoDup; [exact Hnd|apply fmap_sublist, sublist_filter].
Qed.

Lemma Forall_filter_keep {A} (Q P : A → Prop) `{!∀ x, Decision (P x)} (l : list A) :
  Forall Q l → Forall Q (filter P l).
Proof.
  rewrite !Forall_forall. intros HQ x Hx%list_elem_of_filter. apply HQ, Hx.
Qed.

Lemma deleteTask_consistent id d : consistent d → consistent (deleteTask id d).2.
Proof.
  intros [H1 H2 H3 H4]. split; cbn [deleteTask snd tasks pomodoro_sessions].
  - by apply filter_fmap_NoDup.
  - by apply Forall_filter_keep.
  - by apply Forall_filter_keep.
  - destruct (foreign_keys d); [|done].
    change (map ?g ?l) with (g <$> l). rewrite <- list_fmap_compose.
    erewrite list_fmap_ext; [done|]. intros i s _. simpl.
    by destruct (existsb _ _).
Qed.

Lemma insert_session_Returned fk parents raw rows rows' :
  insert_session fk parents raw rows = Returned rows' →
  ∃ r, rows' = (rows ++ [r])%list
       ∧ PomodoroSession.id r = apply_affinity TEXT (PomodoroSession.id raw)
       ∧ PomodoroSession.completed_at r
         = apply_affinity TEXT (PomodoroSession.completed_at raw)
       ∧ ∀ r', r' ∈ rows → text_eq (PomodoroSession.id r) (PomodoroSession.id r') = false.
Proof.
  unfold insert_session.
  destruct (existsb _ rows) eqn:Hdup; [done|].
  destruct (negb (PomodoroSession.constraints_ok _)); [done|].
  destruct (fk && _); [done|].
  intros [= <-]. eexists. split; [done|]. split; [done|]. split; [done|].
  intros r' Hr'. simpl. destruct (text_eq _ (PomodoroSession.id r')) eqn:E; [|done].
  rewrite <- Hdup. symmetry. apply existsb_exists.
  exists r'. split; [by apply list_elem_of_In|done].
Qed.

Lemma createPomodoroSession_Returned id session d o d' :
  createPomodoroSession id session d = Returned (o, d') →
  ∃ r, d' = with_sessions (pomodoro_sessions d ++ [r])%list d
       ∧ o = {| PomodoroSession.o_session := session; PomodoroSession.o_id := id |}
       ∧ PomodoroSession.id r = VText id
       ∧ (∃ w, bind_value (PomodoroSession.i_completed_at session) = Some w
               ∧ PomodoroSession.completed_at r = apply_affinity TEXT w)
       ∧ ∀ r', r' ∈ pomodoro_sessions d → PomodoroSession.id r' ≠ VText id.
Proof.
  unfold createPomodoroSession.
  destruct (bind_value (PomodoroSession.i_task_id session)) as [v1|]; [|done]. simpl.
  destruct (bind_value (PomodoroSession.i_duration session)) as [v2|]; [|done]. simpl.
  destruct (bind_value (PomodoroSession.i_started_at session)) as [v3|]; [|done]. simpl.
  destruct (bind_value (PomodoroSession.i_completed_at session)) as [v4|]; [|done]. simpl.
  destruct (bind_value (PomodoroSession.i_type session)) as [v5|]; [|done]. simpl.
  destruct (insert_session _ _ _ _) as [rows|] eqn:Hins; [|done]. simpl.
  intros [= <- <-]. apply insert_session_Returned in Hins as (r & -> & Hid & Hc & Hfresh).
  simpl in Hid, Hc. exists r. split; [done|]. split; [done|]. split; [done|].
  split; [by exists v4|].
  intros r' Hr' E. specialize (Hfresh r' Hr'). rewrite Hid, text_eq_text in Hfresh.
  by apply bool_decide_eq_false in Hfresh.
Qed.

Lemma createPomodoroSession_consistent id session d o d' :
  consistent d → createPomodoroSession id session d = Returned (o, d') → consistent d'.
Proof.
  intros [H1 H2 H3 H4] (r & -> & _ & Hid & _ & Hfresh)%createPomodoroSession_Returned.
  split; simpl; try done.
  rewrite fmap_app. apply NoDup_app. split; [done|]. split; [|apply NoDup_singleton].
  intros v Hv [= ->]%list_elem_of_singleton.
  apply list_elem_of_fmap in Hv as (r' & E & Hr').
  apply (Hfresh r' Hr'). congruence.
Qed.

Lemma completePomodoroSession_ids now id d :
  PomodoroSession.id <$> pomodoro_sessions (completePomodoroSession now id d).2
  = PomodoroSession.id <$> pomodoro_sessions d.
Proof.
  simpl. change (map ?g ?l) with (g <$> l). rewrite <- list_fmap_compose.
  apply list_fmap_ext. intros i s _. simpl. by destruct (text_eq _ _).
Qed.

Lemma completePomodoroSession_consistent now id d :
  consistent d → consistent (completePomodoroSession now id d).2.
Proof.
  intros [H1 H2 H3 H4]. split; try done.
  by rewrite completePomodoroSession_ids.
Qed.

Lemma handle_consistent (r : request) (sv : Server) :
  consistent (store sv) → consistent (store (handle r sv).2).
Proof.
  intros H. destruct r as [id now b|now id b|id|b|id now b|now id]; simpl.
  - unfold POST_tasks. destruct (negb _ || negb _); [done|].
    destruct (createTask _ _ _ _) as [[t d]|] eqn:E; [|done].
    simpl. by eapply createTask_consistent.
  - unfold PUT_task. destruct (updateTask _ _ _ _) as [[[t|] d]|] eqn:E; simpl; try done;
      by eapply updateTask_consistent.
  - unfold DELETE_task.
    pose proof (deleteTask_consistent id _ H) as H'.
    destruct (deleteTask id (store sv)) as [[] d]; exact H'.
  - unfold POST_reorder. destruct (b_taskIds b) as [ids|]; [|done].
    destruct (negb _); [done|].
    destruct (reorderTasks _ _ _) as [d|] eqn:E; [|done].
    simpl. by eapply reorderTasks_consistent.
  - unfold POST_sessions. destruct (negb _ || negb _); [done|].
    destruct (createPomodoroSession _ _ _) as [[o d]|] eqn:E; [|done].
    simpl. by eapply createPomodoroSession_consistent.
  - unfold POST_complete.
    pose proof (completePomodoroSession_consistent now id _ H) as H'.
    destruct (completePomodoroSession now id (store sv)) as [[s|] d]; exact H'.
Qed.

Lemma serve_consistent (rs : list request) (sv : Server) :
  consistent (store sv) → consistent (store (serve rs sv)).
Proof.
  revert sv. induction rs as [|r rs IH]; intros sv H; [done|].
  apply IH. by apply handle_consistent.
Qed.

(** No request changes the connection's settings: foreign keys stay as the
    connection was opened. *)
Lemma handle_foreign_keys (r : request) (sv : Server) :
  foreign_keys (store (handle r sv).2) = foreign_keys (store sv).
Proof.
  destruct r as [id now b|now id b|id|b|id now b|now id]; simpl.
  - unfold POST_tasks. destruct (negb _ || negb _); [done|].
    destruct (createTask _ _ _ _) as [[t d]|] eqn:E; [|done].
    apply createTask_Returned in E as (?&?&?&?&?&?&_&_&_&_&_&_&_&->). done.
  - unfold PUT_task. destruct (updateTask _ _ _ _) as [[t d]|] eqn:E.
    2:{ done. }
    assert (foreign_keys d = foreign_keys (store sv)) as Hd.
    { destruct (decide (b = [])) as [->|Hne].
      - by injection E as _ <-.
      - apply updateTask_Returned in E as (?&?&_&_&->&_); done. }
    by destruct t.
  - unfold DELETE_task. cbn -[Z.ltb]. by destruct (negb _).
  - unfold POST_reorder. destruct (b_taskIds b) as [ids|]; [|done].
    destruct (negb _); [done|]. unfold reorderTasks.
    by destruct (reorder_from _ _ _).
  - unfold POST_sessions. destruct (negb _ || negb _); [done|].
    destruct (createPomodoroSession _ _ _) as [[o d]|] eqn:E; [|done].
    apply createPomodoroSession_Returned in E as (?&->&_). done.
  - unfold POST_complete. cbn. by destruct (List.find _ _).
Qed.

Lemma serve_foreign_keys (rs : list request) (sv : Server) :
  foreign_keys (store (serve rs sv)) = foreign_keys (store sv).
Proof.
  revert sv. induction rs as [|r rs IH]; intros sv; [done|].
  simpl. rewrite IH. apply handle_foreign_keys.
Qed.

(** ** Deleting a task that sessions refer to *)

Lemma deleteTask_session_ids id d :
  PomodoroSession.id <$> pomodoro_sessions (deleteTask id d).2
  = PomodoroSession.id <$> pomodoro_sessions d.
Proof.
  cbn [deleteTask snd pomodoro_sessions]. destruct (foreign_keys d); [|done].
  change (map ?g ?l) with (g <$> l). rewrite <- list_fmap_compose.
  apply list_fmap_ext. intros i s _. simpl. by destruct (existsb _ _).
Qed.

Lemma deleteTask_sessions_unenforced id d :
  foreign_keys d = false →
  pomodoro_sessions (deleteTask id d).2 = pomodoro_sessions d.
Proof. intros H. cbn [deleteTask snd pomodoro_sessions]. by rewrite H. Qed.

(** With foreign keys enforced the ON DELETE SET NULL action runs: a session
    that refers to the deleted task stays, with [task_id] cleared. *)
Lemma deleteTask_sessions_enforced id d s :
  foreign_keys d = true → stored id d →
  s ∈ pomodoro_sessions d → PomodoroSession.task_id s = VText id →
  PomodoroSession.set_task_id VNull s ∈ pomodoro_sessions (deleteTask id d).2.
Proof.
  intros Hfk (r & Hr & Hid) Hs Href. cbn [deleteTask snd pomodoro_sessions]. rewrite Hfk.
  change (map ?g ?l) with (g <$> l). apply list_elem_of_fmap. exists s. split; [|done].
  assert (existsb (λ t, text_eq (Task.id t) (PomodoroSession.task_id s))
            (filter (λ r, text_eq (VText id) (Task.id r)) (tasks d)) = true) as ->; [|done].
  apply existsb_exists. exists r. split.
  - apply list_elem_of_In, list_elem_of_filter. split; [|done].
    rewrite text_eq_text, Hid. by rewrite bool_decide_eq_true_2.
  - rewrite Hid, Href, text_eq_text. by rewrite bool_decide_eq_true_2.
Qed.

(** C2, as the code behaves. The store is opened with SQLite's defaults and
    [init] never turns foreign keys on, so on every store the server can
    reach, deleting a task leaves the sessions table as it was: no session
    row is deleted, and a session that referred to the task still carries
    its identifier in [task_id] instead of NULL. In the run
    [referenced_task_run] the task row is gone and the session row keeps
    [task_id = "t1"]. *)
Theorem deleteTask_keeps_task_id :
  (∀ (rs : list request) (id : string),
     pomodoro_sessions (deleteTask id (store (serve rs start))).2
     = pomodoro_sessions (store (serve rs start)))
  ∧ tasks (store (serve referenced_task_run start)) = []
  ∧ pomodoro_sessions (store (serve referenced_task_run start))
    = [ PomodoroSession.mk (VText "s1") (VText "t1") (VInt 1500)
          (VText "2025-01-06T09:05:00.000Z") VNull (VText "work") ].
Proof.
  split; [|split].
  - intros rs id. apply deleteTask_sessions_unenforced.
    by rewrite serve_foreign_keys.
  - vm_compute. reflexivity.
  - vm_compute. reflexivity.
Qed.

(** ** Creating a task *)

Lemma truthy_JStr (s : string) : s ≠ "" → truthy (JStr s) = true.
Proof. intros H. simpl. by apply negb_true_iff, String.eqb_neq. Qed.

Lemma existsb_fresh (id : string) (d : Database) :
  ¬ stored id d → existsb (λ r', text_eq (VText id) (Task.id r')) (tasks d) = false.
Proof.
  intros Hno. destruct (existsb _ _) eqn:E; [|done]. exfalso. apply Hno.
  apply existsb_exists in E as (r & Hr%list_elem_of_In & Hsel).
  rewrite text_eq_text in Hsel. apply bool_decide_eq_true in Hsel. by exists r.
Qed.

Lemma insert_task_fresh id v_title v_description v_day now (d : Database) :
  ¬ stored id d →
  insert_task
    (Task.mk (VText id) (VText v_title) v_description (VText v_day) (VInt 1) (VInt 0)
       (VText now) (VText now)) (tasks d)
  = Returned (tasks d ++
      [Task.mk (VText id) (VText v_title) (apply_affinity TEXT v_description) (VText v_day)
         (VInt 1) (VInt 0) (VText now) (VText now)])%list.
Proof.
  intros Hno. unfold insert_task. rewrite stored_form_eq. simpl.
  by rewrite existsb_fresh.
Qed.

Lemma POST_tasks_refused (id now : string) (b : CreateBody) (sv : Server) :
  truthy (b_title b) = false ∨ truthy (b_day b) = false →
  POST_tasks id now b sv
  = (mkResponse 400 (reply_error "Title and day are required"), sv).
Proof.
  intros H. unfold POST_tasks.
  assert (negb (truthy (b_title b)) || negb (truthy (b_day b)) = true) as ->; [|done].
  destruct H as [-> | ->]; [done|]. apply orb_true_r.
Qed.

Lemma POST_tasks_created (id now : string) (b : CreateBody) (sv : Server)
    (title day : string) :
  b_title b = JStr title → title ≠ "" →
  b_day b = JStr day → day ≠ "" →
  b_description b ≠ JObject →
  ¬ stored id (store sv) →
  let task :=
    {| new_task :=
         {| in_title := JStr title; in_description := b_description b;
            in_day := JStr day; in_priority := JNum 1; in_completed := JBool false |};
       new_id := id; new_created_at := now; new_updated_at := now |} in
  ∃ v_description,
    bind_value (b_description b) = Some v_description
    ∧ POST_tasks id now b sv
      = (mkResponse 200 (reply_task task),
         {| store :=
              with_tasks
                (tasks (store sv) ++
                   [Task.mk (VText id) (VText title)
                      (apply_affinity TEXT v_description) (VText day)
                      (VInt 1) (VInt 0) (VText now) (VText now)])%list
                (store sv);
            published := (published sv ++ [("tasks", task_created task)])%list |}).
Proof.
  intros Ht Htne Hd Hdne Hdesc Hfresh task.
  destruct (bind_value (b_description b)) as [v|] eqn:Hv.
  2:{ by destruct (b_description b). }
  exists v. split; [done|].
  unfold POST_tasks. rewrite Ht, Hd, !truthy_JStr by done. simpl.
  unfold createTask. simpl. rewrite Hv. simpl.
  rewrite insert_task_fresh by done. done.
Qed.

(** C4, as the code behaves. POST /api/tasks answers 400 and leaves the
    store and the subscribers untouched whenever the title or the day is
    missing or empty. For every non-empty title and every non-empty day,
    whether or not the day is one of the seven weekday tokens, with a
    description the driver can bind and a fresh identifier, it stores the
    row with priority 1 and not completed, publishes [task_created] and
    answers 200 with the new task. *)
Theorem POST_tasks_validation (id now : string) (b : CreateBody) (sv : Server) :
  (truthy (b_title b) = false ∨ truthy (b_day b) = false →
   POST_tasks id now b sv
   = (mkResponse 400 (reply_error "Title and day are required"), sv))
  ∧ (∀ title day : string,
       b_title b = JStr title → title ≠ "" →
       b_day b = JStr day → day ≠ "" →
       b_description b ≠ JObject →
       ¬ stored id (store sv) →
       let task :=
         {| new_task :=
              {| in_title := JStr title; in_description := b_description b;
                 in_day := JStr day; in_priority := JNum 1; in_completed := JBool false |};
            new_id := id; new_created_at := now; new_updated_at := now |} in
       ∃ v_description,
         bind_value (b_description b) = Some v_description
         ∧ POST_tasks id now b sv
           = (mkResponse 200 (reply_task task),
              {| store :=
                   with_tasks
                     (tasks (store sv) ++
                        [Task.mk (VText id) (VText title)
                           (apply_affinity TEXT v_description) (VText day)
                           (VInt 1) (VInt 0) (VText now) (VText now)])%list
                     (store sv);
                 published := (published sv ++ [("tasks", task_created task)])%list |})).
Proof.
  split.
  - apply POST_tasks_refused.
  - intros title day. apply POST_tasks_created.
Qed.

Lemma POST_tasks_validation_witness :
  truthy (JStr "") = false
  ∧ POST_tasks "t1" "2025-01-06T09:00:00.000Z"
      {| b_title := JStr ""; b_description := JUndefined; b_day := JStr "monday" |} start
    = (mkResponse 400 (reply_error "Title and day are required"), start).
Proof.
  split; [reflexivity|].
  apply (POST_tasks_validation "t1" "2025-01-06T09:00:00.000Z"
           {| b_title := JStr ""; b_description := JUndefined; b_day := JStr "monday" |}
           start).
  left. reflexivity.
Defined.

(** C4 fails as stated: a day that is no weekday token is accepted, the
    task row is created and the answer is 200. *)
Lemma POST_tasks_unrecognized_day :
  ("someday" ∉ DAYS)
  ∧ (let '(response, sv) :=
       POST_tasks "t1" "2025-01-06T09:00:00.000Z"
         {| b_title := JStr "Write spec"; b_description := JUndefined;
            b_day := JStr "someday" |} start in
     status response = 200
     ∧ tasks (store sv)
       = [Task.mk (VText "t1") (VText "Write spec") VNull (VText "someday") (VInt 1)
            (VInt 0) (VText "2025-01-06T09:00:00.000Z") (VText "2025-01-06T09:00:00.000Z")]).
Proof.
  split.
  - apply (bool_decide_unpack _). vm_compute. exact I.
  - vm_compute. split; reflexivity.
Qed.

(** ** Updating a task *)

Lemma constraints_ok_iff (r : Task.row) :
  Task.constraints_ok r = true
  ↔ ∀ c, Task.not_null c = true → Task.get c r ≠ VNull.
Proof.
  unfold Task.constraints_ok. rewrite forallb_forall. split.
  - intros H c Hc E.
    assert (In c Task.columns) as Hin by (destruct c; simpl; tauto).
    specialize (H c Hin). rewrite Hc, E in H. discriminate H.
  - intros H c _. destruct (Task.not_null c) eqn:Hc; [|done]. simpl.
    rewrite bool_decide_eq_false_2; [done|]. by apply H.
Qed.

Lemma find_map_preserved {A} (sel : A → bool) (g : A → A) (l : list A) :
  (∀ x, x ∈ l → sel (g x) = sel x) →
  List.find sel (map g l) = g <$> List.find sel l.
Proof.
  induction l as [|x l IH]; intros H; [done|]. simpl.
  rewrite (H x) by left. destruct (sel x); [done|].
  apply IH. intros y Hy. apply H. by right.
Qed.

Lemma getTask_stored (id : string) (d : Database) :
  stored id d → ∃ r, getTask id d = Some r ∧ r ∈ tasks d ∧ Task.id r = VText id.
Proof.
  intros (r & Hr & Hid). unfold getTask.
  destruct (List.find _ (tasks d)) as [r0|] eqn:E.
  - apply find_some in E as [Hin Hsel]. exists r0. split; [done|].
    split; [by apply list_elem_of_In|].
    rewrite text_eq_text in Hsel. by apply bool_decide_eq_true in Hsel.
  - exfalso. pose proof (find_none _ _ E r) as Hnone. simpl in Hnone.
    rewrite text_eq_text, Hid, bool_decide_eq_true_2 in Hnone by done.
    apply Bool.diff_true_false, Hnone. by apply list_elem_of_In.
Qed.

Lemma getTask_not_stored (id : string) (d : Database) :
  ¬ stored id d → getTask id d = None.
Proof.
  intros Hno. unfold getTask. destruct (List.find _ (tasks d)) as [r|] eqn:E; [|done].
  exfalso. apply Hno. apply find_some in E as [Hin Hsel]. exists r.
  split; [by apply list_elem_of_In|].
  rewrite text_eq_text in Hsel. by apply bool_decide_eq_true in Hsel.
Qed.

Section UpdateOk.
Context (now id : string) (updates : list (string * jsval)) (d : Database).
Hypothesis nonempty : updates ≠ [].
Hypothesis unique_keys : NoDup updates.*1.
Hypothesis no_id : "id" ∉ updates.*1.
Hypothesis accepted : Forall acceptable updates.
Hypothesis rows_ok : Forall (λ r, Task.constraints_ok r = true) (tasks d).

Let params := updateTask_params id now updates.

Lemma updated_at_binds : ∃ w, bind_param params "$updated_at" = Returned w ∧ w ≠ VNull.
Proof.
  unfold bind_param. destruct (decide ("updated_at" ∈ updates.*1)) as [Hin|Hno].
  - apply list_elem_of_fmap in Hin as ([k v] & Hk & Hin). simpl in Hk. subst k.
    change "$updated_at" with ("$" ++ "updated_at").
    unfold params. rewrite (updateTask_params_entry _ _ _ _ v) by done.
    destruct (proj1 (Forall_forall _ _) accepted _ Hin) as (c & w & Hc & Hw & Hnn).
    simpl in Hc, Hw. rewrite Hw. exists w. split; [done|].
    apply Hnn. injection Hc as <-. done.
  - unfold params. rewrite updateTask_params_updated_at by done. by eexists.
Qed.

Lemma compile_ok :
  ∃ asg, compile_set params (updateTask_set_clause updates) = Returned asg.
Proof.
  apply compile_set_total. unfold updateTask_set_clause.
  apply Forall_app. split.
  - apply Forall_fmap, Forall_forall. intros [k v] Hin. simpl.
    destruct (proj1 (Forall_forall _ _) accepted _ Hin) as (c & w & Hc & Hw & _).
    simpl in Hc, Hw. split; [by eexists|]. exists w.
    unfold bind_param, params. rewrite (updateTask_params_entry _ _ _ _ v) by done.
    by rewrite Hw.
  - constructor; [|constructor]. simpl. split; [by eexists|].
    destruct updated_at_binds as (w & Hw & _). by exists w.
Qed.

Lemma key_binds : bind_param params "$id" = Returned (VText id).
Proof. unfold bind_param, params. by rewrite updateTask_params_id. Qed.

Lemma assigned_not_null asg c w :
  compile_set params (updateTask_set_clause updates) = Returned asg →
  (c, w) ∈ asg → Task.not_null c = true → w ≠ VNull.
Proof.
  intros Hasg Hin Hnn.
  pose proof (compile_set_values _ _ _ _ _ Hasg Hin) as Hw.
  assert (c ∈ asg.*1) as Hc.
  { apply list_elem_of_fmap. by exists (c, w). }
  apply (assigned_column id now updates asg Hasg) in Hc as [Hk| ->].
  - apply list_elem_of_fmap in Hk as ([k v] & Hk & Hkv). simpl in Hk. subst k.
    destruct (proj1 (Forall_forall _ _) accepted _ Hkv) as (c' & w' & Hc' & Hw' & Hok).
    simpl in Hc', Hw'. rewrite column_of_name_name in Hc'. injection Hc' as <-.
    apply (bind_param_lookup _ _ v) in Hw; [|by apply updateTask_params_entry].
    rewrite Hw' in Hw. injection Hw as <-. by apply Hok.
  - destruct updated_at_binds as (w' & Hw' & Hnull).
    change ("$" ++ Task.name Task.Updated_at) with "$updated_at" in Hw.
    unfold params in Hw, Hw'. rewrite Hw' in Hw. by injection Hw as <-.
Qed.

(** An accepted update never throws. *)
Lemma updateTask_ok :
  ∃ asg,
    compile_set params (updateTask_set_clause updates) = Returned asg
    ∧ let d' := with_tasks
                  (map (λ r, if text_eq (VText id) (Task.id r) then assign asg r else r)
                     (tasks d)) d in
      updateTask now id updates d = Returned (getTask id d', d').
Proof.
  destruct compile_ok as [asg Hasg]. exists asg. split; [done|]. simpl.
  rewrite updateTask_nonempty by done. fold params. rewrite Hasg. simpl.
  rewrite key_binds. simpl. rewrite update_tasks_ok; [done|].
  intros r Hr _. apply constraints_ok_iff. intros c Hc.
  rewrite assign_get. destruct (assigned c asg) as [w|] eqn:Hw.
  - rewrite apply_affinity_null. apply assigned_Some in Hw.
    by eapply assigned_not_null.
  - pose proof (proj1 (Forall_forall _ _) rows_ok r Hr) as Hok. simpl in Hok.
    by apply (proj1 (constraints_ok_iff r) Hok).
Qed.
End UpdateOk.

Section UpdateResult.
Context (now id : string) (updates : list (string * jsval)) (d : Database).
Hypothesis nonempty : updates ≠ [].
Hypothesis unique_keys : NoDup updates.*1.
Hypothesis no_id : "id" ∉ updates.*1.
Hypothesis accepted : Forall acceptable updates.
Hypothesis rows_ok : Forall (λ r, Task.constraints_ok r = true) (tasks d).

(** On a stored task an accepted update returns the merged row. *)
Lemma updateTask_stored :
  stored id d →
  ∃ asg r,
    compile_set (updateTask_params id now updates) (updateTask_set_clause updates)
      = Returned asg
    ∧ getTask id d = Some r
    ∧ updateTask now id updates d
      = Returned
          (Some (assign asg r),
           with_tasks
             (map (λ r, if text_eq (VText id) (Task.id r) then assign asg r else r)
                (tasks d)) d).
Proof.
  intros Hst.
  destruct (updateTask_ok now id updates d nonempty unique_keys no_id accepted rows_ok)
    as (asg & Hasg & Hup).
  destruct (getTask_stored id d Hst) as (r & Hget & Hr & Hid).
  exists asg, r. split; [done|]. split; [done|]. simpl in Hup. rewrite Hup.
  f_equal. f_equal. unfold getTask in *. simpl.
  rewrite find_map_preserved, Hget.
  - simpl. rewrite text_eq_text, Hid. by rewrite bool_decide_eq_true_2.
  - intros x Hx. destruct (text_eq (VText id) (Task.id x)) eqn:E; [|done].
    change (Task.id (assign asg x)) with (Task.get Task.Id (assign asg x)).
    rewrite (assign_frame id now updates asg Hasg); [done| |done].
    exact no_id.
Qed.

(** On an identifier that is not stored it changes nothing and returns
    [null]. *)
Lemma updateTask_not_stored :
  ¬ stored id d → updateTask now id updates d = Returned (None, d).
Proof.
  intros Hno.
  destruct (updateTask_ok now id updates d nonempty unique_keys no_id accepted rows_ok)
    as (asg & Hasg & Hup).
  simpl in Hup. rewrite Hup. rewrite map_unchanged.
  - by rewrite with_tasks_same, getTask_not_stored.
  - intros r Hr. rewrite text_eq_text, bool_decide_eq_false_2; [done|].
    intros E. apply Hno. by exists r.
Qed.
End UpdateResult.

Lemma PUT_task_status (now id : string) (b : list (string * jsval)) (sv : Server) :
  status (PUT_task now id b sv).1 = 200
  ∨ status (PUT_task now id b sv).1 = 404
  ∨ status (PUT_task now id b sv).1 = 500.
Proof.
  unfold PUT_task. destruct (updateTask now id b (store sv)) as [[[t|] d]|]; simpl; auto.
Qed.

Lemma acceptable_empty_title : Forall acceptable [("title", JStr "")].
Proof.
  constructor; [|constructor]. exists Task.Title, (VText ""). by repeat split.
Qed.

(** C5, as the code behaves. An update that sets the title of a stored task
    to the empty string is not refused: the row keeps its identifier, takes
    the empty title and the clock reading as [updated_at], and PUT answers
    200 and publishes [task_updated] with that row. No PUT is answered with
    400, whatever its body. *)
Theorem PUT_task_empty_title :
  (∀ (now id : string) (sv : Server),
     consistent (store sv) → stored id (store sv) →
     ∃ task d',
       updateTask now id [("title", JStr "")] (store sv) = Returned (Some task, d')
       ∧ task ∈ tasks d'
       ∧ Task.id task = VText id
       ∧ Task.title task = VText ""
       ∧ Task.updated_at task = VText now
       ∧ PUT_task now id [("title", JStr "")] sv
         = (mkResponse 200 (reply_task_row task),
            publish "tasks" (task_updated task) (with_store d' sv)))
  ∧ (∀ (now id : string) (b : list (string * jsval)) (sv : Server),
     status (PUT_task now id b sv).1 ≠ 400).
Proof.
  split.
  - intros now id sv Hcons Hst.
    assert (NoDup [("title", JStr "")].*1) as Hnd by (apply NoDup_singleton).
    assert ("id" ∉ [("title", JStr "")].*1) as Hid.
    { intros H%list_elem_of_singleton. discriminate H. }
    destruct (updateTask_stored now id [("title", JStr "")] (store sv)
                ltac:(done) Hnd Hid acceptable_empty_title (task_constraints _ Hcons) Hst)
      as (asg & r & Hasg & Hget & Hup).
    destruct (getTask_stored id _ Hst) as (r' & Hget' & Hr & Hrid).
    rewrite Hget in Hget'. injection Hget' as <-.
    eexists _, _. split; [exact Hup|]. split; [|split; [|split; [|split]]].
    + simpl. change (map ?g ?l) with (g <$> l). apply list_elem_of_fmap.
      exists r. split; [|done].
      rewrite text_eq_text, Hrid. by rewrite bool_decide_eq_true_2.
    + change (Task.id (assign asg r)) with (Task.get Task.Id (assign asg r)).
      rewrite (assign_frame id now _ asg Hasg); [done|exact Hid|done].
    + destruct (assign_supplied id now _ asg Hnd Hasg Task.Title (JStr "") r)
        as (w & [= <-] & Hw); [by left|]. exact Hw.
    + apply (assign_updated_at id now _ asg Hasg).
      intros H%list_elem_of_singleton. discriminate H.
    + unfold PUT_task. by rewrite Hup.
  - intros now id b sv. destruct (PUT_task_status now id b sv) as [-> | [-> | ->]]; done.
Qed.

Lemma PUT_task_empty_title_witness :
  ∃ task d',
    updateTask "2025-01-06T10:00:00.000Z" "t1" [("title", JStr "")]
      (store (serve [Create "t1" "2025-01-06T09:00:00.000Z"
                       {| b_title := JStr "Write spec"; b_description := JUndefined;
                          b_day := JStr "monday" |}] start))
    = Returned (Some task, d')
    ∧ Task.title task = VText "".
Proof.
  destruct (proj1 PUT_task_empty_title "2025-01-06T10:00:00.000Z" "t1"
              (serve [Create "t1" "2025-01-06T09:00:00.000Z"
                        {| b_title := JStr "Write spec"; b_description := JUndefined;
                           b_day := JStr "monday" |}] start))
    as (task & d' & H1 & _ & _ & H2 & _).
  - apply serve_consistent, consistent_db.
  - eexists. split; [by left|]. reflexivity.
  - exists task, d'. split; [exact H1|exact H2].
Defined.

(** C5 fails as stated: the update to an empty title is answered with 200
    and the stored title becomes empty. *)
Lemma PUT_task_empty_title_accepted :
  let sv := serve [Create "t1" "2025-01-06T09:00:00.000Z"
                     {| b_title := JStr "Write spec"; b_description := JUndefined;
                        b_day := JStr "monday" |}] start in
  let '(response, sv') := PUT_task "2025-01-06T10:00:00.000Z" "t1" [("title", JStr "")] sv in
  status response = 200
  ∧ status response ≠ 400
  ∧ Task.title <$> tasks (store sv) = [VText "Write spec"]
  ∧ Task.title <$> tasks (store sv') = [VText ""].
Proof. vm_compute. repeat split; done. Qed.

Lemma mutable_no_id (updates : list (string * jsval)) :
  Forall (λ kv, kv.1 ∈ mutable_fields) updates → "id" ∉ updates.*1.
Proof.
  intros H Hin. apply list_elem_of_fmap in Hin as ([k v] & Hk & Hin). simpl in Hk. subst k.
  apply (proj1 (Forall_forall _ _) H) in Hin. simpl in Hin.
  apply list_elem_of_In in Hin. simpl in Hin.
  repeat (destruct Hin as [Hin|Hin]; [discriminate Hin|]). done.
Qed.

(** C3, as the code behaves. For a set of mutable fields:
    - an empty set changes nothing at all, [updated_at] included, and
      returns the stored task;
    - a non-empty set, when the statement does not throw, leaves the
      sessions and every other task row as they were and, in the row of
      [id], gives each supplied field the supplied value (for a value that
      is NULL, a boolean, an integer of 32 bits, or text for a text field),
      leaves every field that is not supplied (other than [updated_at])
      unchanged, and sets [updated_at] to the clock reading unless the set
      itself supplies it; the returned task is the row read back;
    - a non-empty set whose values bind and put no NULL into a NOT NULL
      column does not throw. *)
Theorem updateTask_merges (now id : string) (updates : list (string * jsval))
    (d : Database) :
  NoDup updates.*1 →
  Forall (λ kv, kv.1 ∈ mutable_fields) updates →
  (updates = [] → updateTask now id updates d = Returned (getTask id d, d))
  ∧ (updates ≠ [] →
     ∀ res d', updateTask now id updates d = Returned (res, d') →
       res = getTask id d'
       ∧ pomodoro_sessions d' = pomodoro_sessions d
       ∧ Forall2 (merged now id updates) (tasks d) (tasks d'))
  ∧ (updates ≠ [] → Forall acceptable updates →
     Forall (λ r, Task.constraints_ok r = true) (tasks d) →
     ∃ res d', updateTask now id updates d = Returned (res, d')).
Proof.
  intros Hnd Hmut. pose proof (mutable_no_id updates Hmut) as Hid.
  split; [by intros ->|]. split.
  - intros Hne res d' Hup.
    apply updateTask_Returned in Hup as (asg & key & Hasg & Hkey & -> & -> & _); [|done].
    unfold bind_param in Hkey. rewrite updateTask_params_id in Hkey by done.
    injection Hkey as <-.
    split; [done|]. split; [done|]. simpl.
    change (map ?g ?l) with (g <$> l). apply Forall2_fmap_r, Forall_Forall2_diag.
    apply Forall_forall. intros r _. unfold compose, merged. rewrite text_eq_text.
    destruct (decide (Task.id r = VText id)) as [E|E].
    + rewrite bool_decide_eq_true_2 by done. split; [|split].
      * intros c Hc Hc'. by apply (assign_frame id now updates asg Hasg).
      * intros c v Hin _. by apply (assign_supplied id now updates asg Hnd Hasg).
      * apply (assign_updated_at id now updates asg Hasg).
    + by rewrite bool_decide_eq_false_2.
  - intros Hne Hacc Hrows.
    destruct (updateTask_ok now id updates d Hne Hnd Hid Hacc Hrows) as (asg & _ & Hup).
    eexists _, _. exact Hup.
Qed.

Lemma updateTask_merges_witness :
  ∃ res d',
    updateTask "2025-01-06T10:00:00.000Z" "t1" [("completed", JBool true)]
      (store (serve [Create "t1" "2025-01-06T09:00:00.000Z"
                       {| b_title := JStr "Write spec"; b_description := JUndefined;
                          b_day := JStr "monday" |}] start))
    = Returned (res, d').
Proof.
  apply (updateTask_merges "2025-01-06T10:00:00.000Z" "t1" [("completed", JBool true)]).
  - apply NoDup_singleton.
  - constructor; [|constructor]. simpl. apply list_elem_of_In. simpl. tauto.
  - done.
  - constructor; [|constructor]. exists Task.Completed, (VInt 1). by repeat split.
  - apply task_constraints, serve_consistent, consistent_db.
Defined.

(** C3 fails as stated: with an empty set of fields [updated_at] is not
    refreshed; the row is returned as it is stored. *)
Lemma updateTask_empty_keeps_updated_at :
  let d := store (serve [Create "t1" "2025-01-06T09:00:00.000Z"
                           {| b_title := JStr "Write spec"; b_description := JUndefined;
                              b_day := JStr "monday" |}] start) in
  ∃ task,
    updateTask "2025-01-06T10:00:00.000Z" "t1" [] d = Returned (Some task, d)
    ∧ Task.updated_at task = VText "2025-01-06T09:00:00.000Z"
    ∧ Task.updated_at task ≠ VText "2025-01-06T10:00:00.000Z".
Proof. vm_compute. eexists. split; [reflexivity|]. split; [reflexivity|discriminate]. Qed.

(** ** Publishing after a mutation *)



(** A PUT on an identifier that is not stored never answers 200, whatever
    the body: an update writes back the identifier it selects by, so no row
    with the requested identifier can appear. *)
Lemma updateTask_ids now id updates d res d' :
  updateTask now id updates d = Returned (res, d') →
  Task.id <$> tasks d' = Task.id <$> tasks d.
Proof.
  destruct (decide (updates = [])) as [->|Hne]; [by intros [= _ <-]|].
  intros (asg & key & Hasg & Hkey & -> & _ & _)%updateTask_Returned; [|done].
  simpl. change (map ?g ?l) with (g <$> l). rewrite <- list_fmap_compose.
  apply list_fmap_ext. intros i r _. simpl.
  destruct (text_eq key (Task.id r)) eqn:E; [|done]. by eapply assign_id.
Qed.

Lemma stored_ids (id : string) (d : Database) :
  stored id d ↔ VText id ∈ Task.id <$> tasks d.
Proof.
  unfold stored. rewrite list_elem_of_fmap. split.
  - intros (r & Hr & E). by exists r.
  - intros (r & E & Hr). by exists r.
Qed.



Lemma updateTask_reads_back now id updates d res d' :
  updateTask now id updates d = Returned (res, d') → res = getTask id d'.
Proof.
  destruct (decide (updates = [])) as [->|Hne]; [by intros [= <- <-]|].
  by intros (asg & key & _ & _ & _ & -> & _)%updateTask_Returned.
Qed.





(** ** Keys of an update reach the statement unchecked *)

Lemma concat_snoc (sep x : string) (l : list string) :
  l ≠ [] → String.concat sep (l ++ [x])%list = String.concat sep l ++ sep ++ x.
Proof.
  induction l as [|y l IH]; [done|]. intros _.
  destruct l as [|z l]; [done|].
  change (String.concat sep ((y :: z :: l) ++ [x])%list)
    with (y ++ sep ++ String.concat sep ((z :: l) ++ [x])%list).
  rewrite IH by done.
  change (String.concat sep (y :: z :: l)) with (y ++ sep ++ String.concat sep (z :: l)).
  by rewrite !append_assoc.
Qed.

(** The statement text is the rendering of the SET clause that is
    executed. *)
Lemma updateTask_query_clause (updates : list (string * jsval)) :
  updates ≠ [] →
  updateTask_query updates
  = "UPDATE tasks SET "
    ++ String.concat ", " (map (λ tp, tp.1 ++ " = " ++ tp.2) (updateTask_set_clause updates))
    ++ " WHERE id = $id".
Proof.
  intros Hne. unfold updateTask_query, updateTask_set_clause, fields.
  rewrite map_app, map_map. change (map ?f [?x]) with [f x].
  rewrite concat_snoc by (by destruct updates).
  rewrite !append_assoc. reflexivity.
Qed.

Lemma acceptable_created_at (s : string) : Forall acceptable [("created_at", JStr s)].
Proof.
  constructor; [|constructor]. exists Task.Created_at, (VText s). by repeat split.
Qed.

(** C10. Every key of the update object appears verbatim, as
    [key = $key], in the text of the UPDATE statement, and that text is the
    SET clause the store executes. A key that is not a mutable task field is
    never answered with a validation error (no PUT answers 400): the key
    [colour], which is no column, makes the statement fail at the store
    (PUT answers 500), and the key [created_at], which the update type
    excludes, overwrites that column of the stored task. *)
Theorem updateTask_keys_unchecked :
  (∀ (updates : list (string * jsval)) (k : string),
     k ∈ updates.*1 → occurs_in (k ++ " = $" ++ k) (updateTask_query updates))
  ∧ (∀ updates : list (string * jsval),
     updates ≠ [] →
     updateTask_query updates
     = "UPDATE tasks SET "
       ++ String.concat ", "
            (map (λ tp, tp.1 ++ " = " ++ tp.2) (updateTask_set_clause updates))
       ++ " WHERE id = $id")
  ∧ (∀ (now id : string) (b : list (string * jsval)) (sv : Server),
     status (PUT_task now id b sv).1 ≠ 400)
  ∧ ("colour" ∉ mutable_fields)
  ∧ (∀ (now id : string) (v : jsval) (sv : Server),
     updateTask now id [("colour", v)] (store sv) = Thrown
     ∧ PUT_task now id [("colour", v)] sv
       = (mkResponse 500 (reply_error "Failed to update task"), sv))
  ∧ ("created_at" ∉ mutable_fields)
  ∧ (∀ (now id s : string) (d : Database),
     consistent d → stored id d →
     ∃ task d',
       updateTask now id [("created_at", JStr s)] d = Returned (Some task, d')
       ∧ task ∈ tasks d'
       ∧ Task.id task = VText id
       ∧ Task.created_at task = VText s).
Proof.
  split; [exact fields_key|]. split; [exact updateTask_query_clause|].
  split; [|split; [|split; [|split]]].
  - intros now id b sv. destruct (PUT_task_status now id b sv) as [-> | [-> | ->]]; done.
  - apply (bool_decide_unpack _). vm_compute. exact I.
  - intros now id v sv.
    assert (updateTask now id [("colour", v)] (store sv) = Thrown) as H.
    { rewrite updateTask_nonempty by done. reflexivity. }
    split; [done|]. unfold PUT_task. by rewrite H.
  - apply (bool_decide_unpack _). vm_compute. exact I.
  - intros now id s d Hcons Hst.
    assert (NoDup [("created_at", JStr s)].*1) as Hnd by (apply NoDup_singleton).
    assert ("id" ∉ [("created_at", JStr s)].*1) as Hid.
    { intros H%list_elem_of_singleton. discriminate H. }
    destruct (updateTask_stored now id [("created_at", JStr s)] d
                ltac:(done) Hnd Hid (acceptable_created_at s) (task_constraints _ Hcons) Hst)
      as (asg & r & Hasg & Hget & Hup).
    destruct (getTask_stored id _ Hst) as (r' & Hget' & Hr & Hrid).
    rewrite Hget in Hget'. injection Hget' as <-.
    eexists _, _. split; [exact Hup|]. split; [|split].
    + simpl. change (map ?g ?l) with (g <$> l). apply list_elem_of_fmap.
      exists r. split; [|done].
      rewrite text_eq_text, Hrid. by rewrite bool_decide_eq_true_2.
    + change (Task.id (assign asg r)) with (Task.get Task.Id (assign asg r)).
      rewrite (assign_frame id now _ asg Hasg); [done|exact Hid|done].
    + destruct (assign_supplied id now _ asg Hnd Hasg Task.Created_at (JStr s) r)
        as (w & [= <-] & Hw); [by left|]. exact Hw.
Qed.

Lemma updateTask_keys_unchecked_witness :
  ∃ task d',
    updateTask "2025-01-06T10:00:00.000Z" "t1" [("created_at", JStr "1999-12-31")]
      (store (serve [Create "t1" "2025-01-06T09:00:00.000Z"
                       {| b_title := JStr "Write spec"; b_description := JUndefined;
                          b_day := JStr "monday" |}] start))
    = Returned (Some task, d')
    ∧ Task.created_at task = VText "1999-12-31".
Proof.
  destruct (proj2 (proj2 (proj2 (proj2 (proj2 (proj2 updateTask_keys_unchecked)))))
              "2025-01-06T10:00:00.000Z" "t1" "1999-12-31"
              (store (serve [Create "t1" "2025-01-06T09:00:00.000Z"
                               {| b_title := JStr "Write spec"; b_description := JUndefined;
                                  b_day := JStr "monday" |}] start)))
    as (task & d' & H1 & _ & _ & H2).
  - apply serve_consistent, consistent_db.
  - eexists. split; [by left|]. reflexivity.
  - exists task, d'. split; [exact H1|exact H2].
Defined.

(** ** The completion time of a session *)

Lemma POST_sessions_created id now b sv :
  status (POST_sessions id now b sv).1 = 200 →
  ∃ s, pomodoro_sessions (store (POST_sessions id now b sv).2)
       = (pomodoro_sessions (store sv) ++ [s])%list
       ∧ PomodoroSession.id s = VText id
       ∧ PomodoroSession.completed_at s = VNull.
Proof.
  unfold POST_sessions. destruct (negb _ || negb _); [done|].
  destruct (createPomodoroSession _ _ _) as [[o d]|] eqn:E; [|done]. intros _.
  apply createPomodoroSession_Returned in E as (s & -> & _ & Hid & (w & Hw & Hc) & _).
  simpl in Hw. injection Hw as <-. exists s. by repeat split.
Qed.

Lemma completePomodoroSession_rows now id d :
  tasks (completePomodoroSession now id d).2 = tasks d
  ∧ Forall2
      (λ s s', if decide (PomodoroSession.id s = VText id)
               then s' = PomodoroSession.set_completed_at (VText now) s
               else s' = s)
      (pomodoro_sessions d) (pomodoro_sessions (completePomodoroSession now id d).2).
Proof.
  split; [done|]. simpl. change (map ?g ?l) with (g <$> l).
  apply Forall2_fmap_r, Forall_Forall2_diag, Forall_forall. intros s _.
  unfold compose. rewrite text_eq_text.
  destruct (decide (PomodoroSession.id s = VText id)) as [E|E].
  - by rewrite bool_decide_eq_true_2.
  - by rewrite bool_decide_eq_false_2.
Qed.

Lemma handle_keeps_stamps (r : request) (sv : Server) :
  (∀ now id, r ≠ CompleteSession now id) →
  (stamp <$> pomodoro_sessions (store sv))
    `prefix_of` (stamp <$> pomodoro_sessions (store (handle r sv).2)).
Proof.
  intros Hr. destruct r as [id now b|now id b|id|b|id now b|now id]; simpl.
  - unfold POST_tasks. destruct (negb _ || negb _); [done|].
    destruct (createTask _ _ _ _) as [[t d]|] eqn:E; [|done].
    by apply createTask_Returned in E as (?&?&?&?&?&?&_&_&_&_&_&_&_&->).
  - unfold PUT_task. destruct (updateTask _ _ _ _) as [[t d]|] eqn:E; [|done].
    assert (pomodoro_sessions d = pomodoro_sessions (store sv)) as Hd.
    { destruct (decide (b = [])) as [->|Hne].
      - by injection E as _ <-.
      - by apply updateTask_Returned in E as (?&?&_&_&->&_). }
    destruct t; simpl; by rewrite Hd.
  - unfold DELETE_task.
    assert (stamp <$> pomodoro_sessions (deleteTask id (store sv)).2
            = stamp <$> pomodoro_sessions (store sv)) as Hd.
    { cbn [deleteTask snd pomodoro_sessions]. destruct (foreign_keys (store sv)); [|done].
      change (map ?g ?l) with (g <$> l). rewrite <- list_fmap_compose.
      apply list_fmap_ext. intros i s _. simpl. by destruct (existsb _ _). }
    destruct (deleteTask id (store sv)) as [[] d]; simpl in *; by rewrite Hd.
  - unfold POST_reorder. destruct (b_taskIds b) as [ids|]; [|done].
    destruct (negb _); [done|]. unfold reorderTasks.
    by destruct (reorder_from _ _ _).
  - unfold POST_sessions. destruct (negb _ || negb _); [done|].
    destruct (createPomodoroSession _ _ _) as [[o d]|] eqn:E; [|done].
    apply createPomodoroSession_Returned in E as (s & -> & _). simpl.
    rewrite fmap_app. by apply prefix_app_r.
  - by destruct (Hr now id).
Qed.

(** C9, as the code behaves. A session created through the API is stored
    with [completed_at] NULL. Every call of [completePomodoroSession], the
    first as well as any later one, sets [completed_at] of the row with that
    identifier to the clock reading of the call and changes nothing else: no
    other field of the row, no other session, no task. No other request
    changes the completion time of a stored session or removes a session. *)
Theorem completed_at_lifecycle :
  (∀ (id now : string) (b : SessionBody) (sv : Server),
     status (POST_sessions id now b sv).1 = 200 →
     ∃ s, pomodoro_sessions (store (POST_sessions id now b sv).2)
          = (pomodoro_sessions (store sv) ++ [s])%list
          ∧ PomodoroSession.id s = VText id
          ∧ PomodoroSession.completed_at s = VNull)
  ∧ (∀ (now id : string) (d : Database),
     tasks (completePomodoroSession now id d).2 = tasks d
     ∧ Forall2
         (λ s s', if decide (PomodoroSession.id s = VText id)
                  then s' = PomodoroSession.set_completed_at (VText now) s
                  else s' = s)
         (pomodoro_sessions d) (pomodoro_sessions (completePomodoroSession now id d).2))
  ∧ (∀ (r : request) (sv : Server),
     (∀ now id, r ≠ CompleteSession now id) →
     (stamp <$> pomodoro_sessions (store sv))
       `prefix_of` (stamp <$> pomodoro_sessions (store (handle r sv).2))).
Proof.
  split; [exact POST_sessions_created|].
  split; [exact completePomodoroSession_rows|exact handle_keeps_stamps].
Qed.

Lemma completed_at_lifecycle_witness :
  ∃ s, pomodoro_sessions
         (store (POST_sessions "s1" "2025-01-06T09:05:00.000Z"
                   {| b_task_id := JNull; b_duration := JNum 1500; b_type := JStr "work" |}
                   start).2)
       = [s]
       ∧ PomodoroSession.completed_at s = VNull.
Proof.
  destruct (proj1 completed_at_lifecycle "s1" "2025-01-06T09:05:00.000Z"
              {| b_task_id := JNull; b_duration := JNum 1500; b_type := JStr "work" |}
              start) as (s & H1 & _ & H2).
  - reflexivity.
  - exists s. split; [exact H1|exact H2].
Defined.

(** C9 fails as stated: a second completion of the same session replaces
    the completion time set by the first. *)
Lemma completed_at_overwritten :
  let d0 := store (serve [StartSession "s1" "2025-01-06T09:05:00.000Z"
                            {| b_task_id := JNull; b_duration := JNum 1500;
                               b_type := JStr "work" |}] start) in
  let d1 := (completePomodoroSession "2025-01-06T09:30:00.000Z" "s1" d0).2 in
  let d2 := (completePomodoroSession "2025-01-06T09:45:00.000Z" "s1" d1).2 in
  PomodoroSession.completed_at <$> pomodoro_sessions d0 = [VNull]
  ∧ PomodoroSession.completed_at <$> pomodoro_sessions d1
    = [VText "2025-01-06T09:30:00.000Z"]
  ∧ PomodoroSession.completed_at <$> pomodoro_sessions d2
    = [VText "2025-01-06T09:45:00.000Z"]
  ∧ status (POST_complete "2025-01-06T09:45:00.000Z" "s1"
              {| store := d1; published := [] |}).1 = 200.
Proof. vm_compute. repeat split; reflexivity. Qed.

(** ** Reordering the tasks of a day *)

Lemma set_priority_ok (n : Z) (r : Task.row) :
  Task.constraints_ok r = true →
  Task.constraints_ok (Task.set Task.Priority (VInt n) r) = true.
Proof.
  rewrite !constraints_ok_iff. intros H c Hc. rewrite get_set.
  destruct (decide (c = Task.Priority)) as [->|Hne]; [done|]. by apply H.
Qed.

Lemma reorder_from_rows (index : Z) (ids : list string) (rows : list Task.row) :
  Forall (λ r, Task.constraints_ok r = true) rows →
  reorder_from index (JStr <$> ids) rows = Returned (renumber index ids <$> rows).
Proof.
  revert index rows. induction ids as [|x ids IH]; intros index rows Hok.
  { simpl. by rewrite list_fmap_id. }
  simpl. rewrite update_tasks_ok.
  2:{ intros r Hr _. apply set_priority_ok. by apply (proj1 (Forall_forall _ _) Hok). }
  simpl. rewrite IH.
  - f_equal. change (map ?g ?l) with (g <$> l). rewrite <- list_fmap_compose.
    apply list_fmap_ext. intros i r _. simpl. by rewrite text_eq_text.
  - change (map ?g ?l) with (g <$> l). apply Forall_fmap, Forall_forall.
    intros r Hr. simpl. pose proof (proj1 (Forall_forall _ _) Hok r Hr) as Hr'.
    destruct (text_eq _ _); [by apply set_priority_ok|done].
Qed.

Lemma renumber_frame (index : Z) (ids : list string) (r : Task.row) (c : Task.column) :
  c ≠ Task.Priority → Task.get c (renumber index ids r) = Task.get c r.
Proof.
  intros Hc. revert index r. induction ids as [|x ids IH]; intros index r; [done|].
  cbn [renumber]. rewrite IH. destruct (bool_decide _); [|done].
  rewrite get_set. by rewrite decide_False.
Qed.

Lemma renumber_id (index : Z) (ids : list string) (r : Task.row) :
  Task.id (renumber index ids r) = Task.id r.
Proof. by apply (renumber_frame index ids r Task.Id). Qed.

Lemma renumber_unmentioned (index : Z) (ids : list string) (r : Task.row) :
  (∀ x, x ∈ ids → Task.id r ≠ VText x) → renumber index ids r = r.
Proof.
  revert index. induction ids as [|x ids IH]; intros index H; [done|].
  simpl. rewrite bool_decide_eq_false_2 by (apply H; by left).
  apply IH. intros y Hy. apply H. by right.
Qed.

Lemma renumber_priority (index : Z) (ids : list string) (r : Task.row) (x : string) :
  NoDup ids → x ∈ ids → Task.id r = VText x →
  Task.priority (renumber index ids r) = VInt (index + index_of x ids + 1).
Proof.
  revert index r. induction ids as [|y ids IH]; intros index r Hnd Hx Hid.
  { by apply elem_of_nil in Hx. }
  apply NoDup_cons in Hnd as [Hy Hnd]. simpl.
  destruct (decide (x = y)) as [->|Hne].
  - rewrite bool_decide_eq_true_2 by done.
    rewrite renumber_unmentioned.
    + simpl. f_equal. lia.
    + intros z Hz. simpl. rewrite Hid. intros [= ->]. done.
  - rewrite bool_decide_eq_false_2 by (rewrite Hid; congruence).
    apply elem_of_cons in Hx as [->|Hx]; [done|].
    rewrite IH by done. f_equal. lia.
Qed.

Lemma index_of_lookup (ids : list string) (i : nat) (x : string) :
  NoDup ids → ids !! i = Some x → index_of x ids = Z.of_nat i.
Proof.
  revert i. induction ids as [|y ids IH]; intros i Hnd Hi; [done|].
  apply NoDup_cons in Hnd as [Hy Hnd]. destruct i as [|i]; simpl in *.
  - injection Hi as ->. by rewrite decide_True.
  - rewrite decide_False.
    + rewrite (IH i) by done. lia.
    + intros ->. apply Hy. by eapply list_elem_of_lookup_2.
Qed.

Lemma index_of_nonneg (x : string) (ids : list string) : 0 ≤ index_of x ids.
Proof. induction ids as [|y ids IH]; simpl; [done|]. destruct (decide _); lia. Qed.

Lemma index_of_inj (ids : list string) (x y : string) :
  x ∈ ids → y ∈ ids → index_of x ids = index_of y ids → x = y.
Proof.
  induction ids as [|z ids IH]; intros Hx Hy; [by apply elem_of_nil in Hx|].
  simpl. pose proof (index_of_nonneg x ids). pose proof (index_of_nonneg y ids).
  destruct (decide (x = z)) as [->|Hxz], (decide (y = z)) as [->|Hyz]; try done; try lia.
  intros E. apply elem_of_cons in Hx as [->|Hx]; [done|].
  apply elem_of_cons in Hy as [->|Hy]; [done|]. apply IH; [done..|lia].
Qed.

Lemma StronglySorted_on {A} (R R' : relation A) (l : list A) :
  (∀ x y, x ∈ l → y ∈ l → R x y → R' x y) →
  StronglySorted R l → StronglySorted R' l.
Proof.
  intros Himp Hs. induction Hs as [|x l Hl IH Hx]; [constructor|]. constructor.
  - apply IH. intros a b Ha Hb. apply Himp; by right.
  - rewrite Forall_forall in Hx |- *. intros y Hy.
    apply Himp; [by left|by right|by apply Hx].
Qed.

Lemma index_of_sorted (ids : list string) :
  NoDup ids →
  StronglySorted (λ x y, index_of x ids ≤ index_of y ids) ids.
Proof.
  induction ids as [|z ids IH]; intros Hnd; [constructor|].
  apply NoDup_cons in Hnd as [Hz Hnd]. constructor.
  - eapply StronglySorted_on; [|exact (IH Hnd)].
    intros x y Hx Hy Hxy. cbn beta in Hxy. cbn [index_of].
    rewrite !decide_False by (intros ->; done). lia.
  - apply Forall_forall. intros x Hx. simpl. rewrite decide_True by done.
    destruct (decide (x = z)); [done|]. pose proof (index_of_nonneg x ids). lia.
Qed.

Lemma StronglySorted_filter {A} (R : relation A) (P : A → Prop) `{!∀ x, Decision (P x)}
    (l : list A) :
  StronglySorted R l → StronglySorted R (filter P l).
Proof.
  induction 1 as [|x l Hl IH Hx]; [constructor|].
  rewrite filter_cons. destruct (decide (P x)); [|done].
  constructor; [done|]. by apply Forall_filter_keep.
Qed.

Section Reorder.
Context (day : string) (ids : list string) (d : Database).
Hypothesis store_ok : consistent d.
Hypothesis distinct : NoDup ids.
Hypothesis of_day : ∀ x, x ∈ ids → belongs_to day d x.

Let d' := with_tasks (renumber 0 ids <$> tasks d) d.
Let listing := filter (λ r, Task.id r ∈ VText <$> ids) (getTasksByDay day d').
Let rank (v : value) : Z := match v with VText x => index_of x ids | _ => -1 end.

Lemma reorderTasks_result : reorderTasks (JStr day) (JStr <$> ids) d = Returned d'.
Proof.
  unfold reorderTasks. rewrite reorder_from_rows; [done|].
  apply (task_constraints _ store_ok).
Qed.

Lemma listed_row (r : Task.row) :
  r ∈ getTasksByDay day d' ↔
  ∃ r0, r0 ∈ tasks d ∧ r = renumber 0 ids r0 ∧ Task.day r0 = VText day.
Proof.
  unfold getTasksByDay. rewrite merge_sort_Permutation, list_elem_of_filter.
  simpl. rewrite list_elem_of_fmap. split.
  - intros [Hsel (r0 & -> & Hr0)]. exists r0. split; [done|]. split; [done|].
    rewrite text_eq_text in Hsel. apply Is_true_true, bool_decide_eq_true in Hsel.
    rewrite <- Hsel. symmetry. apply (renumber_frame 0 ids r0 Task.Day). done.
  - intros (r0 & Hr0 & -> & Hd). split; [|by exists r0].
    rewrite text_eq_text. apply Is_true_true, bool_decide_eq_true.
    rewrite <- Hd. apply (renumber_frame 0 ids r0 Task.Day). done.
Qed.

Lemma listing_priority (r : Task.row) :
  r ∈ listing → ∃ x, x ∈ ids ∧ Task.id r = VText x
                     ∧ Task.priority r = VInt (index_of x ids + 1).
Proof.
  unfold listing. rewrite list_elem_of_filter, listed_row.
  intros [Hm (r0 & Hr0 & -> & _)].
  apply list_elem_of_fmap in Hm as (x & Hx & Hin). exists x.
  split; [done|]. split; [done|].
  rewrite (renumber_priority 0 ids r0 x); [f_equal; lia|done..|].
  by rewrite <- Hx, renumber_id.
Qed.

Lemma listing_NoDup : NoDup (Task.id <$> listing).
Proof.
  unfold listing. apply filter_fmap_NoDup.
  unfold getTasksByDay. rewrite merge_sort_Permutation.
  apply filter_fmap_NoDup. simpl. rewrite <- list_fmap_compose.
  erewrite list_fmap_ext; [apply (unique_task_ids _ store_ok)|].
  intros i r _. simpl. apply renumber_id.
Qed.

Lemma listing_elements (v : value) : v ∈ Task.id <$> listing ↔ v ∈ VText <$> ids.
Proof.
  split.
  - intros (r & -> & Hr)%list_elem_of_fmap.
    unfold listing in Hr. by apply list_elem_of_filter in Hr as [Hm _].
  - intros (x & -> & Hx)%list_elem_of_fmap.
    destruct (of_day x Hx) as (r0 & Hr0 & Hid & Hd).
    apply list_elem_of_fmap. exists (renumber 0 ids r0).
    split; [by rewrite renumber_id|].
    unfold listing. apply list_elem_of_filter. split.
    + rewrite renumber_id, Hid. apply list_elem_of_fmap. by exists x.
    + apply listed_row. by exists r0.
Qed.

Lemma listing_sorted : StronglySorted (λ a b, rank a ≤ rank b) (Task.id <$> listing).
Proof.
  apply (StronglySorted_fmap Task.id
           (λ a b, rank (Task.id a) ≤ rank (Task.id b))); [done|].
  eapply StronglySorted_on; [|apply StronglySorted_filter, StronglySorted_merge_sort; apply _].
  intros a b Ha Hb [Hp _].
  destruct (listing_priority a Ha) as (x & _ & -> & Hpa).
  destruct (listing_priority b Hb) as (y & _ & -> & Hpb).
  simpl in Hp. rewrite Hpa, Hpb in Hp. simpl in *. lia.
Qed.

(** The listing of the day, restricted to the mentioned tasks, is the
    supplied order. *)
Lemma listing_ids : Task.id <$> listing = VText <$> ids.
Proof.
  apply (StronglySorted_unique_strong (λ a b, rank a ≤ rank b)).
  - intros v1 v2 Hv1%listing_elements Hv2 H1 H2.
    apply list_elem_of_fmap in Hv1 as (x & -> & Hx).
    apply list_elem_of_fmap in Hv2 as (y & -> & Hy).
    simpl in H1, H2. f_equal. apply (index_of_inj ids); [done..|lia].
  - apply listing_sorted.
  - apply (StronglySorted_fmap VText (λ x y, index_of x ids ≤ index_of y ids)); [done|].
    by apply index_of_sorted.
  - apply NoDup_Permutation.
    + apply listing_NoDup.
    + apply NoDup_fmap_2; [|done]. by intros ?? [= ->].
    + apply listing_elements.
Qed.
End Reorder.

(** C1. For a list of distinct identifiers, each of a task of [day],
    [reorderTasks] returns; afterwards the task named at
    position [i] has priority [i + 1], every row keeps all its other fields,
    every task that is not named keeps its row (its priority included), the
    sessions are untouched, and [getTasksByDay day] lists the named tasks in
    exactly the supplied order. *)
Theorem reorderTasks_order (day : string) (ids : list string) (d : Database) :
  consistent d →
  NoDup ids →
  (∀ x, x ∈ ids → belongs_to day d x) →
  ∃ d',
    reorderTasks (JStr day) (JStr <$> ids) d = Returned d'
    ∧ (∀ (i : nat) (x : string) (r : Task.row),
         ids !! i = Some x → r ∈ tasks d' → Task.id r = VText x →
         Task.priority r = VInt (Z.of_nat i + 1))
    ∧ Forall2
        (λ r r',
           (∀ c, c ≠ Task.Priority → Task.get c r' = Task.get c r)
           ∧ ((∀ x, x ∈ ids → Task.id r ≠ VText x) → r' = r))
        (tasks d) (tasks d')
    ∧ pomodoro_sessions d' = pomodoro_sessions d
    ∧ Task.id <$> filter (λ r, Task.id r ∈ VText <$> ids) (getTasksByDay day d')
      = VText <$> ids.
Proof.
  intros Hcons Hnd Hday.
  exists (with_tasks (renumber 0 ids <$> tasks d) d).
  split; [by apply reorderTasks_result|]. split; [|split; [|split]].
  - intros i x r Hi Hr Hid. simpl in Hr.
    apply list_elem_of_fmap in Hr as (r0 & -> & Hr0).
    rewrite renumber_id in Hid.
    rewrite (renumber_priority 0 ids r0 x); [|done|by eapply list_elem_of_lookup_2|done].
    rewrite (index_of_lookup ids i x) by done. f_equal.
  - simpl. apply Forall2_fmap_r, Forall_Forall2_diag, Forall_forall. intros r _.
    split.
    + intros c Hc. by apply renumber_frame.
    + apply renumber_unmentioned.
  - done.
  - by apply listing_ids.
Qed.

Lemma belongs_to_getTask (day : string) (d : Database) (x : string) (r : Task.row) :
  getTask x d = Some r → Task.day r = VText day → belongs_to day d x.
Proof.
  intros Hget Hd. apply find_some in Hget as [Hin Hsel]. exists r.
  split; [by apply list_elem_of_In|]. split; [|done].
  rewrite text_eq_text in Hsel. by apply bool_decide_eq_true in Hsel.
Qed.

Lemma reorderTasks_order_witness :
  ∃ d',
    reorderTasks (JStr "monday") (JStr <$> ["C"; "A"; "B"]) three_tasks = Returned d'
    ∧ Task.id <$> filter (λ r, Task.id r ∈ VText <$> ["C"; "A"; "B"])
                    (getTasksByDay "monday" d')
      = VText <$> ["C"; "A"; "B"].
Proof.
  destruct (reorderTasks_order "monday" ["C"; "A"; "B"] three_tasks)
    as (d' & H1 & _ & _ & _ & H2).
  - apply serve_consistent, consistent_db.
  - apply (bool_decide_unpack _). vm_compute. exact I.
  - intros x Hx. apply list_elem_of_In in Hx. simpl in Hx.
    destruct Hx as [<-|[<-|[<-|[]]]];
      (eapply belongs_to_getTask; [reflexivity|reflexivity]).
  - exists d'. split; [exact H1|exact H2].
Defined.

(** A list that names an identifier twice is accepted as well: the task
    takes the priority of its last position, and the listing holds it
    once. *)
Lemma reorderTasks_repeated_id :
  belongs_to "monday" three_tasks "A"
  ∧ ["A"; "A"] !! 0%nat = Some "A"
  ∧ ∃ d',
      reorderTasks (JStr "monday") (JStr <$> ["A"; "A"]) three_tasks = Returned d'
      ∧ (Task.id <$> tasks d') = [VText "A"; VText "B"; VText "C"]
      ∧ (Task.priority <$> tasks d') = [VInt 2; VInt 1; VInt 1]
      ∧ Task.id <$> filter (λ r, Task.id r ∈ VText <$> ["A"; "A"])
                      (getTasksByDay "monday" d')
        = [VText "A"]
      ∧ [VText "A"] ≠ VText <$> ["A"; "A"].
Proof.
  split; [|split; [reflexivity|]].
  - eapply belongs_to_getTask; [reflexivity|reflexivity].
  - eexists. split; [vm_compute; reflexivity|].
    split; [reflexivity|]. split; [reflexivity|]. split; [|discriminate].
    vm_compute. reflexivity.
Qed.

(** ** Further properties of the store *)

(** X1. On every store the server reaches from the empty database by
    requests whose updates name their fields as the schema writes the
    columns, the task identifiers are distinct text, the session
    identifiers are distinct and no NOT NULL column of a task row holds
    NULL. *)
Theorem store_constraints_invariant (rs : list request) :
  Forall plain_request rs → consistent (store (serve rs start)).
Proof. intros _. apply serve_consistent, consistent_db. Qed.

Lemma store_constraints_invariant_witness :
  consistent
    (store (serve [ Create "t1" "2025-01-06T09:00:00.000Z"
                      {| b_title := JStr "Write spec"; b_description := JUndefined;
                         b_day := JStr "monday" |};
                    Update "2025-01-06T10:00:00.000Z" "t1" [("id", JNull)];
                    Update "2025-01-06T10:01:00.000Z" "t1" [("title", JNull)] ]
              start)).
Proof.
  apply store_constraints_invariant.
  repeat constructor; by eexists.
Defined.

Lemma find_last {A} (sel : A → bool) (l : list A) (x : A) :
  (∀ y, y ∈ l → sel y = false) → sel x = true → List.find sel (l ++ [x])%list = Some x.
Proof.
  induction l as [|y l IH]; intros Hl Hx; simpl; [by rewrite Hx|].
  rewrite (Hl y) by left. apply IH; [|done]. intros z Hz. apply Hl. by right.
Qed.

(** X2. A task created with a non-empty title and day is read back by
    [getTask] with the supplied title and day, priority 1, not completed,
    and [created_at] equal to [updated_at]. *)
Theorem createTask_then_getTask (id now title day : string) (description : jsval)
    (sv : Server) :
  title ≠ "" → day ≠ "" → description ≠ JObject → ¬ stored id (store sv) →
  ∃ task,
    getTask id
      (store (POST_tasks id now
                {| b_title := JStr title; b_description := description;
                   b_day := JStr day |} sv).2)
    = Some task
    ∧ Task.title task = VText title
    ∧ Task.day task = VText day
    ∧ Task.priority task = VInt 1
    ∧ Task.completed task = VInt 0
    ∧ Task.created_at task = VText now
    ∧ Task.updated_at task = Task.created_at task.
Proof.
  intros Ht Hd Hdesc Hfresh.
  destruct (POST_tasks_created id now
              {| b_title := JStr title; b_description := description; b_day := JStr day |} sv
              title day eq_refl Ht eq_refl Hd Hdesc Hfresh) as (w & _ & ->).
  eexists. split.
  - unfold getTask. simpl. apply find_last.
    + intros r Hr. rewrite text_eq_text. apply bool_decide_eq_false_2.
      intros E. apply Hfresh. by exists r.
    + rewrite text_eq_text. by apply bool_decide_eq_true_2.
  - by repeat split.
Qed.

Lemma createTask_then_getTask_witness :
  ∃ task,
    getTask "t1"
      (store (POST_tasks "t1" "2025-01-06T09:00:00.000Z"
                {| b_title := JStr "Write spec"; b_description := JUndefined;
                   b_day := JStr "monday" |} start).2)
    = Some task
    ∧ Task.updated_at task = Task.created_at task.
Proof.
  destruct (createTask_then_getTask "t1" "2025-01-06T09:00:00.000Z" "Write spec" "monday"
              JUndefined start) as (task & H1 & _ & _ & _ & _ & _ & H2); try done.
  - intros (r & Hr & _). by apply elem_of_nil in Hr.
  - by exists task.
Defined.

(** ** Listings *)

Lemma StronglySorted_lookup {A} (R : relation A) (l : list A) (i j : nat) (a b : A) :
  StronglySorted R l → (i < j)%nat → l !! i = Some a → l !! j = Some b → R a b.
Proof.
  intros Hs. revert i j. induction Hs as [|x l Hl IH Hx]; intros i j Hij Hi Hj; [done|].
  destruct j as [|j]; [lia|]. destruct i as [|i]; simpl in *.
  - injection Hi as <-. rewrite Forall_forall in Hx. apply Hx.
    by eapply list_elem_of_lookup_2.
  - apply (IH i j); [lia|done..].
Qed.

Lemma order_by_priority (a b : Task.row) :
  order_by [Task.Priority; Task.Created_at] a b ↔
  value_le (Task.priority a) (Task.priority b)
  ∧ (Task.priority a = Task.priority b →
     value_le (Task.created_at a) (Task.created_at b)).
Proof.
  simpl. split.
  - intros [Hp Hc]. split; [done|]. intros E. apply Hc. by rewrite E.
  - intros [Hp Hc]. split; [done|]. intros Hp'. split; [|done].
    apply Hc. by apply value_le_antisym.
Qed.

Lemma getTasksByDay_filter (day : string) (d : Database) :
  getTasksByDay day d ≡ₚ tasks_of_day (tasks d) day.
Proof.
  unfold getTasksByDay, tasks_of_day. rewrite merge_sort_Permutation.
  erewrite list_filter_iff; [done|]. intros r. rewrite text_eq_text.
  split; [by intros ?%Is_true_true%bool_decide_eq_true
         |by intros ?; apply Is_true_true, bool_decide_eq_true].
Qed.

(** X3. [getTasksByDay] lists exactly the tasks of the day, each as often
    as it is stored, in ascending priority and, among equal priorities, in
    ascending creation time. *)
Theorem getTasksByDay_sorted (day : string) (d : Database) :
  getTasksByDay day d ≡ₚ filter (λ task, Task.day task = VText day) (tasks d)
  ∧ ∀ (i j : nat) (a b : Task.row),
      (i < j)%nat →
      getTasksByDay day d !! i = Some a → getTasksByDay day d !! j = Some b →
      value_le (Task.priority a) (Task.priority b)
      ∧ (Task.priority a = Task.priority b →
         value_le (Task.created_at a) (Task.created_at b)).
Proof.
  split; [apply getTasksByDay_filter|].
  intros i j a b Hij Hi Hj. apply order_by_priority.
  eapply (StronglySorted_lookup _ _ i j); [|done..].
  apply StronglySorted_merge_sort; apply _.
Qed.

Lemma order_by_same_day (a b : Task.row) :
  Task.day a = Task.day b →
  order_by [Task.Day; Task.Priority; Task.Created_at] a b →
  order_by [Task.Priority; Task.Created_at] a b.
Proof. intros E [_ H]. apply H. simpl. by rewrite E. Qed.

Lemma tasks_of_day_getAllTasks_sorted (day : string) (d : Database) :
  StronglySorted (order_by [Task.Priority; Task.Created_at])
    (tasks_of_day (getAllTasks d) day).
Proof.
  unfold tasks_of_day. eapply StronglySorted_on.
  2:{ apply StronglySorted_filter, StronglySorted_merge_sort; apply _. }
  intros a b [Ha _]%list_elem_of_filter [Hb _]%list_elem_of_filter.
  apply order_by_same_day. congruence.
Qed.

Lemma tasks_of_day_getAllTasks_perm (day : string) (d : Database) :
  tasks_of_day (getAllTasks d) day ≡ₚ getTasksByDay day d.
Proof.
  rewrite getTasksByDay_filter. unfold tasks_of_day, getAllTasks.
  by rewrite merge_sort_Permutation.
Qed.

(** X4. [getAllTasks] lists every stored task once per row, ordered by day
    (as text), then priority, then creation time; GET /api/tasks answers
    with it when no day or an empty day is given and with [getTasksByDay]
    otherwise. The client's grouping of that answer by day holds, for each
    day, the same tasks as [getTasksByDay] in the same sort order, and it is
    the very same list when no two tasks of the day agree in both priority
    and creation time. *)
Theorem getAllTasks_grouped (d : Database) :
  getAllTasks d ≡ₚ tasks d
  ∧ StronglySorted (order_by [Task.Day; Task.Priority; Task.Created_at]) (getAllTasks d)
  ∧ (∀ sv, GET_tasks None sv = getAllTasks (store sv)
           ∧ GET_tasks (Some "") sv = getAllTasks (store sv))
  ∧ (∀ sv day, day ≠ "" → GET_tasks (Some day) sv = getTasksByDay day (store sv))
  ∧ (∀ day,
       tasks_of_day (getAllTasks d) day ≡ₚ getTasksByDay day d
       ∧ StronglySorted (order_by [Task.Priority; Task.Created_at])
           (tasks_of_day (getAllTasks d) day))
  ∧ (∀ day,
       (∀ a b, a ∈ tasks d → b ∈ tasks d →
               Task.day a = VText day → Task.day b = VText day →
               Task.priority a = Task.priority b →
               Task.created_at a = Task.created_at b → a = b) →
       tasks_of_day (getAllTasks d) day = getTasksByDay day d).
Proof.
  split; [apply merge_sort_Permutation|].
  split; [apply StronglySorted_merge_sort; apply _|].
  split; [done|]. split.
  { intros sv day Hday. unfold GET_tasks. by rewrite truthy_JStr. }
  split.
  { intros day. split; [apply tasks_of_day_getAllTasks_perm
                       |apply tasks_of_day_getAllTasks_sorted]. }
  intros day Hties.
  apply (StronglySorted_unique_strong (order_by [Task.Priority; Task.Created_at])).
  - intros a b Ha Hb [Hp1 Hc1]%order_by_priority [Hp2 Hc2]%order_by_priority.
    rewrite tasks_of_day_getAllTasks_perm, getTasksByDay_filter in Ha.
    rewrite getTasksByDay_filter in Hb.
    apply list_elem_of_filter in Ha as [Hda Ha], Hb as [Hdb Hb].
    assert (Task.priority a = Task.priority b) as Hp by (by apply value_le_antisym).
    apply Hties; try done. apply value_le_antisym; [by apply Hc1|].
    by apply Hc2.
  - apply tasks_of_day_getAllTasks_sorted.
  - apply StronglySorted_merge_sort; apply _.
  - apply tasks_of_day_getAllTasks_perm.
Qed.

Lemma getAllTasks_grouped_witness :
  tasks_of_day (getAllTasks three_tasks) "monday" = getTasksByDay "monday" three_tasks.
Proof.
  apply (proj2 (proj2 (proj2 (proj2 (proj2 (getAllTasks_grouped three_tasks))))) "monday").
  intros a b Ha Hb _ _ _ Hc.
  apply list_elem_of_In in Ha, Hb. vm_compute in Ha, Hb.
  destruct Ha as [<-|[<-|[<-|[]]]], Hb as [<-|[<-|[<-|[]]]];
    first [reflexivity | discriminate Hc].
Defined.

Global Instance started_at_desc_total : Total started_at_desc.
Proof. intros a b. unfold started_at_desc. apply value_le_total. Qed.

Global Instance started_at_desc_trans : Transitive started_at_desc.
Proof. intros a b c H1 H2. unfold started_at_desc in *. by etrans. Qed.

(** X5. [getPomodoroSessions] with a non-empty task id lists exactly the
    sessions whose [task_id] is that id, and with no id or the empty string
    all sessions, each as often as it is stored and latest start first.
    GET /api/pomodoro/sessions behaves alike. *)
Theorem getPomodoroSessions_sorted (d : Database) :
  (∀ task_id, task_id ≠ "" →
     getPomodoroSessions (Some task_id) d
     ≡ₚ filter (λ s, PomodoroSession.task_id s = VText task_id) (pomodoro_sessions d))
  ∧ getPomodoroSessions None d ≡ₚ pomodoro_sessions d
  ∧ getPomodoroSessions (Some "") d = getPomodoroSessions None d
  ∧ (∀ (taskId : option string) (i j : nat) (a b : PomodoroSession.row),
       (i < j)%nat →
       getPomodoroSessions taskId d !! i = Some a →
       getPomodoroSessions taskId d !! j = Some b →
       value_le (PomodoroSession.started_at b) (PomodoroSession.started_at a))
  ∧ (∀ sv taskId,
       GET_sessions taskId sv = getPomodoroSessions taskId (store sv)).
Proof.
  split; [|split; [|split; [|split]]].
  - intros t Ht. unfold getPomodoroSessions. rewrite truthy_JStr by done.
    rewrite merge_sort_Permutation. erewrite list_filter_iff; [done|].
    intros s. rewrite text_eq_text.
    split; [by intros ?%Is_true_true%bool_decide_eq_true
           |by intros ?; apply Is_true_true, bool_decide_eq_true].
  - apply merge_sort_Permutation.
  - done.
  - intros taskId i j a b Hij Hi Hj.
    change (started_at_desc a b). eapply (StronglySorted_lookup _ _ i j); [|done..].
    unfold getPomodoroSessions. destruct taskId as [t|]; [destruct (truthy _)|];
      apply StronglySorted_merge_sort; apply _.
  - intros sv [t|]; [|done]. unfold GET_sessions, getPomodoroSessions.
    by destruct (truthy (JStr t)) eqn:E; [rewrite E|].
Qed.

(** ** Reordering, whatever the day *)

Lemma reorderTasks_rows (day : jsval) (ids : list string) (d : Database) :
  Forall (λ r, Task.constraints_ok r = true) (tasks d) →
  reorderTasks day (JStr <$> ids) d
  = Returned (with_tasks (renumber 0 ids <$> tasks d) d).
Proof. intros Hok. unfold reorderTasks. by rewrite reorder_from_rows. Qed.

Lemma renumber_not_stored (ids : list string) (d : Database) :
  (∀ x, x ∈ ids → ¬ stored x d) → renumber 0 ids <$> tasks d = tasks d.
Proof.
  intros Hno. apply map_unchanged. intros r Hr. apply renumber_unmentioned.
  intros x Hx E. apply (Hno x Hx). by exists r.
Qed.

(** X6. [reorderTasks] never looks at its [day] argument. On a consistent
    store it returns for every list of ids; when the ids are distinct, the
    stored task named at position [i] gets priority [i + 1] whatever its
    day; ids that name no stored task change nothing, and a list of such
    ids, the empty list included, leaves the store as it is while the
    handler still answers 200 and publishes [tasks_reordered]. *)
Theorem reorderTasks_ignores_day (day : jsval) (ids : list string) (d : Database) :
  consistent d →
  ∃ d',
    reorderTasks day (JStr <$> ids) d = Returned d'
    ∧ (NoDup ids →
       ∀ (i : nat) (x : string) (r : Task.row),
         ids !! i = Some x → r ∈ tasks d' → Task.id r = VText x →
         Task.priority r = VInt (Z.of_nat i + 1))
    ∧ ((∀ x, x ∈ ids → ¬ stored x d) → d' = d)
    ∧ ((∀ x, x ∈ ids → ¬ stored x d) →
       ∀ published, truthy day = true →
         POST_reorder {| b_reorder_day := day; b_taskIds := Some (JStr <$> ids) |}
           {| store := d; published := published |}
         = (mkResponse 200 reply_success,
            {| store := d;
               published :=
                 (published ++ [("tasks", tasks_reordered day (JStr <$> ids))])%list |})).
Proof.
  intros Hcons. exists (with_tasks (renumber 0 ids <$> tasks d) d).
  pose proof (reorderTasks_rows day ids d (task_constraints _ Hcons)) as Hre.
  split; [done|]. split; [|split].
  - intros Hnd i x r Hi Hr Hid. simpl in Hr.
    apply list_elem_of_fmap in Hr as (r0 & -> & Hr0). rewrite renumber_id in Hid.
    rewrite (renumber_priority 0 ids r0 x); [|done|by eapply list_elem_of_lookup_2|done].
    rewrite (index_of_lookup ids i x) by done. f_equal.
  - intros Hno. rewrite renumber_not_stored by done. apply with_tasks_same.
  - intros Hno published Hday. unfold POST_reorder. simpl. rewrite Hday. simpl.
    rewrite Hre, renumber_not_stored, with_tasks_same by done. done.
Qed.

Lemma reorderTasks_ignores_day_witness :
  ∃ d', reorderTasks (JStr "sunday") (JStr <$> ["C"; "A"]) three_tasks = Returned d'.
Proof.
  destruct (reorderTasks_ignores_day (JStr "sunday") ["C"; "A"] three_tasks)
    as (d' & H & _).
  - apply serve_consistent, consistent_db.
  - by exists d'.
Defined.

(** ** An update whose body carries [id] *)

Lemma updateTask_id_compiled (now a b : string) :
  compile_set (updateTask_params a now [("id", JStr b)])
    (updateTask_set_clause [("id", JStr b)])
  = Returned [(Task.Id, VText b); (Task.Updated_at, VText now)]
  ∧ bind_param (updateTask_params a now [("id", JStr b)]) "$id" = Returned (VText b).
Proof. split; vm_compute; reflexivity. Qed.

(** X7. The parameters of [updateTask] are built with the body's entries
    last, so a body [{id: b}] replaces the id of the request: the statement
    selects the row of [b], not of [a]. The row of [a] is left untouched
    and is what the call returns (the handler answers 200 and publishes it
    as updated); every row of [b] has [updated_at] set to the clock reading
    and nothing else changed; all other rows stay. *)
Theorem updateTask_id_in_body (now a b : string) (d : Database) :
  consistent d → a ≠ b →
  ∃ d',
    updateTask now a [("id", JStr b)] d = Returned (getTask a d, d')
    ∧ getTask a d' = getTask a d
    ∧ pomodoro_sessions d' = pomodoro_sessions d
    ∧ Forall2
        (λ r r', if decide (Task.id r = VText b)
                 then r' = Task.set Task.Updated_at (VText now) r
                 else r' = r)
        (tasks d) (tasks d').
Proof.
  intros Hcons Hab.
  destruct (updateTask_id_compiled now a b) as [Hasg Hkey].
  set (g := λ r, if text_eq (VText b) (Task.id r)
                 then assign [(Task.Id, VText b); (Task.Updated_at, VText now)] r else r).
  assert (∀ r, Task.id (g r) = Task.id r) as Hgid.
  { intros r. unfold g. destruct (text_eq _ _) eqn:E; [|done].
    rewrite text_eq_text in E. apply bool_decide_eq_true in E.
    change (Task.get Task.Id (assign [(Task.Id, VText b); (Task.Updated_at, VText now)] r)
            = Task.id r).
    rewrite assign_get. simpl. first [exact E | by symmetry]. }
  assert (getTask a (with_tasks (map g (tasks d)) d) = getTask a d) as Hget.
  { unfold getTask. simpl. rewrite find_map_preserved.
    - destruct (List.find _ (tasks d)) as [r|] eqn:Hf; [|done]. simpl. f_equal.
      apply find_some in Hf as [_ Hsel]. rewrite text_eq_text in Hsel.
      apply bool_decide_eq_true in Hsel. unfold g. rewrite text_eq_text, Hsel.
      rewrite bool_decide_eq_false_2; [done|]. by intros [= ->].
    - intros r _. by rewrite Hgid. }
  exists (with_tasks (map g (tasks d)) d). split; [|split; [done|split; [done|]]].
  - rewrite updateTask_nonempty by done. rewrite Hasg. simpl. rewrite Hkey. simpl.
    rewrite update_tasks_ok.
    + rewrite <- Hget. reflexivity.
    + intros r Hr Hsel. apply constraints_ok_iff. intros c Hc.
      pose proof (proj1 (constraints_ok_iff r)
                    (proj1 (Forall_forall _ _) (task_constraints _ Hcons) r Hr) c Hc) as Hr'.
      rewrite assign_get.
      destruct (assigned c _) as [w|] eqn:Hw; [|done].
      apply assigned_Some, list_elem_of_In in Hw. simpl in Hw.
      rewrite apply_affinity_null.
      destruct Hw as [[= <- <-]|[[= <- <-]|[]]]; done.
  - simpl. change (map ?f ?l) with (f <$> l).
    apply Forall2_fmap_r, Forall_Forall2_diag, Forall_forall. intros r _.
    unfold compose, g. rewrite text_eq_text.
    destruct (decide (Task.id r = VText b)) as [E|E].
    + rewrite bool_decide_eq_true_2 by done. unfold assign. simpl.
      destruct r; simpl in *. by subst.
    + by rewrite bool_decide_eq_false_2.
Qed.

Lemma updateTask_id_in_body_witness :
  ∃ d',
    updateTask "2025-01-06T10:00:00.000Z" "A" [("id", JStr "B")] three_tasks
    = Returned (getTask "A" three_tasks, d').
Proof.
  destruct (updateTask_id_in_body "2025-01-06T10:00:00.000Z" "A" "B" three_tasks)
    as (d' & H & _).
  - apply serve_consistent, consistent_db.
  - discriminate.
  - by exists d'.
Defined.

(** X8. A PUT whose keys are column names as the schema writes them never
    adds, removes, reorders or re-identifies a task row and never touches a
    session, whatever values it carries and whatever it answers. *)
Theorem PUT_task_keeps_rows (now id : string) (b : list (string * jsval)) (sv : Server) :
  Forall (λ kv, is_Some (Task.column_of_name kv.1)) b →
  Task.id <$> tasks (store (PUT_task now id b sv).2) = Task.id <$> tasks (store sv)
  ∧ pomodoro_sessions (store (PUT_task now id b sv).2) = pomodoro_sessions (store sv).
Proof.
  intros _. unfold PUT_task.
  destruct (updateTask now id b (store sv)) as [[t d]|] eqn:E.
  2:{ done. }
  assert (Task.id <$> tasks d = Task.id <$> tasks (store sv)
          ∧ pomodoro_sessions d = pomodoro_sessions (store sv)) as Hd.
  { split; [by eapply updateTask_ids|].
    destruct (decide (b = [])) as [->|Hne].
    - by injection E as _ <-.
    - by apply updateTask_Returned in E as (?&?&_&_&->&_). }
  by destruct t.
Qed.

Lemma PUT_task_keeps_rows_witness :
  Task.id <$> tasks (store (PUT_task "2025-01-06T10:00:00.000Z" "A"
                              [("title", JStr "x")]
                              {| store := three_tasks; published := [] |}).2)
  = Task.id <$> tasks three_tasks.
Proof.
  apply (PUT_task_keeps_rows "2025-01-06T10:00:00.000Z" "A" [("title", JStr "x")]
           {| store := three_tasks; published := [] |}).
  constructor; [by eexists|constructor].
Defined.

(** ** Listings after a creation and after a deletion *)

Lemma getTasksByDay_sorted_rows (day : string) (d : Database) :
  StronglySorted (order_by [Task.Priority; Task.Created_at]) (getTasksByDay day d).
Proof. apply StronglySorted_merge_sort; apply _. Qed.

Lemma text_eq_text_true (s : string) : text_eq (VText s) (VText s) = true.
Proof. rewrite text_eq_text. by apply bool_decide_eq_true. Qed.

Lemma text_eq_text_false (s t : string) : s ≠ t → text_eq (VText s) (VText t) = false.
Proof. intros H. rewrite text_eq_text. apply bool_decide_eq_false. by intros [= ->]. Qed.

(** X9. A task created by POST /api/tasks always has priority 1 and is not
    completed. It joins the listing of its day, where every task listed
    before it has a priority of at most 1 and every task listed after it a
    priority of at least 1 (it is not put at the end), and the listing of
    every other day is the same list as before. *)
Theorem POST_tasks_listed (id now : string) (b : CreateBody) (sv : Server)
    (title day : string) :
  b_title b = JStr title → title ≠ "" →
  b_day b = JStr day → day ≠ "" →
  b_description b ≠ JObject →
  ¬ stored id (store sv) →
  let sv' := (POST_tasks id now b sv).2 in
  ∃ r,
    Task.id r = VText id ∧ Task.priority r = VInt 1 ∧ Task.completed r = VInt 0
    ∧ getTasksByDay day (store sv') ≡ₚ r :: getTasksByDay day (store sv)
    ∧ (∀ (i j : nat) (a : Task.row),
         getTasksByDay day (store sv') !! i = Some a →
         getTasksByDay day (store sv') !! j = Some r →
         ((i < j)%nat → value_le (Task.priority a) (VInt 1))
         ∧ ((j < i)%nat → value_le (VInt 1) (Task.priority a)))
    ∧ (∀ day', day' ≠ day →
         getTasksByDay day' (store sv') = getTasksByDay day' (store sv)).
Proof.
  intros Ht Hte Hd Hde Hdesc Hfresh sv'.
  destruct (POST_tasks_created id now b sv title day Ht Hte Hd Hde Hdesc Hfresh)
    as (v & _ & Hpost).
  subst sv'. rewrite Hpost. cbn [snd store].
  set (r := Task.mk (VText id) (VText title) (apply_affinity TEXT v) (VText day)
              (VInt 1) (VInt 0) (VText now) (VText now)).
  exists r. split; [done|]. split; [done|]. split; [done|].
  split; [|split].
  - unfold getTasksByDay. cbn [tasks with_tasks]. rewrite !merge_sort_Permutation.
    rewrite filter_app, filter_cons_True, filter_nil.
    + by rewrite <- Permutation_cons_append.
    + apply Is_true_true, text_eq_text_true.
  - intros i j a Hi Hj.
    pose proof (getTasksByDay_sorted_rows day
                  (with_tasks (tasks (store sv) ++ [r]) (store sv))) as Hs.
    split; intros Hij.
    + by destruct (proj1 (order_by_priority a r) (StronglySorted_lookup _ _ i j a r Hs Hij Hi Hj)).
    + by destruct (proj1 (order_by_priority r a) (StronglySorted_lookup _ _ j i r a Hs Hij Hj Hi)).
  - intros day' Hne. unfold getTasksByDay. cbn [tasks with_tasks].
    rewrite filter_app, filter_cons_False, filter_nil, app_nil_r; [done|].
    intros E%Is_true_true. cbn [Task.day r] in E.
    by rewrite text_eq_text_false in E.
Qed.

Lemma POST_tasks_listed_witness :
  ∃ r, Task.id r = VText "D"
       ∧ getTasksByDay "monday"
           (store (POST_tasks "D" "2025-01-06T10:00:00.000Z"
                     {| b_title := JStr "d"; b_description := JUndefined;
                        b_day := JStr "monday" |}
                     {| store := three_tasks; published := [] |}).2)
         ≡ₚ r :: getTasksByDay "monday" three_tasks.
Proof.
  destruct (POST_tasks_listed "D" "2025-01-06T10:00:00.000Z"
              {| b_title := JStr "d"; b_description := JUndefined; b_day := JStr "monday" |}
              {| store := three_tasks; published := [] |} "d" "monday")
    as (r & H1 & _ & _ & H2 & _); try done.
  - intros (r & Hr & E). apply list_elem_of_In in Hr. vm_compute in Hr.
    destruct Hr as [<-|[<-|[<-|[]]]]; discriminate E.
  - by exists r.
Defined.

Lemma filter_Forall_id {A} (P : A → Prop) `{!∀ x, Decision (P x)} (l : list A) :
  Forall P l → filter P l = l.
Proof.
  induction 1 as [|x l Hx Hl IH]; [done|]. rewrite filter_cons_True by done. by f_equal.
Qed.

Lemma filter_out_one {A B} `{EqDecision B} (f : A → B) (x : B) (l : list A) :
  NoDup (f <$> l) → x ∈ f <$> l →
  S (length (filter (λ r, f r ≠ x) l)) = length l.
Proof.
  induction l as [|a l IH]; intros Hnd Hin; [by apply elem_of_nil in Hin|].
  cbn [fmap list_fmap] in *. apply NoDup_cons in Hnd as [Hn Hnd].
  destruct (decide (f a = x)) as [E|E].
  - rewrite filter_cons_False by (intros Hne; by apply Hne). cbn [length]. f_equal.
    rewrite filter_Forall_id; [done|]. apply Forall_forall. intros r Hr Er.
    apply Hn. rewrite E, <- Er. by apply list_elem_of_fmap_2.
  - rewrite filter_cons_True by done. cbn [length]. f_equal. apply IH; [done|].
    apply elem_of_cons in Hin as [->|Hin]; done.
Qed.

(** X10. A deletion takes the rows of that id out of every listing and
    leaves all other rows as they are: the remaining tasks keep their
    priorities (no renumbering), and a consistent store that held the task
    has one row less. *)
Theorem DELETE_task_listing (id : string) (sv : Server) :
  let sv' := (DELETE_task id sv).2 in
  tasks (store sv') = filter (λ r, Task.id r ≠ VText id) (tasks (store sv))
  ∧ (∀ day,
       getTasksByDay day (store sv')
       ≡ₚ filter (λ r, Task.id r ≠ VText id) (getTasksByDay day (store sv)))
  ∧ getAllTasks (store sv') ≡ₚ filter (λ r, Task.id r ≠ VText id) (getAllTasks (store sv))
  ∧ (consistent (store sv) → stored id (store sv) →
     S (length (tasks (store sv'))) = length (tasks (store sv))).
Proof.
  intros sv'.
  assert (tasks (store sv') = filter (λ r, Task.id r ≠ VText id) (tasks (store sv))) as Hrows.
  { subst sv'. unfold DELETE_task.
    pose proof (deleteTask_tasks id (store sv)) as H.
    destruct (deleteTask id (store sv)) as [deleted d]. simpl in H.
    by destruct deleted. }
  split; [done|]. split; [|split].
  - intros day. unfold getTasksByDay. rewrite !merge_sort_Permutation, Hrows.
    rewrite !list_filter_filter. erewrite list_filter_iff; [done|]. intros r. tauto.
  - unfold getAllTasks. by rewrite !merge_sort_Permutation, Hrows.
  - intros Hcons Hst. rewrite Hrows.
    apply (filter_out_one Task.id); [apply Hcons|by apply stored_ids].
Qed.

(** ** Pomodoro sessions on the server *)

Lemma with_sessions_same (d : Database) : with_sessions (pomodoro_sessions d) d = d.
Proof. by destruct d. Qed.

Lemma truthy_bound (v : jsval) (a : affinity) :
  truthy v = true → v ≠ JObject →
  ∃ w, bind_value v = Some w ∧ apply_affinity a w ≠ VNull.
Proof.
  intros Ht Hobj.
  destruct v as [| |[|]|n|s|]; try done; eexists; (split; [reflexivity|]);
    by rewrite apply_affinity_null.
Qed.

Lemma POST_sessions_inserted (id now : string) (b : SessionBody) (sv : Server) :
  truthy (b_duration b) = true → truthy (b_type b) = true →
  b_duration b ≠ JObject → b_type b ≠ JObject → b_task_id b ≠ JObject →
  foreign_keys (store sv) = false ∨ truthy (b_task_id b) = false →
  (∀ s, s ∈ pomodoro_sessions (store sv) → PomodoroSession.id s ≠ VText id) →
  ∃ v_task_id v_duration v_type,
    bind_value (b_task_id b) = Some v_task_id
    ∧ bind_value (b_duration b) = Some v_duration
    ∧ bind_value (b_type b) = Some v_type
    ∧ let session :=
        {| PomodoroSession.o_session :=
             {| PomodoroSession.i_task_id := js_or (b_task_id b) JNull;
                PomodoroSession.i_duration := b_duration b;
                PomodoroSession.i_started_at := JStr now;
                PomodoroSession.i_completed_at := JNull;
                PomodoroSession.i_type := b_type b |};
           PomodoroSession.o_id := id |} in
      POST_sessions id now b sv
      = (mkResponse 200 (reply_session session),
         {| store :=
              with_sessions
                (pomodoro_sessions (store sv) ++
                   [PomodoroSession.mk (VText id)
                      (if truthy (b_task_id b)
                       then apply_affinity TEXT v_task_id else VNull)
                      (apply_affinity INTEGER v_duration) (VText now) VNull
                      (apply_affinity TEXT v_type)])%list
                (store sv);
            published := (published sv ++ [("pomodoro", session_started session)])%list |}).
Proof.
  intros Hd Ht Hdo Hto Hko Hfk Hfresh.
  destruct (truthy_bound _ INTEGER Hd Hdo) as (v_duration & Hbd & Hnd).
  destruct (truthy_bound _ TEXT Ht Hto) as (v_type & Hbt & Hnt).
  assert (∃ v_task_id, bind_value (b_task_id b) = Some v_task_id) as [v_task_id Hbk].
  { destruct (b_task_id b); try done; by eexists. }
  exists v_task_id, v_duration, v_type. split; [done|]. split; [done|]. split; [done|].
  unfold POST_sessions. rewrite Hd, Ht. cbn [negb orb].
  unfold createPomodoroSession.
  cbn [PomodoroSession.i_task_id PomodoroSession.i_duration PomodoroSession.i_started_at
       PomodoroSession.i_completed_at PomodoroSession.i_type].
  assert (bind_value (js_or (b_task_id b) JNull)
          = Some (if truthy (b_task_id b) then v_task_id else VNull)) as ->.
  { unfold js_or. by destruct (truthy (b_task_id b)). }
  rewrite Hbd, Hbt. cbn [or_throw mbind bind_value].
  unfold insert_session.
  cbn [PomodoroSession.id PomodoroSession.task_id PomodoroSession.duration
       PomodoroSession.started_at PomodoroSession.completed_at PomodoroSession.type
       apply_affinity].
  assert (existsb (λ r', text_eq (VText id) (PomodoroSession.id r'))
            (pomodoro_sessions (store sv)) = false) as ->.
  { apply not_true_is_false. intros (s & Hs & E)%existsb_exists.
    rewrite text_eq_text in E. apply bool_decide_eq_true in E.
    by apply (Hfresh s); [apply list_elem_of_In|]. }
  assert (PomodoroSession.constraints_ok
            (PomodoroSession.mk (VText id)
               (apply_affinity TEXT (if truthy (b_task_id b) then v_task_id else VNull))
               (apply_affinity INTEGER v_duration) (VText now) VNull
               (apply_affinity TEXT v_type)) = true) as Hok.
  { unfold PomodoroSession.constraints_ok.
    cbn [PomodoroSession.duration PomodoroSession.started_at PomodoroSession.type].
    by rewrite !bool_decide_eq_false_2. }
  simpl. simpl in Hok. rewrite Hok.
  destruct Hfk as [-> | Hk].
  - simpl. by destruct (truthy (b_task_id b)).
  - rewrite Hk. simpl. by rewrite andb_false_r.
Qed.

(** X11. POST /api/pomodoro/sessions answers 400 and changes nothing when
    [duration] or [type] is missing or falsy (a duration of 0, an empty
    type). Otherwise, on a store without foreign-key enforcement and with an
    unused session id, it answers 200 and appends one row: started at the
    clock reading, not completed, with [task_id] NULL when none or a falsy
    one was given and the given one otherwise, whether or not a task of
    that id is stored. *)
Theorem POST_sessions_validation (id now : string) (b : SessionBody) (sv : Server) :
  (truthy (b_duration b) = false ∨ truthy (b_type b) = false →
   POST_sessions id now b sv
   = (mkResponse 400 (reply_error "Duration and type are required"), sv))
  ∧ (truthy (b_duration b) = true → truthy (b_type b) = true →
     b_duration b ≠ JObject → b_type b ≠ JObject → b_task_id b ≠ JObject →
     foreign_keys (store sv) = false →
     (∀ s, s ∈ pomodoro_sessions (store sv) → PomodoroSession.id s ≠ VText id) →
     ∃ v_task_id v_duration v_type,
       bind_value (b_task_id b) = Some v_task_id
       ∧ bind_value (b_duration b) = Some v_duration
       ∧ bind_value (b_type b) = Some v_type
       ∧ let session :=
           {| PomodoroSession.o_session :=
                {| PomodoroSession.i_task_id := js_or (b_task_id b) JNull;
                   PomodoroSession.i_duration := b_duration b;
                   PomodoroSession.i_started_at := JStr now;
                   PomodoroSession.i_completed_at := JNull;
                   PomodoroSession.i_type := b_type b |};
              PomodoroSession.o_id := id |} in
         POST_sessions id now b sv
         = (mkResponse 200 (reply_session session),
            {| store :=
                 with_sessions
                   (pomodoro_sessions (store sv) ++
                      [PomodoroSession.mk (VText id)
                         (if truthy (b_task_id b)
                          then apply_affinity TEXT v_task_id else VNull)
                         (apply_affinity INTEGER v_duration) (VText now) VNull
                         (apply_affinity TEXT v_type)])%list
                   (store sv);
               published := (published sv ++ [("pomodoro", session_started session)])%list |})).
Proof.
  split.
  - intros H. unfold POST_sessions.
    by destruct H as [-> | ->]; [|rewrite orb_true_r].
  - intros Hd Ht Hdo Hto Hko Hfk Hfresh.
    apply POST_sessions_inserted; auto.
Qed.

Lemma POST_sessions_validation_witness :
  POST_sessions "s1" "2025-01-06T09:05:00.000Z"
    {| b_task_id := JStr "t1"; b_duration := JNum 0; b_type := JStr "work" |} start
  = (mkResponse 400 (reply_error "Duration and type are required"), start)
  ∧ pomodoro_sessions
      (store (POST_sessions "s1" "2025-01-06T09:05:00.000Z"
                {| b_task_id := JStr "t1"; b_duration := JNum 1500; b_type := JStr "work" |}
                start).2)
    = [PomodoroSession.mk (VText "s1") (VText "t1") (VInt 1500)
         (VText "2025-01-06T09:05:00.000Z") VNull (VText "work")].
Proof.
  split.
  - apply (proj1 (POST_sessions_validation "s1" "2025-01-06T09:05:00.000Z"
                    {| b_task_id := JStr "t1"; b_duration := JNum 0; b_type := JStr "work" |}
                    start)).
    by left.
  - assert (∀ s, s ∈ pomodoro_sessions (store start) → PomodoroSession.id s ≠ VText "s1")
      as Hfresh.
    { intros s Hs. by apply elem_of_nil in Hs. }
    destruct (proj2 (POST_sessions_validation "s1" "2025-01-06T09:05:00.000Z"
                       {| b_task_id := JStr "t1"; b_duration := JNum 1500;
                          b_type := JStr "work" |} start)
                eq_refl eq_refl ltac:(discriminate) ltac:(discriminate)
                ltac:(discriminate) eq_refl Hfresh)
      as (v1 & v2 & v3 & H1 & H2 & H3 & H).
    injection H1 as <-. injection H2 as <-. injection H3 as <-.
    cbv zeta in H. rewrite H. reflexivity.
Defined.

(** X12. POST /api/pomodoro/sessions/:id/complete on an id that no session
    has answers 404 and leaves the server as it is, nothing published. On
    the id of a session of a consistent store it answers 200 with that
    session, completed at the clock reading and otherwise as stored, and
    publishes the same row. *)
Theorem POST_complete_found (now id : string) (sv : Server) :
  ((∀ s, s ∈ pomodoro_sessions (store sv) → PomodoroSession.id s ≠ VText id) →
   POST_complete now id sv = (mkResponse 404 (reply_error "Session not found"), sv))
  ∧ (∀ s, s ∈ pomodoro_sessions (store sv) → PomodoroSession.id s = VText id →
       consistent (store sv) →
       let s' := PomodoroSession.set_completed_at (VText now) s in
       (POST_complete now id sv).1 = mkResponse 200 (reply_session_row s')
       ∧ published (POST_complete now id sv).2
         = (published sv ++ [("pomodoro", session_completed s')])%list
       ∧ s' ∈ pomodoro_sessions (store (POST_complete now id sv).2)
       ∧ length (pomodoro_sessions (store (POST_complete now id sv).2))
         = length (pomodoro_sessions (store sv))).
Proof.
  set (sel := λ r, text_eq (VText id) (PomodoroSession.id r)).
  set (f := λ r, if sel r then PomodoroSession.set_completed_at (VText now) r else r).
  assert (∀ r, sel (f r) = sel r) as Hsel.
  { intros r. unfold f. by destruct (sel r) eqn:E. }
  assert (POST_complete now id sv
          = match List.find sel (map f (pomodoro_sessions (store sv))) with
            | None => (mkResponse 404 (reply_error "Session not found"),
                       with_store (with_sessions (map f (pomodoro_sessions (store sv)))
                                     (store sv)) sv)
            | Some session =>
                (mkResponse 200 (reply_session_row session),
                 publish "pomodoro" (session_completed session)
                   (with_store (with_sessions (map f (pomodoro_sessions (store sv)))
                                  (store sv)) sv))
            end) as Hpost by done.
  rewrite Hpost, find_map_preserved by done. split.
  - intros Hno.
    assert (map f (pomodoro_sessions (store sv)) = pomodoro_sessions (store sv)) as Hmap.
    { apply map_unchanged. intros r Hr. unfold f, sel. rewrite text_eq_text.
      by rewrite bool_decide_eq_false_2 by (by apply Hno). }
    destruct (List.find sel (pomodoro_sessions (store sv))) as [r|] eqn:Hf.
    + apply find_some in Hf as [Hr E]. unfold sel in E. rewrite text_eq_text in E.
      apply bool_decide_eq_true in E. by destruct (Hno r); [apply list_elem_of_In|].
    + simpl. rewrite Hmap, with_sessions_same. by destruct sv.
  - intros s Hs Hid Hcons s'.
    assert (List.find sel (pomodoro_sessions (store sv)) = Some s) as ->.
    { pose proof (unique_session_ids _ Hcons) as Hnd.
      revert Hs Hnd. generalize (pomodoro_sessions (store sv)). intros l.
      induction l as [|x l IH]; intros Hs Hnd; [by apply elem_of_nil in Hs|].
      cbn [fmap list_fmap] in Hnd. apply NoDup_cons in Hnd as [Hx Hnd]. simpl.
      unfold sel at 1. rewrite text_eq_text.
      apply elem_of_cons in Hs as [<-|Hs].
      - by rewrite bool_decide_eq_true_2.
      - rewrite bool_decide_eq_false_2; [by apply IH|].
        intros E. apply Hx. rewrite E, <- Hid. by apply list_elem_of_fmap_2. }
    assert (f s = s') as Hfs.
    { unfold f, sel. rewrite text_eq_text. by rewrite bool_decide_eq_true_2. }
    simpl. rewrite Hfs. split; [done|]. split; [done|]. split.
    + rewrite <- Hfs. change (map f ?l) with (f <$> l). by apply list_elem_of_fmap_2.
    + by rewrite length_map.
Qed.

Lemma POST_complete_found_witness :
  POST_complete "2025-01-06T09:30:00.000Z" "s1" start
  = (mkResponse 404 (reply_error "Session not found"), start)
  ∧ (POST_complete "2025-01-06T09:30:00.000Z" "s1" (serve referenced_task_run start)).1
    = mkResponse 200
        (reply_session_row
           (PomodoroSession.mk (VText "s1") (VText "t1") (VInt 1500)
              (VText "2025-01-06T09:05:00.000Z") (VText "2025-01-06T09:30:00.000Z")
              (VText "work"))).
Proof.
  split.
  - apply (proj1 (POST_complete_found "2025-01-06T09:30:00.000Z" "s1" start)).
    intros s Hs. by apply elem_of_nil in Hs.
  - apply (proj2 (POST_complete_found "2025-01-06T09:30:00.000Z" "s1"
                    (serve referenced_task_run start))
             (PomodoroSession.mk (VText "s1") (VText "t1") (VInt 1500)
                (VText "2025-01-06T09:05:00.000Z") VNull (VText "work"))).
    + vm_compute. left.
    + reflexivity.
    + apply serve_consistent, consistent_db.
Defined.

(** ** The timer: bounds, countdown and display *)

Section Countdown.
Import PomodoroTimer.

Lemma TIMER_DURATIONS_bounds (t : session_type) : 0 < TIMER_DURATIONS t ≤ 1500.
Proof. destruct t; simpl; lia. Qed.

Lemma step_timeLeft (a : action) (s : PomodoroState) :
  0 ≤ timeLeft s ≤ TIMER_DURATIONS (currentType s) →
  0 ≤ timeLeft (step a s) ≤ TIMER_DURATIONS (currentType (step a s)).
Proof.
  intros H. destruct a as [ |answer| | |t| ]; simpl.
  - lia.
  - by destruct answer.
  - done.
  - pose proof (TIMER_DURATIONS_bounds (currentType s)). lia.
  - unfold switchType. destruct (isRunning s); [done|]. simpl.
    pose proof (TIMER_DURATIONS_bounds t). lia.
  - match goal with |- context [TIMER_DURATIONS ?t] =>
      pose proof (TIMER_DURATIONS_bounds t) end. lia.
Qed.

Lemma run_timeLeft (acts : list action) (s : PomodoroState) :
  0 ≤ timeLeft s ≤ TIMER_DURATIONS (currentType s) →
  0 ≤ timeLeft (run acts s) ≤ TIMER_DURATIONS (currentType (run acts s)).
Proof.
  revert s. induction acts as [|a acts IH]; intros s Hs; [done|].
  apply (IH (step a s)), step_timeLeft, Hs.
Qed.

(** X13. Along any sequence of ticks and button actions from the initial
    state, the time left stays between 0 and the duration of the current
    session type, so never above 25 minutes. *)
Theorem timeLeft_bounds (acts : list action) :
  0 ≤ timeLeft (run acts initial)
    ≤ TIMER_DURATIONS (currentType (run acts initial))
  ∧ timeLeft (run acts initial) ≤ 1500.
Proof.
  pose proof (run_timeLeft acts initial) as H.
  pose proof (TIMER_DURATIONS_bounds (currentType (run acts initial))).
  simpl in H. lia.
Qed.

Lemma seconds_pass_stopped (k : nat) (s : PomodoroState) :
  interval_set s = false → seconds_pass k s = s.
Proof. intros H. destruct k; [done|]. simpl. by rewrite H. Qed.

Lemma completeSession_with_timeLeft (t : Z) (s : PomodoroState) :
  completeSession (with_timeLeft t s) = completeSession s.
Proof. done. Qed.

Lemma countdown_running (n k : nat) (s : PomodoroState) :
  isRunning s = true → timeLeft s = Z.of_nat n → (k < n)%nat →
  seconds_pass k s = with_timeLeft (Z.of_nat (n - k)) s.
Proof.
  revert n s. induction k as [|k IH]; intros n s Hrun Hn Hk.
  { simpl. rewrite Nat.sub_0_r, <- Hn. by destruct s. }
  assert (interval_set s = true) as Hi.
  { unfold interval_set. rewrite Hrun, Hn. simpl. apply Z.ltb_lt. lia. }
  simpl. rewrite Hi.
  assert (tick s = with_timeLeft (Z.of_nat (n - 1)) s) as Ht.
  { unfold tick, with_timeLeft. f_equal. lia. }
  assert (interval_set (tick s) = true) as Hi'.
  { rewrite Ht. unfold interval_set. simpl. rewrite Hrun. simpl. apply Z.ltb_lt. lia. }
  unfold effect. rewrite Hi', Ht.
  rewrite (IH (n - 1)%nat); [|done|done|lia].
  unfold with_timeLeft. simpl. f_equal. lia.
Qed.

Lemma seconds_pass_add (a b : nat) (s : PomodoroState) :
  seconds_pass (a + b) s = seconds_pass b (seconds_pass a s).
Proof.
  revert s. induction a as [|a IH]; intros s; [done|]. simpl.
  destruct (interval_set s) eqn:E; [apply IH|].
  by rewrite seconds_pass_stopped.
Qed.

Lemma countdown_last (n : nat) (s : PomodoroState) :
  isRunning s = true → timeLeft s = Z.of_nat (S n) →
  seconds_pass (S n) s = effect (with_timeLeft 0 s).
Proof.
  intros Hrun Hn. replace (S n) with (n + 1)%nat at 1 by lia.
  rewrite seconds_pass_add, (countdown_running (S n) n) by (done || lia).
  replace (S n - n)%nat with 1%nat by lia. simpl.
  unfold interval_set. simpl. by rewrite Hrun.
Qed.

(** X14. A running timer with [n] seconds left shows [n - k] seconds after
    [k < n] seconds, everything else unchanged. When the time is up and the
    timer holds a session id, [completeSession] runs once and the timer
    rests in the next session type. When it holds none (it was started
    locally after a failed request), it stays at 0, still running, and
    never moves on to the next session type. *)
Theorem countdown (n : nat) (s : PomodoroState) :
  isRunning s = true → timeLeft s = Z.of_nat n → (0 < n)%nat →
  (∀ k, (k < n)%nat → seconds_pass k s = with_timeLeft (Z.of_nat (n - k)) s)
  ∧ (has_session s = true →
     ∀ k, (n ≤ k)%nat → seconds_pass k s = completeSession s)
  ∧ (has_session s = false →
     ∀ k, (n ≤ k)%nat → seconds_pass k s = with_timeLeft 0 s).
Proof.
  intros Hrun Hn Hpos. split; [|split].
  - intros k Hk. by apply countdown_running.
  - intros Hs k Hk. destruct n as [|n]; [lia|].
    replace k with (S n + (k - S n))%nat by lia.
    rewrite seconds_pass_add, countdown_last by done.
    assert (effect (with_timeLeft 0 s) = completeSession s) as ->.
    { unfold effect, interval_set.
      change (has_session (with_timeLeft 0 s)) with (has_session s).
      cbn [timeLeft isRunning with_timeLeft]. by rewrite Hrun, Hs. }
    by apply seconds_pass_stopped.
  - intros Hs k Hk. destruct n as [|n]; [lia|].
    replace k with (S n + (k - S n))%nat by lia.
    rewrite seconds_pass_add, countdown_last by done.
    assert (effect (with_timeLeft 0 s) = with_timeLeft 0 s) as ->.
    { unfold effect, interval_set.
      change (has_session (with_timeLeft 0 s)) with (has_session s).
      cbn [timeLeft isRunning with_timeLeft]. by rewrite Hrun, Hs. }
    apply seconds_pass_stopped. unfold interval_set. simpl. by rewrite Hrun.
Qed.

Lemma two_digits_checked :
  forallb
    (λ x, match padStart 2 "0" (pretty x) with
          | String a (String b "") =>
              bool_decide (digits_value 0 (String a (String b "")) = Some x)
          | _ => false
          end)
    (seqZ 0 100) = true.
Proof. vm_compute. reflexivity. Qed.

Lemma two_digits (x : Z) :
  0 ≤ x < 100 →
  ∃ a b, padStart 2 "0" (pretty x) = String a (String b "")
         ∧ digits_value 0 (String a (String b "")) = Some x.
Proof.
  intros Hx.
  pose proof (proj1 (forallb_forall _ _) two_digits_checked x) as Hc.
  cbv beta in Hc.
  destruct (padStart 2 "0" (pretty x)) as [|a [|b [|c t]]];
    try (discriminate Hc; apply list_elem_of_In, elem_of_seqZ; lia).
  exists a, b. split; [done|].
  eapply bool_decide_eq_true_1, Hc, list_elem_of_In, elem_of_seqZ. lia.
Qed.

Lemma formatTime_below_6000 (seconds : Z) :
  0 ≤ seconds < 6000 →
  String.length (formatTime seconds) = 5%nat
  ∧ read_clock (formatTime seconds) = Some seconds.
Proof.
  intros Hs. unfold formatTime. cbv zeta.
  destruct (two_digits (seconds / 60)) as (m1 & m2 & Em & Hm).
  { split; [apply Z.div_pos; lia|apply Z.div_lt_upper_bound; lia]. }
  destruct (two_digits (Z.rem seconds 60)) as (s1 & s2 & Es & Hsec).
  { rewrite Z.rem_mod_nonneg by lia. pose proof (Z.mod_pos_bound seconds 60). lia. }
  rewrite Em, Es.
  change (String m1 (String m2 "") ++ ":" ++ String s1 (String s2 ""))
    with (String m1 (String m2 (String ":" (String s1 (String s2 ""))))).
  split; [done|]. unfold read_clock. rewrite Hm, Hsec. cbn [mbind option_bind].
  f_equal. rewrite Z.rem_mod_nonneg by lia. pose proof (Z.div_mod seconds 60). lia.
Qed.

(** X15. For every number of seconds below 100 minutes, [formatTime] gives
    five characters [MM:SS] that read back as that number; this covers
    every value the timer can show. At 100 minutes the display grows to six
    characters. *)
Theorem formatTime_clock :
  (∀ seconds : Z,
     0 ≤ seconds < 6000 →
     String.length (formatTime seconds) = 5%nat
     ∧ read_clock (formatTime seconds) = Some seconds)
  ∧ (∀ acts : list action,
       read_clock (formatTime (timeLeft (run acts initial)))
       = Some (timeLeft (run acts initial)))
  ∧ formatTime 6000 = "100:00".
Proof.
  pose proof formatTime_below_6000 as H.
  split; [done|]. split; [|by vm_compute].
  intros acts. apply H.
  pose proof (run_timeLeft acts initial) as Hb.
  pose proof (TIMER_DURATIONS_bounds (currentType (run acts initial))).
  simpl in Hb. lia.
Qed.

End Countdown.

Lemma countdown_witness :
  seconds_pass 1500
    (PomodoroTimer.startSession (PomodoroTimer.Created "s1") PomodoroTimer.initial)
  = PomodoroTimer.completeSession
      (PomodoroTimer.startSession (PomodoroTimer.Created "s1") PomodoroTimer.initial)
  ∧ seconds_pass 1500 (PomodoroTimer.startSession PomodoroTimer.Failed PomodoroTimer.initial)
    = with_timeLeft 0
        (PomodoroTimer.startSession PomodoroTimer.Failed PomodoroTimer.initial).
Proof.
  split.
  - apply (proj1 (proj2 (countdown 1500
                           (PomodoroTimer.startSession (PomodoroTimer.Created "s1")
                              PomodoroTimer.initial)
                           eq_refl eq_refl ltac:(lia))) eq_refl 1500%nat).
    lia.
  - apply (proj2 (proj2 (countdown 1500
                           (PomodoroTimer.startSession PomodoroTimer.Failed
                              PomodoroTimer.initial)
                           eq_refl eq_refl ltac:(lia))) eq_refl 1500%nat).
    lia.
Defined.

Lemma formatTime_clock_witness :
  read_clock (formatTime 1499) = Some 1499 ∧ formatTime 1499 = "24:59".
Proof.
  split; [|reflexivity].
  apply (proj1 formatTime_clock 1499). lia.
Defined.

(** ** Drag and drop *)

Lemma splice_out_perm {A} (i : nat) (x : A) (l : list A) :
  l !! i = Some x → x :: splice_out i l ≡ₚ l.
Proof.
  intros Hi. unfold splice_out.
  rewrite <- (take_drop_middle l i x Hi) at 3. apply Permutation_middle.
Qed.

Lemma splice_in_perm {A} (i : nat) (x : A) (l : list A) : splice_in i x l ≡ₚ x :: l.
Proof.
  unfold splice_in. rewrite <- Permutation_middle. by rewrite take_drop.
Qed.

Lemma splice_in_lookup {A} (i : nat) (x : A) (l : list A) :
  (i ≤ length l)%nat → splice_in i x l !! i = Some x.
Proof.
  intros Hi. unfold splice_in. apply list_lookup_middle. rewrite length_take. lia.
Qed.

Lemma splice_out_length {A} (i : nat) (x : A) (l : list A) :
  l !! i = Some x → S (length (splice_out i l)) = length l.
Proof.
  intros Hi. change (length (x :: splice_out i l) = length l).
  apply Permutation_length, splice_out_perm, Hi.
Qed.

Lemma filter_middle_out {A} (P : A → Prop) `{!∀ x, Decision (P x)}
    (l1 l2 : list A) (x : A) :
  ¬ P x → filter P (l1 ++ x :: l2)%list = filter P (l1 ++ l2)%list.
Proof. intros Hx. by rewrite !filter_app, filter_cons_False. Qed.

Lemma handleDrop_Some {A} (id : A → string) (tasks : list A)
    (draggedTask : option string) (dropIndex : nat) (ids : list string) :
  handleDrop id tasks draggedTask dropIndex = Some ids →
  ∃ dragged dragIndex draggedItem,
    draggedTask = Some dragged ∧ dragged ≠ ""
    ∧ tasks !! dragIndex = Some draggedItem ∧ id draggedItem = dragged
    ∧ dragIndex ≠ dropIndex
    ∧ ids = id <$> splice_in dropIndex draggedItem (splice_out dragIndex tasks).
Proof.
  unfold handleDrop. destruct draggedTask as [dragged|]; [|done].
  destruct (truthy (JStr dragged)) eqn:Ht; [|done]. cbn [negb].
  destruct (list_find _ tasks) as [[dragIndex draggedItem]|] eqn:Hf; [|done].
  apply list_find_Some in Hf as (Hi & Hid & _).
  destruct (Nat.eqb_spec dragIndex dropIndex) as [|Hne]; [done|].
  intros [= <-]. exists dragged, dragIndex, draggedItem.
  split; [done|]. split; [by intros ->|done].
Qed.

Lemma handleDrop_perm {A} (id : A → string) (tasks : list A)
    (draggedTask : option string) (dropIndex : nat) (ids : list string) :
  handleDrop id tasks draggedTask dropIndex = Some ids → ids ≡ₚ id <$> tasks.
Proof.
  intros (dragged & i & x & -> & _ & Hi & Hid & _ & ->)%handleDrop_Some.
  by rewrite splice_in_perm, (splice_out_perm i x tasks Hi).
Qed.

Lemma NoDup_fmap_elem_inj {A B} (f : A → B) (l : list A) (x y : A) :
  NoDup (f <$> l) → x ∈ l → y ∈ l → f x = f y → x = y.
Proof.
  intros Hnd (i & Hi)%list_elem_of_lookup_1 (j & Hj)%list_elem_of_lookup_1 E.
  assert (i = j) as ->; [|congruence].
  apply (NoDup_lookup (f <$> l) i j (f x)); [done|..]; rewrite list_lookup_fmap.
  - by rewrite Hi.
  - rewrite Hj. simpl. by f_equal.
Qed.

(** X16. When [handleDrop] reorders, the ids it hands to [onReorder] are
    the ids of the list shown, each as often as before; the dragged id
    stands at the drop position; the other ids keep their order; and
    distinct ids stay distinct. Dropping a task on its own position, an id
    that is not in the list, or no dragged task hands over nothing. *)
Theorem handleDrop_order {A} (id : A → string) (tasks : list A) (dropIndex : nat) :
  (∀ draggedTask ids,
     handleDrop id tasks draggedTask dropIndex = Some ids →
     ∃ dragged,
       draggedTask = Some dragged
       ∧ ids ≡ₚ id <$> tasks
       ∧ ((dropIndex < length tasks)%nat → ids !! dropIndex = Some dragged)
       ∧ filter (λ x, x ≠ dragged) ids = filter (λ x, x ≠ dragged) (id <$> tasks)
       ∧ (NoDup (id <$> tasks) → NoDup ids))
  ∧ (∀ task, tasks !! dropIndex = Some task → NoDup (id <$> tasks) →
       handleDrop id tasks (Some (id task)) dropIndex = None)
  ∧ (∀ dragged, dragged ∉ id <$> tasks →
       handleDrop id tasks (Some dragged) dropIndex = None)
  ∧ handleDrop id tasks None dropIndex = None.
Proof.
  split; [|split; [|split; [|done]]].
  - intros draggedTask ids
      (dragged & i & x & -> & _ & Hi & Hid & _ & ->)%handleDrop_Some.
    exists dragged. split; [done|].
    assert (id <$> splice_in dropIndex x (splice_out i tasks) ≡ₚ id <$> tasks) as Hperm.
    { by rewrite splice_in_perm, (splice_out_perm i x tasks Hi). }
    split; [done|]. split; [|split].
    + intros Hd. rewrite list_lookup_fmap, splice_in_lookup; [by rewrite <- Hid|].
      pose proof (splice_out_length i x tasks Hi). lia.
    + unfold splice_in. rewrite fmap_app, fmap_cons.
      rewrite filter_middle_out by (intros H; by apply H).
      rewrite <- fmap_app, take_drop. unfold splice_out.
      rewrite <- (take_drop_middle tasks i x Hi) at 3.
      rewrite !fmap_app, fmap_cons.
      by rewrite (filter_middle_out _ _ _ (id x)) by (intros H; by apply H).
    + intros Hnd. by rewrite Hperm.
  - intros task Hi Hnd. unfold handleDrop.
    destruct (truthy (JStr (id task))); [|done]. cbn [negb].
    destruct (list_find _ tasks) as [[j y]|] eqn:Hf; [|done].
    apply list_find_Some in Hf as (Hj & Hid & _).
    assert (j = dropIndex) as ->; [|by rewrite Nat.eqb_refl].
    apply (NoDup_lookup (id <$> tasks) j dropIndex (id task)); [done|..];
      rewrite list_lookup_fmap; [by rewrite Hj; simpl; f_equal|by rewrite Hi].
  - intros dragged Hno. unfold handleDrop.
    destruct (truthy (JStr dragged)); [|done]. cbn [negb].
    destruct (list_find _ tasks) as [[j y]|] eqn:Hf; [|done].
    apply list_find_Some in Hf as (Hj & Hid & _).
    destruct Hno. rewrite <- Hid. apply list_elem_of_fmap_2.
    by eapply list_elem_of_lookup_2.
Qed.

Lemma handleDrop_order_witness :
  ["C"; "A"; "B"] !! 0%nat = Some "C"
  ∧ ["C"; "A"; "B"] ≡ₚ row_id <$> getTasksByDay "monday" three_tasks.
Proof.
  destruct (proj1 (handleDrop_order row_id (getTasksByDay "monday" three_tasks) 0)
              (Some "C") ["C"; "A"; "B"] eq_refl)
    as (dragged & Hd & Hperm & Hlook & _).
  injection Hd as <-. split; [|exact Hperm].
  apply Hlook. vm_compute. lia.
Defined.

(** ** From a drop to the listing *)

Lemma row_id_text (d : Database) (r : Task.row) :
  consistent d → r ∈ tasks d → Task.id r = VText (row_id r).
Proof.
  intros Hcons Hr.
  destruct (proj1 (Forall_forall _ _) (task_ids_text _ Hcons) r Hr) as [x Hx].
  unfold row_id. by rewrite Hx.
Qed.

Lemma getTasksByDay_elem (day : string) (d : Database) (r : Task.row) :
  r ∈ getTasksByDay day d ↔ r ∈ tasks d ∧ Task.day r = VText day.
Proof.
  rewrite getTasksByDay_filter. unfold tasks_of_day. rewrite list_elem_of_filter. tauto.
Qed.

Lemma getTasksByDay_ids (day : string) (d : Database) :
  consistent d →
  Task.id <$> getTasksByDay day d = VText <$> (row_id <$> getTasksByDay day d)
  ∧ NoDup (row_id <$> getTasksByDay day d).
Proof.
  intros Hcons.
  assert (Task.id <$> getTasksByDay day d = VText <$> (row_id <$> getTasksByDay day d)) as E.
  { rewrite <- list_fmap_compose. apply list_fmap_ext. intros i r Hr. simpl.
    apply (row_id_text d); [done|].
    apply list_elem_of_lookup_2 in Hr. by apply getTasksByDay_elem in Hr as [Hr _]. }
  split; [done|].
  apply (NoDup_fmap_1 VText). rewrite <- E, getTasksByDay_filter.
  apply filter_fmap_NoDup, Hcons.
Qed.

Lemma filter_fmap_unchanged {A} (P : A → Prop) `{!∀ x, Decision (P x)}
    (f : A → A) (l : list A) :
  (∀ x, x ∈ l → P (f x) ↔ P x) → (∀ x, x ∈ l → P x → f x = x) →
  filter P (f <$> l) = filter P l.
Proof.
  induction l as [|x l IH]; intros H1 H2; [done|]. cbn [fmap list_fmap].
  assert (filter P (f <$> l) = filter P l) as IH'.
  { apply IH; intros y Hy; [apply H1|apply H2]; by right. }
  destruct (decide (P x)) as [Hx|Hx].
  - rewrite (H2 x) by (done || left). rewrite !filter_cons_True by done. by f_equal.
  - rewrite !filter_cons_False; [done|done|]. rewrite H1; [done|left].
Qed.

(** X17. The task list of a day is shown in some order, a task is dragged
    to another position, and the ids that [handleDrop] hands over are sent
    by the client's [reorderTasks]. On a consistent store the server
    answers 200, and [getTasksByDay] then lists the tasks of that day in
    exactly the order of the drop; the listing of every other day is the
    list it was. *)
Theorem drop_saved (day : string) (draggedTask : option string) (dropIndex : nat)
    (shown : list Task.row) (ids : list string) (sv : Server) :
  consistent (store sv) →
  day ∈ DAYS →
  shown ≡ₚ getTasksByDay day (store sv) →
  handleDrop row_id shown draggedTask dropIndex = Some ids →
  let sv' := (client_reorderTasks day ids sv).2 in
  status (client_reorderTasks day ids sv).1 = 200
  ∧ Task.id <$> getTasksByDay day (store sv') = VText <$> ids
  ∧ (∀ day', day' ≠ day →
       getTasksByDay day' (store sv') = getTasksByDay day' (store sv)).
Proof.
  intros Hcons Hday Hshown Hdrop sv'.
  pose proof (handleDrop_perm row_id shown draggedTask dropIndex ids Hdrop) as Hperm.
  pose proof (getTasksByDay_ids day (store sv) Hcons) as [Hids Hnodup].
  assert (ids ≡ₚ row_id <$> getTasksByDay day (store sv)) as Hperm'.
  { by rewrite Hperm, Hshown. }
  assert (NoDup ids) as Hdistinct by (by rewrite Hperm').
  assert (∀ x, x ∈ ids → belongs_to day (store sv) x) as Hof.
  { intros x Hx. rewrite Hperm' in Hx.
    apply list_elem_of_fmap in Hx as (r & -> & [Hr Hd]%getTasksByDay_elem).
    exists r. split; [done|]. split; [by apply (row_id_text (store sv))|done]. }
  set (d' := with_tasks (renumber 0 ids <$> tasks (store sv)) (store sv)).
  assert (client_reorderTasks day ids sv
          = (mkResponse 200 reply_success,
             publish "tasks" (tasks_reordered (JStr day) (JStr <$> ids))
               (with_store d' sv))) as Hpost.
  { unfold client_reorderTasks, POST_reorder. cbn [b_taskIds b_reorder_day].
    rewrite truthy_JStr.
    - cbn [negb]. by rewrite reorderTasks_result.
    - intros ->. apply list_elem_of_In in Hday. simpl in Hday.
      repeat destruct Hday as [Hday|Hday]; done. }
  subst sv'. rewrite Hpost. cbn [fst snd status store publish with_store].
  split; [done|]. split.
  - rewrite <- (listing_ids day ids (store sv)) by done. fold d'. f_equal.
    symmetry. apply filter_Forall_id, Forall_forall. intros r Hr.
    apply listed_row in Hr as (r0 & Hr0 & -> & Hd).
    rewrite renumber_id, (row_id_text (store sv) r0) by done.
    apply list_elem_of_fmap_2. rewrite Hperm'. apply list_elem_of_fmap_2.
    by apply getTasksByDay_elem.
  - intros day' Hne. unfold getTasksByDay. f_equal. subst d'. cbn [tasks with_tasks].
    apply (filter_fmap_unchanged (λ r, text_eq (VText day') (Task.day r))).
    + intros r Hr.
      change (Task.day (renumber 0 ids r)) with (Task.get Task.Day (renumber 0 ids r)).
      by rewrite renumber_frame.
    + intros r Hr Hd. apply renumber_unmentioned. intros x Hx E.
      destruct (Hof x Hx) as (r1 & Hr1 & Hid1 & Hd1).
      assert (r1 = r) as ->.
      { apply (NoDup_fmap_elem_inj Task.id (tasks (store sv))); [apply Hcons|done..|congruence]. }
      apply Is_true_true in Hd. rewrite Hd1, text_eq_text_false in Hd; [done|].
      by intros ->.
Qed.

Lemma drop_saved_witness :
  Task.id <$> getTasksByDay "monday"
                (store (client_reorderTasks "monday" ["C"; "A"; "B"]
                          {| store := three_tasks; published := [] |}).2)
  = VText <$> ["C"; "A"; "B"].
Proof.
  apply (drop_saved "monday" (Some "C") 0 (getTasksByDay "monday" three_tasks)
           ["C"; "A"; "B"] {| store := three_tasks; published := [] |}).
  - apply serve_consistent, consistent_db.
  - apply list_elem_of_In. simpl. tauto.
  - reflexivity.
  - reflexivity.
Defined.

(** ** The client's view after a reordering *)

Lemma find_id_Some {A K} `{EqDecision K} (id : A → K) (x : K) (l : list A) (t : A) :
  List.find (λ task, bool_decide (id task = x)) l = Some t → t ∈ l ∧ id t = x.
Proof.
  intros [Ht E]%find_some. split; [by apply list_elem_of_In|].
  by apply bool_decide_eq_true in E.
Qed.

Lemma find_id_None {A K} `{EqDecision K} (id : A → K) (x : K) (l : list A) :
  List.find (λ task, bool_decide (id task = x)) l = None → x ∉ id <$> l.
Proof.
  intros Hf (t & -> & Ht)%list_elem_of_fmap.
  apply list_elem_of_In in Ht.
  pose proof (find_none _ _ Hf t Ht) as E. cbv beta in E.
  by rewrite bool_decide_eq_true_2 in E.
Qed.

Lemma tasks_reordered_view_ids {A K} `{EqDecision K} (id : A → K) (taskIds : list K)
    (prev_day : list A) :
  id <$> tasks_reordered_view id taskIds prev_day
  = filter (λ x, x ∈ id <$> prev_day) taskIds.
Proof.
  unfold tasks_reordered_view. induction taskIds as [|x taskIds IH]; [done|].
  cbn [omap list_omap].
  destruct (List.find _ prev_day) as [t|] eqn:Hf.
  - apply find_id_Some in Hf as [Ht Hx]. rewrite filter_cons_True.
    + cbn [fmap list_fmap]. rewrite Hx. f_equal. exact IH.
    + rewrite <- Hx. by apply list_elem_of_fmap_2.
  - apply find_id_None in Hf. by rewrite filter_cons_False.
Qed.

Lemma tasks_reordered_view_elem {A K} `{EqDecision K} (id : A → K) (taskIds : list K)
    (prev_day : list A) (t : A) :
  t ∈ tasks_reordered_view id taskIds prev_day → t ∈ prev_day ∧ id t ∈ taskIds.
Proof.
  unfold tasks_reordered_view. intros (x & Hx & Hf)%list_elem_of_omap.
  apply find_id_Some in Hf as [Ht E]. by rewrite E.
Qed.

Lemma tasks_reordered_view_same {A K} `{EqDecision K} (id : A → K) (taskIds : list K)
    (prev_day : list A) :
  NoDup (id <$> prev_day) → taskIds ≡ₚ id <$> prev_day →
  id <$> tasks_reordered_view id taskIds prev_day = taskIds
  ∧ tasks_reordered_view id taskIds prev_day ≡ₚ prev_day.
Proof.
  intros Hnd Hperm.
  assert (id <$> tasks_reordered_view id taskIds prev_day = taskIds) as Hids.
  { rewrite tasks_reordered_view_ids. apply filter_Forall_id, Forall_forall.
    intros x Hx. by rewrite <- Hperm. }
  split; [done|]. apply NoDup_Permutation.
  - apply (NoDup_fmap_1 id). rewrite Hids, Hperm. done.
  - by apply (NoDup_fmap_1 id).
  - intros t. split; [by intros [Ht _]%tasks_reordered_view_elem|].
    intros Ht.
    assert (id t ∈ id <$> tasks_reordered_view id taskIds prev_day) as Hin.
    { rewrite Hids, Hperm. by apply list_elem_of_fmap_2. }
    apply list_elem_of_fmap in Hin as (t' & E & Ht').
    pose proof (tasks_reordered_view_elem _ _ _ _ Ht') as [Hp _].
    by rewrite (NoDup_fmap_elem_inj id prev_day t t' Hnd Ht Hp E).
Qed.

(** X18. On a [tasks_reordered] message the client keeps, in the order of
    the message, the tasks of its list that the message names, and nothing
    else: a task of the list that the message leaves out disappears from
    the view, and an id the list does not hold is skipped. When the ids of
    the list are distinct and the message carries them in some order, as
    it does after a drop on that list, the view afterwards holds the same
    tasks in the order of the message. *)
Theorem tasks_reordered_view_order {A} (id : A → string) (taskIds : list string)
    (prev_day : list A) :
  id <$> tasks_reordered_view id taskIds prev_day
  = filter (λ x, x ∈ id <$> prev_day) taskIds
  ∧ (∀ t, t ∈ tasks_reordered_view id taskIds prev_day → t ∈ prev_day ∧ id t ∈ taskIds)
  ∧ (NoDup (id <$> prev_day) → taskIds ≡ₚ id <$> prev_day →
     id <$> tasks_reordered_view id taskIds prev_day = taskIds
     ∧ tasks_reordered_view id taskIds prev_day ≡ₚ prev_day)
  ∧ (∀ draggedTask dropIndex,
       NoDup (id <$> prev_day) →
       handleDrop id prev_day draggedTask dropIndex = Some taskIds →
       id <$> tasks_reordered_view id taskIds prev_day = taskIds
       ∧ tasks_reordered_view id taskIds prev_day ≡ₚ prev_day).
Proof.
  split; [apply tasks_reordered_view_ids|]. split; [apply tasks_reordered_view_elem|].
  split; [apply tasks_reordered_view_same|]. intros draggedTask dropIndex Hnd Hdrop.
  apply tasks_reordered_view_same; [done|]. by eapply handleDrop_perm.
Qed.

Lemma tasks_reordered_view_order_witness :
  row_id <$> tasks_reordered_view row_id ["C"; "A"; "B"]
               (getTasksByDay "monday" three_tasks)
  = ["C"; "A"; "B"].
Proof.
  apply (proj2 (proj2 (proj2 (tasks_reordered_view_order row_id ["C"; "A"; "B"]
                                (getTasksByDay "monday" three_tasks))))
           (Some "C") 0%nat).
  - apply (bool_decide_unpack _). by vm_compute.
  - reflexivity.
Defined.

(** ** The timer against the server *)

Section TimerServer.
Import PomodoroTimer.

Lemma click_start_created (id now : string) (s : PomodoroState) (sv : Server) :
  (∀ r, r ∈ pomodoro_sessions (store sv) → PomodoroSession.id r ≠ VText id) →
  ∃ o,
    click_start id now s sv
    = (startSession (Created id) s,
       {| store :=
            with_sessions
              (pomodoro_sessions (store sv) ++
                 [timer_session id (currentType s) now VNull])%list
              (store sv);
          published := (published sv ++ [("pomodoro", session_started o)])%list |}).
Proof.
  intros Hfresh.
  destruct (POST_sessions_inserted id now (startSession_body s) sv)
    as (v1 & v2 & v3 & H1 & H2 & H3 & H); try done.
  - unfold startSession_body. cbn [b_duration]. by destruct (currentType s).
  - unfold startSession_body. cbn [b_type]. by destruct (currentType s).
  - by right.
  - injection H1 as <-. injection H2 as <-. injection H3 as <-.
    eexists. unfold click_start. cbv zeta in H. rewrite H.
    cbn [body PomodoroSession.o_id]. unfold timer_session.
    by destruct (currentType s).
Qed.

Lemma POST_complete_last (now id : string) (sv : Server)
    (rows : list PomodoroSession.row) (r : PomodoroSession.row) :
  pomodoro_sessions (store sv) = (rows ++ [r])%list →
  (∀ r', r' ∈ rows → PomodoroSession.id r' ≠ VText id) →
  PomodoroSession.id r = VText id →
  POST_complete now id sv
  = (mkResponse 200 (reply_session_row (PomodoroSession.set_completed_at (VText now) r)),
     {| store :=
          with_sessions (rows ++ [PomodoroSession.set_completed_at (VText now) r])%list
            (store sv);
        published :=
          (published sv ++
             [("pomodoro",
               session_completed (PomodoroSession.set_completed_at (VText now) r))])%list |}).
Proof.
  intros Hrows Hfresh Hid.
  set (sel := λ r, text_eq (VText id) (PomodoroSession.id r)).
  set (f := λ r, if sel r then PomodoroSession.set_completed_at (VText now) r else r).
  assert (map f (pomodoro_sessions (store sv))
          = (rows ++ [PomodoroSession.set_completed_at (VText now) r])%list) as Hmap.
  { rewrite Hrows, map_app. f_equal.
    - apply map_unchanged. intros r' Hr'. unfold f, sel. rewrite text_eq_text.
      by rewrite bool_decide_eq_false_2 by (by apply Hfresh).
    - simpl. unfold f, sel. rewrite text_eq_text. by rewrite bool_decide_eq_true_2. }
  assert (POST_complete now id sv
          = match List.find sel (map f (pomodoro_sessions (store sv))) with
            | None => (mkResponse 404 (reply_error "Session not found"),
                       with_store (with_sessions (map f (pomodoro_sessions (store sv)))
                                     (store sv)) sv)
            | Some session =>
                (mkResponse 200 (reply_session_row session),
                 publish "pomodoro" (session_completed session)
                   (with_store (with_sessions (map f (pomodoro_sessions (store sv)))
                                  (store sv)) sv))
            end) as -> by done.
  rewrite Hmap, find_last; [done| |].
  - intros r' Hr'. unfold sel. rewrite text_eq_text.
    by apply bool_decide_eq_false_2, Hfresh.
  - unfold sel. rewrite text_eq_text. by apply bool_decide_eq_true_2.
Qed.

(** X19. A session the timer starts and completes leaves one row on the
    server. Start, with a session id the server has not used, puts the
    timer in the running state holding that id and appends a session
    without task, with the full duration of the current type, started at
    the clock reading and not completed. [completeSession] then sets
    [completed_at] of that row and of no other, moves the timer to the next
    type, and the two events are published in this order. *)
Theorem timer_session_recorded (id now now' : string) (s : PomodoroState) (sv : Server) :
  id ≠ "" →
  (∀ r, r ∈ pomodoro_sessions (store sv) → PomodoroSession.id r ≠ VText id) →
  let started := click_start id now s sv in
  let completed := complete_on_server now' started.1 started.2 in
  started.1 = startSession (Created id) s
  ∧ pomodoro_sessions (store started.2)
    = (pomodoro_sessions (store sv) ++ [timer_session id (currentType s) now VNull])%list
  ∧ completed.1 = completeSession s
  ∧ pomodoro_sessions (store completed.2)
    = (pomodoro_sessions (store sv)
         ++ [timer_session id (currentType s) now (VText now')])%list
  ∧ tasks (store completed.2) = tasks (store sv)
  ∧ ∃ e1 e2,
      published completed.2
      = (published sv ++ [("pomodoro", session_started e1);
                          ("pomodoro", session_completed e2)])%list.
Proof.
  intros Hid Hfresh started completed.
  destruct (click_start_created id now s sv Hfresh) as (e & Hstart).
  subst completed started. rewrite Hstart. cbn [fst snd].
  split; [done|]. split; [done|].
  unfold complete_on_server. cbn [startSession currentSessionId].
  rewrite truthy_JStr by done.
  rewrite (POST_complete_last now' id _ (pomodoro_sessions (store sv))
             (timer_session id (currentType s) now VNull)); [|done|done|done].
  cbn [fst snd store published with_sessions pomodoro_sessions tasks].
  split; [done|]. split; [done|]. split; [done|].
  eexists _, _. by rewrite <- app_assoc.
Qed.

(** X20. Pausing a running timer and pressing Start again sends a second
    session request: the timer resumes at the time it was paused with the
    id of the new session, and when it completes, only the new session is
    marked completed. The session of the first start stays in the store
    without [completed_at], and both rows carry the full duration of the
    session type. *)
Theorem resume_starts_another_session (id1 id2 now1 now2 now3 : string) (n k : nat)
    (s : PomodoroState) (sv : Server) :
  id1 ≠ id2 → id2 ≠ "" →
  (∀ r, r ∈ pomodoro_sessions (store sv) →
        PomodoroSession.id r ≠ VText id1 ∧ PomodoroSession.id r ≠ VText id2) →
  timeLeft s = Z.of_nat n → (k < n)%nat →
  let started := click_start id1 now1 s sv in
  let paused := pauseTimer (seconds_pass k started.1) in
  let resumed := click_start id2 now2 paused started.2 in
  let completed := complete_on_server now3 resumed.1 resumed.2 in
  timeLeft resumed.1 = Z.of_nat (n - k)
  ∧ isRunning resumed.1 = true
  ∧ currentSessionId resumed.1 = Some id2
  ∧ completed.1 = completeSession s
  ∧ pomodoro_sessions (store completed.2)
    = (pomodoro_sessions (store sv)
         ++ [timer_session id1 (currentType s) now1 VNull;
             timer_session id2 (currentType s) now2 (VText now3)])%list.
Proof.
  intros Hne Hid2 Hfresh Hn Hk started paused resumed completed.
  destruct (click_start_created id1 now1 s sv) as (o1 & Hstart).
  { intros r Hr. by apply Hfresh. }
  subst completed resumed paused started. rewrite Hstart. cbn [fst snd].
  rewrite (countdown_running n k) by done.
  set (paused := pauseTimer (with_timeLeft (Z.of_nat (n - k)) (startSession (Created id1) s))).
  match goal with |- context [click_start id2 now2 paused ?sv1] =>
    destruct (click_start_created id2 now2 paused sv1) as (o2 & Hresume) end.
  { cbn [store pomodoro_sessions with_sessions]. intros r [Hr|Hr]%elem_of_app.
    - by apply Hfresh.
    - apply list_elem_of_singleton in Hr as ->. cbn. by intros [= ->]. }
  rewrite Hresume. cbn [fst snd].
  split; [done|]. split; [done|]. split; [done|].
  unfold complete_on_server. cbn [startSession currentSessionId].
  rewrite truthy_JStr by done.
  rewrite (POST_complete_last now3 id2 _
             (pomodoro_sessions (store sv) ++ [timer_session id1 (currentType s) now1 VNull])
             (timer_session id2 (currentType s) now2 VNull)); [| done | | done].
  - cbn [fst snd store pomodoro_sessions with_sessions].
    split; [done|]. by rewrite <- app_assoc.
  - intros r [Hr|Hr]%elem_of_app.
    + by apply Hfresh.
    + apply list_elem_of_singleton in Hr as ->. cbn. by intros [= ->].
Qed.

End TimerServer.

Lemma timer_session_recorded_witness :
  pomodoro_sessions
    (store (complete_on_server "2025-01-06T09:30:00.000Z"
              (click_start "s1" "2025-01-06T09:05:00.000Z" PomodoroTimer.initial start).1
              (click_start "s1" "2025-01-06T09:05:00.000Z" PomodoroTimer.initial start).2).2)
  = [PomodoroSession.mk (VText "s1") VNull (VInt 1500) (VText "2025-01-06T09:05:00.000Z")
       (VText "2025-01-06T09:30:00.000Z") (VText "work")].
Proof.
  assert (∀ r, r ∈ pomodoro_sessions (store start) → PomodoroSession.id r ≠ VText "s1")
    as Hfresh.
  { intros r Hr. by apply elem_of_nil in Hr. }
  destruct (timer_session_recorded "s1" "2025-01-06T09:05:00.000Z"
              "2025-01-06T09:30:00.000Z" PomodoroTimer.initial start
              ltac:(discriminate) Hfresh) as (_ & _ & _ & H & _).
  exact H.
Defined.

Lemma resume_starts_another_session_witness :
  pomodoro_sessions
    (store
       (complete_on_server "2025-01-06T09:40:00.000Z"
          (click_start "s2" "2025-01-06T09:15:00.000Z"
             (PomodoroTimer.pauseTimer
                (seconds_pass 10
                   (click_start "s1" "2025-01-06T09:05:00.000Z"
                      PomodoroTimer.initial start).1))
             (click_start "s1" "2025-01-06T09:05:00.000Z" PomodoroTimer.initial start).2).1
          (click_start "s2" "2025-01-06T09:15:00.000Z"
             (PomodoroTimer.pauseTimer
                (seconds_pass 10
                   (click_start "s1" "2025-01-06T09:05:00.000Z"
                      PomodoroTimer.initial start).1))
             (click_start "s1" "2025-01-06T09:05:00.000Z" PomodoroTimer.initial start).2).2).2)
  = [PomodoroSession.mk (VText "s1") VNull (VInt 1500) (VText "2025-01-06T09:05:00.000Z")
       VNull (VText "work");
     PomodoroSession.mk (VText "s2") VNull (VInt 1500) (VText "2025-01-06T09:15:00.000Z")
       (VText "2025-01-06T09:40:00.000Z") (VText "work")].
Proof.
  assert (∀ r, r ∈ pomodoro_sessions (store start) →
               PomodoroSession.id r ≠ VText "s1" ∧ PomodoroSession.id r ≠ VText "s2")
    as Hfresh.
  { intros r Hr. by apply elem_of_nil in Hr. }
  destruct (resume_starts_another_session "s1" "s2" "2025-01-06T09:05:00.000Z"
              "2025-01-06T09:15:00.000Z" "2025-01-06T09:40:00.000Z" 1500 10
              PomodoroTimer.initial start
              ltac:(discriminate) ltac:(discriminate) Hfresh eq_refl ltac:(lia))
    as (_ & _ & _ & _ & H).
  exact H.
Defined.

(** ** The checkbox of a task *)

Lemma toggle_compiled (now id : string) (b : bool) :
  compile_set (updateTask_params id now [("completed", JBool b)])
    (updateTask_set_clause [("completed", JBool b)])
  = Returned [(Task.Completed, VInt (if b then 1 else 0)); (Task.Updated_at, VText now)].
Proof. by destruct b; vm_compute. Qed.

Lemma getTask_Some (id : string) (d : Database) (r : Task.row) :
  getTask id d = Some r → r ∈ tasks d ∧ Task.id r = VText id.
Proof.
  unfold getTask. intros [Hr E]%find_some. split; [by apply list_elem_of_In|].
  rewrite text_eq_text in E. by apply bool_decide_eq_true in E.
Qed.

Lemma PUT_toggle (now id : string) (sv : Server) (r : Task.row) :
  consistent (store sv) → getTask id (store sv) = Some r →
  ∃ sv',
    PUT_task now id (handleToggleComplete (js_of_value (Task.completed r))) sv
    = (mkResponse 200 (reply_task_row (toggled now r)), sv')
    ∧ getTask id (store sv') = Some (toggled now r)
    ∧ consistent (store sv')
    ∧ published sv' = (published sv ++ [("tasks", task_updated (toggled now r))])%list.
Proof.
  intros Hcons Hget. destruct (getTask_Some _ _ _ Hget) as [Hr Hid].
  set (b := negb (truthy (js_of_value (Task.completed r)))).
  destruct (updateTask_stored now id [("completed", JBool b)] (store sv))
    as (asg & r0 & Hasg & Hget0 & Hupd).
  - done.
  - repeat constructor. by intros ?%elem_of_nil.
  - by intros [= ]%list_elem_of_singleton.
  - constructor; [|constructor]. exists Task.Completed, (VInt (if b then 1 else 0)).
    split; [done|]. by split; [destruct b|].
  - apply Hcons.
  - by exists r.
  - rewrite toggle_compiled in Hasg. injection Hasg as <-.
    rewrite Hget in Hget0. injection Hget0 as <-.
    assert (assign [(Task.Completed, VInt (if b then 1 else 0));
                    (Task.Updated_at, VText now)] r = toggled now r) as Hrow.
    { unfold assign, toggled, b. simpl.
      by destruct (truthy (js_of_value (Task.completed r))). }
    rewrite Hrow in Hupd.
    pose proof (handle_consistent
                  (Update now id (handleToggleComplete (js_of_value (Task.completed r))))
                  sv Hcons) as Hcons'.
    assert (∃ d, updateTask now id [("completed", JBool b)] (store sv)
                 = Returned (Some (toggled now r), d)
                 ∧ getTask id d = Some (toggled now r)) as (d & Hd & Hgd).
    { eexists. split; [exact Hupd|].
      symmetry. exact (updateTask_reads_back _ _ _ _ _ _ Hupd). }
    cbn [handle] in Hcons'. unfold PUT_task, handleToggleComplete in *. fold b in Hcons'.
    fold b. rewrite Hd in *. eexists. split; [reflexivity|]. done.
Qed.

(** X21. Ticking the checkbox of a stored task sends
    [{ completed: !task.completed }]: on a consistent store the server
    answers 200 with the task, [completed] now 1 when it read falsy and 0
    when it read truthy, [updated_at] the clock reading and every other
    field as it was; [getTask] returns that row. Ticking a task whose
    [completed] is 0 or 1 twice brings [completed] back to what it was. *)
Theorem toggle_complete (now id : string) (sv : Server) (r : Task.row) :
  consistent (store sv) → getTask id (store sv) = Some r →
  let toggle := λ (now : string) (r : Task.row) (sv : Server),
    PUT_task now id (handleToggleComplete (js_of_value (Task.completed r))) sv in
  (toggle now r sv).1 = mkResponse 200 (reply_task_row (toggled now r))
  ∧ getTask id (store (toggle now r sv).2) = Some (toggled now r)
  ∧ (∀ now',
       Task.completed r = VInt 0 ∨ Task.completed r = VInt 1 →
       ∃ r'', getTask id (store (toggle now' (toggled now r) (toggle now r sv).2).2) = Some r''
              ∧ Task.completed r'' = Task.completed r
              ∧ Task.updated_at r'' = VText now'
              ∧ ∀ c, c ≠ Task.Completed → c ≠ Task.Updated_at →
                     Task.get c r'' = Task.get c r).
Proof.
  intros Hcons Hget toggle.
  destruct (PUT_toggle now id sv r Hcons Hget) as (sv' & Hput & Hget' & Hcons' & _).
  subst toggle. cbv beta. rewrite Hput. cbn [fst snd].
  split; [done|]. split; [done|]. intros now' Hc.
  destruct (PUT_toggle now' id sv' (toggled now r) Hcons' Hget')
    as (sv'' & Hput' & Hget'' & _ & _).
  rewrite Hput'. cbn [fst snd]. exists (toggled now' (toggled now r)).
  split; [done|]. split; [|split; [done|]].
  - unfold toggled. cbn [Task.completed]. by destruct Hc as [-> | ->].
  - intros c Hc1 Hc2. by destruct c.
Qed.

Lemma toggle_complete_witness :
  getTask "A"
    (store (PUT_task "2025-01-06T10:00:00.000Z" "A"
              (handleToggleComplete (JNum 0))
              {| store := three_tasks; published := [] |}).2)
  = Some (Task.mk (VText "A") (VText "a") VNull (VText "monday") (VInt 1) (VInt 1)
            (VText "2025-01-06T09:00:00.000Z") (VText "2025-01-06T10:00:00.000Z")).
Proof.
  apply (proj1 (proj2 (toggle_complete "2025-01-06T10:00:00.000Z" "A"
                         {| store := three_tasks; published := [] |}
                         (Task.mk (VText "A") (VText "a") VNull (VText "monday") (VInt 1)
                            (VInt 0) (VText "2025-01-06T09:00:00.000Z")
                            (VText "2025-01-06T09:00:00.000Z"))
                         ltac:(apply serve_consistent, consistent_db) eq_refl))).
Defined.

(** ** The client in step with the server *)

Lemma DAYS_NoDup : NoDup DAYS.
Proof. apply (bool_decide_unpack _). by vm_compute. Qed.

Lemma foldl_insert_other (f : string → list client_task → list client_task)
    (l : list string) (tasks : gmap string (list client_task)) (day : string) :
  day ∉ l →
  foldl (λ tasks day, <[day := f day (tasks !!! day)]> tasks) tasks l !!! day
  = tasks !!! day.
Proof.
  revert tasks. induction l as [|x l IH]; intros tasks Hday; [done|].
  apply not_elem_of_cons in Hday as [Hne Hday]. simpl.
  rewrite IH by done. by apply lookup_total_insert_ne.
Qed.

Lemma foldl_insert_day (f : string → list client_task → list client_task)
    (l : list string) (tasks : gmap string (list client_task)) (day : string) :
  NoDup l → day ∈ l →
  foldl (λ tasks day, <[day := f day (tasks !!! day)]> tasks) tasks l !!! day
  = f day (tasks !!! day).
Proof.
  revert tasks. induction l as [|x l IH]; intros tasks Hnd Hday.
  { by apply elem_of_nil in Hday. }
  apply NoDup_cons in Hnd as [Hx Hnd]. simpl.
  destruct (decide (day = x)) as [->|Hne].
  - rewrite foldl_insert_other by done. by rewrite lookup_total_insert_eq.
  - apply elem_of_cons in Hday as [->|Hday]; [done|].
    rewrite IH by done. by rewrite lookup_total_insert_ne.
Qed.

Lemma forEach_DAYS_lookup (f : string → list client_task → list client_task)
    (tasks : gmap string (list client_task)) (day : string) :
  day ∈ DAYS → forEach_DAYS f tasks !!! day = f day (tasks !!! day).
Proof. intros Hday. apply foldl_insert_day; [apply DAYS_NoDup|done]. Qed.

Lemma fmap_filter_comm {A B} (f : A → B) (P : B → Prop) `{!∀ x, Decision (P x)}
    (l : list A) :
  f <$> filter (λ x, P (f x)) l = filter P (f <$> l).
Proof.
  induction l as [|x l IH]; [done|]. cbn [fmap list_fmap].
  destruct (decide (P (f x))) as [Hx|Hx].
  - rewrite !filter_cons_True by done. cbn [fmap list_fmap]. by f_equal.
  - by rewrite !filter_cons_False.
Qed.

Lemma fmap_filter_ne {A B} `{EqDecision B} (f : A → B) (y : B) (l : list A) :
  f <$> filter (λ x, f x ≠ y) l = filter (λ x, x ≠ y) (f <$> l).
Proof.
  induction l as [|x l IH]; [done|]. cbn [fmap list_fmap].
  destruct (decide (f x = y)) as [Hx|Hx].
  - by rewrite !filter_cons_False by (intros H; by apply H).
  - rewrite !filter_cons_True by done. cbn [fmap list_fmap]. by f_equal.
Qed.

Global Instance js_of_value_inj : Inj (=) (=) js_of_value.
Proof. intros [|x|x] [|y|y]; simpl; congruence. Qed.

Lemma in_sync_rows (view : gmap string (list client_task)) (d : Database) :
  in_sync view d ↔
  ∀ day, day ∈ DAYS →
    task_id <$> (view !!! day)
    ≡ₚ (λ r, js_of_value (Task.id r)) <$> tasks_of_day (tasks d) day.
Proof.
  unfold in_sync. split; intros H day Hday.
  - rewrite <- getTasksByDay_filter. by apply H.
  - rewrite getTasksByDay_filter. by apply H.
Qed.

Lemma tasks_of_day_frame (g : Task.row → Task.row) (l : list Task.row) (day : string) :
  (∀ r, r ∈ l → Task.id (g r) = Task.id r ∧ Task.day (g r) = Task.day r) →
  Task.id <$> tasks_of_day (g <$> l) day = Task.id <$> tasks_of_day l day.
Proof.
  unfold tasks_of_day. induction l as [|x l IH]; intros H; [done|].
  cbn [fmap list_fmap]. destruct (H x) as [Hid Hd]; [left|].
  assert (Task.id <$> filter (λ task, Task.day task = VText day) (g <$> l)
          = Task.id <$> filter (λ task, Task.day task = VText day) l) as IH'.
  { apply IH. intros r Hr. apply H. by right. }
  destruct (decide (Task.day x = VText day)) as [Hx|Hx].
  - rewrite !filter_cons_True by congruence. cbn [fmap list_fmap]. congruence.
  - by rewrite !filter_cons_False by congruence.
Qed.

Lemma update_tasks_rows sel f rows rows' :
  update_tasks sel f rows = Returned rows' →
  rows' = (λ r, if sel r then f r else r) <$> rows.
Proof. unfold update_tasks. destruct (forallb _ rows); [|done]. by intros [= <-]. Qed.

Lemma reorder_from_frame (index : Z) (ids : list jsval) (rows rows' : list Task.row)
    (day : string) :
  reorder_from index ids rows = Returned rows' →
  Task.id <$> tasks_of_day rows' day = Task.id <$> tasks_of_day rows day.
Proof.
  revert index rows. induction ids as [|x ids IH]; intros index rows.
  { by intros [= <-]. }
  simpl. destruct (bind_value x) as [key|]; [|done]. simpl.
  destruct (update_tasks _ _ rows) as [rows1|] eqn:Hupd; [|done]. simpl.
  intros Hrest. rewrite (IH _ _ Hrest).
  rewrite (update_tasks_rows _ _ _ _ Hupd). apply tasks_of_day_frame.
  intros r _. by destruct (text_eq key (Task.id r)).
Qed.

Lemma updateTask_frame (now id : string) (b : list (string * jsval)) (d d' : Database)
    (res : option Task.row) (day : string) :
  Forall (λ kv, kv.1 ∈ mutable_fields ∧ kv.1 ≠ "day") b →
  updateTask now id b d = Returned (res, d') →
  Task.id <$> tasks_of_day (tasks d') day = Task.id <$> tasks_of_day (tasks d) day.
Proof.
  intros Hb. destruct (decide (b = [])) as [->|Hne]; [by intros [= _ <-]|].
  intros (asg & key & Hasg & Hkey & -> & _ & _)%updateTask_Returned; [|done].
  cbn [tasks with_tasks]. change (map ?g ?l) with (g <$> l).
  apply tasks_of_day_frame. intros r _.
  destruct (text_eq key (Task.id r)); [|done].
  assert (∀ c, c = Task.Id ∨ c = Task.Day → Task.name c ∉ b.*1) as Hno.
  { intros c Hc (kv & E & Hkv)%list_elem_of_fmap.
    destruct (proj1 (Forall_forall _ _) Hb kv Hkv) as [Hm Hd]. rewrite <- E in *.
    apply list_elem_of_In in Hm. simpl in Hm.
    destruct Hc as [-> | ->]; simpl in *; intuition congruence. }
  split.
  - apply (assign_frame id now b asg Hasg Task.Id); [apply Hno; by left|done].
  - apply (assign_frame id now b asg Hasg Task.Day); [apply Hno; by right|done].
Qed.

Lemma client_after_none (r : request) (view : gmap string (list client_task))
    (sv : Server) :
  published (handle r sv).2 = published sv → client_after r view sv = view.
Proof. intros H. unfold client_after. by rewrite H, drop_all. Qed.

Lemma client_after_one (r : request) (view : gmap string (list client_task))
    (sv : Server) (te : string * event) :
  published (handle r sv).2 = (published sv ++ [te])%list →
  client_after r view sv = handleWebSocketMessage te.2 view.
Proof. intros H. unfold client_after. by rewrite H, drop_app_length. Qed.

Lemma in_sync_same (view : gmap string (list client_task)) (d d' : Database) :
  (∀ day, Task.id <$> tasks_of_day (tasks d') day = Task.id <$> tasks_of_day (tasks d) day) →
  in_sync view d → in_sync view d'.
Proof.
  intros Hsame Hsync. apply in_sync_rows. intros day Hday.
  rewrite (proj1 (in_sync_rows view d) Hsync day Hday).
  rewrite !(list_fmap_compose Task.id js_of_value). by rewrite Hsame.
Qed.

Lemma in_sync_ids_NoDup (view : gmap string (list client_task)) (d : Database)
    (day : string) :
  consistent d → in_sync view d → day ∈ DAYS → NoDup (task_id <$> (view !!! day)).
Proof.
  intros Hcons Hsync Hday. rewrite (proj1 (in_sync_rows view d) Hsync day Hday).
  rewrite (list_fmap_compose Task.id js_of_value). apply (NoDup_fmap_2 _).
  apply filter_fmap_NoDup, Hcons.
Qed.

Lemma in_sync_created (view : gmap string (list client_task)) (d : Database)
    (task : TaskObject) (r : Task.row) (day : string) :
  in_day (new_task task) = JStr day →
  Task.id r = VText (new_id task) → Task.day r = VText day →
  in_sync view d →
  in_sync (handleWebSocketMessage (task_created task) view)
    (with_tasks (tasks d ++ [r]) d).
Proof.
  intros Hd Hid Hday Hsync. apply in_sync_rows. intros day' Hday'.
  pose proof (proj1 (in_sync_rows view d) Hsync day' Hday') as H.
  cbn [handleWebSocketMessage tasks with_tasks]. rewrite Hd. cbn [property_key].
  unfold tasks_of_day in *. rewrite filter_app.
  destruct (decide (day' = day)) as [->|Hne].
  - rewrite lookup_total_insert_eq, filter_cons_True, filter_nil by done.
    rewrite !fmap_app. cbn [fmap list_fmap task_id]. rewrite Hid. cbn [js_of_value].
    by rewrite H.
  - rewrite lookup_total_insert_ne by done.
    rewrite filter_cons_False, filter_nil, app_nil_r; [done|].
    rewrite Hday. by intros [= ->].
Qed.

Lemma in_sync_updated (view : gmap string (list client_task)) (d : Database)
    (task : Task.row) :
  in_sync view d → in_sync (handleWebSocketMessage (task_updated task) view) d.
Proof.
  intros Hsync day Hday. cbn [handleWebSocketMessage].
  rewrite forEach_DAYS_lookup by done. rewrite <- (Hsync day Hday).
  change (map ?g ?l) with (g <$> l). rewrite <- list_fmap_compose.
  apply reflexive_eq, list_fmap_ext. intros i t _. cbn [compose].
  destruct (bool_decide_reflect (task_id t = js_of_value (Task.id task))); done.
Qed.

Lemma in_sync_deleted (view : gmap string (list client_task)) (d d' : Database)
    (id : string) :
  id ≠ "" →
  tasks d' = filter (λ r, Task.id r ≠ VText id) (tasks d) →
  in_sync view d → in_sync (handleWebSocketMessage (task_deleted id) view) d'.
Proof.
  intros Hid Hrows Hsync. apply in_sync_rows. intros day Hday.
  pose proof (proj1 (in_sync_rows view d) Hsync day Hday) as H.
  cbn [handleWebSocketMessage]. rewrite truthy_JStr by done.
  rewrite forEach_DAYS_lookup by done. cbv beta.
  rewrite (fmap_filter_ne task_id (JStr id)), H.
  rewrite <- (fmap_filter_ne (λ r, js_of_value (Task.id r)) (JStr id)).
  apply reflexive_eq. f_equal. unfold tasks_of_day. rewrite Hrows, !list_filter_filter.
  apply list_filter_iff. intros r. split.
  - intros [Hne Hd]. split; [done|]. intros E. apply Hne. by rewrite E.
  - intros [Hd Hne]. split; [|done]. intros E. apply Hne.
    by apply (inj js_of_value).
Qed.

Lemma in_sync_reordered (view : gmap string (list client_task)) (d : Database)
    (day : string) (taskIds : list jsval) :
  consistent d → day ≠ "" →
  (day ∈ DAYS → taskIds ≡ₚ task_id <$> (view !!! day)) →
  in_sync view d →
  in_sync (handleWebSocketMessage (tasks_reordered (JStr day) taskIds) view) d.
Proof.
  intros Hcons Hne Hids Hsync day' Hday'. cbn [handleWebSocketMessage].
  rewrite truthy_JStr by done. cbn [property_key].
  destruct (decide (day' = day)) as [->|Hother].
  - rewrite lookup_total_insert_eq.
    destruct (tasks_reordered_view_same task_id taskIds (view !!! day)) as [_ Hperm].
    + by apply (in_sync_ids_NoDup view d).
    + by apply Hids.
    + rewrite Hperm. by apply Hsync.
  - rewrite lookup_total_insert_ne by done. by apply Hsync.
Qed.

(** X22. The client's lists follow the server. After [fetchAllTasks], the
    client shows for every day of the week the tasks the server lists for
    that day. This stays so through every request of the kind the client
    sends (a creation for a day given as a string, an update that leaves
    id and day alone, a deletion, a reordering that carries the ids shown,
    a pomodoro request), whether it succeeds or fails, once the client has
    taken in the messages published for it. *)
Theorem client_in_sync :
  (∀ sv, in_sync (fetchAllTasks sv) (store sv))
  ∧ (∀ r view sv,
       consistent (store sv) → in_sync view (store sv) → sent_by_client r view →
       in_sync (client_after r view sv) (store (handle r sv).2)).
Proof.
  split.
  { intros sv day Hday. unfold fetchAllTasks. rewrite forEach_DAYS_lookup by done.
    rewrite <- list_fmap_compose. cbn [GET_tasks].
    by rewrite tasks_of_day_getAllTasks_perm. }
  intros r view sv Hcons Hsync Hsent.
  destruct r as [id now b|now id b|id|b|id now b|now id];
    cbn [handle sent_by_client] in *.
  - destruct Hsent as [day Hday].
    destruct (POST_tasks id now b sv) as [resp sv'] eqn:Hpost.
    unfold POST_tasks in Hpost.
    destruct (negb (truthy (b_title b)) || negb (truthy (b_day b))) eqn:Hguard.
    { injection Hpost as _ <-.
      rewrite (client_after_none (Create id now b)); [done|]. cbn [handle].
      unfold POST_tasks. by rewrite Hguard. }
    destruct (createTask id now _ (store sv)) as [[task d']|] eqn:Hcreate.
    2:{ injection Hpost as _ <-.
        rewrite (client_after_none (Create id now b)); [done|]. cbn [handle].
        unfold POST_tasks. by rewrite Hguard, Hcreate. }
    injection Hpost as _ <-.
    rewrite (client_after_one (Create id now b) view sv ("tasks", task_created task)).
    2:{ cbn [handle]. unfold POST_tasks. by rewrite Hguard, Hcreate. }
    apply createTask_Returned in Hcreate
      as (v1 & v2 & v3 & v4 & v5 & rows & _ & _ & Hv3 & _ & _ & -> & Hins & ->).
    apply insert_task_Returned in Hins as (-> & _ & _).
    cbn [snd store publish with_store]. cbn [in_day] in Hv3. rewrite Hday in Hv3.
    injection Hv3 as <-.
    apply (in_sync_created view (store sv) _ _ day); try done;
      by rewrite stored_form_eq.
  - destruct (PUT_task now id b sv) as [resp sv'] eqn:Hput.
    unfold PUT_task in Hput.
    destruct (updateTask now id b (store sv)) as [[[task|] d']|] eqn:Hupd.
    + injection Hput as _ <-.
      rewrite (client_after_one (Update now id b) view sv ("tasks", task_updated task)).
      2:{ cbn [handle]. unfold PUT_task. by rewrite Hupd. }
      cbn [snd store publish with_store]. apply in_sync_updated.
      apply (in_sync_same view (store sv)); [|done].
      intros day. by eapply updateTask_frame.
    + injection Hput as _ <-.
      rewrite (client_after_none (Update now id b)).
      2:{ cbn [handle]. unfold PUT_task. by rewrite Hupd. }
      cbn [snd store with_store]. apply (in_sync_same view (store sv)); [|done].
      intros day. by eapply updateTask_frame.
    + injection Hput as _ <-.
      rewrite (client_after_none (Update now id b)); [done|].
      cbn [handle]. unfold PUT_task. by rewrite Hupd.
  - destruct (DELETE_task id sv) as [resp sv'] eqn:Hdel.
    unfold DELETE_task in Hdel.
    pose proof (deleteTask_tasks id (store sv)) as Hrows.
    destruct (stored_dec id (store sv)) as [Hst|Hst].
    + pose proof (deleteTask_stored id (store sv) Hst) as Htrue.
      destruct (deleteTask id (store sv)) as [deleted d'] eqn:Hd.
      cbn [fst snd] in *. subst deleted. cbn [negb] in Hdel. injection Hdel as _ <-.
      rewrite (client_after_one (Delete id) view sv ("tasks", task_deleted id)).
      2:{ cbn [handle]. unfold DELETE_task. by rewrite Hd. }
      cbn [snd store publish with_store]. by apply (in_sync_deleted view (store sv)).
    + rewrite (deleteTask_not_stored id (store sv) Hst) in Hdel.
      cbn [negb] in Hdel. injection Hdel as _ <-.
      rewrite (client_after_none (Delete id)).
      2:{ cbn [handle]. unfold DELETE_task.
          by rewrite (deleteTask_not_stored id (store sv) Hst). }
      by destruct sv.
  - destruct Hsent as (day & Hday & Hids).
    destruct (POST_reorder b sv) as [resp sv'] eqn:Hpost.
    unfold POST_reorder in Hpost. rewrite Hday in Hpost.
    destruct (b_taskIds b) as [taskIds|] eqn:Harr.
    2:{ injection Hpost as _ <-.
        rewrite (client_after_none (Reorder b)); [done|]. cbn [handle].
        unfold POST_reorder. by rewrite Harr. }
    destruct (negb (truthy (JStr day))) eqn:Hguard.
    { injection Hpost as _ <-.
      rewrite (client_after_none (Reorder b)); [done|]. cbn [handle].
      unfold POST_reorder. by rewrite Harr, Hday, Hguard. }
    destruct (reorderTasks (JStr day) taskIds (store sv)) as [d'|] eqn:Hre.
    2:{ injection Hpost as _ <-.
        rewrite (client_after_none (Reorder b)); [done|]. cbn [handle].
        unfold POST_reorder. by rewrite Harr, Hday, Hguard, Hre. }
    injection Hpost as _ <-.
    rewrite (client_after_one (Reorder b) view sv
               ("tasks", tasks_reordered (JStr day) taskIds)).
    2:{ cbn [handle]. unfold POST_reorder. by rewrite Harr, Hday, Hguard, Hre. }
    cbn [snd store publish with_store].
    assert (day ≠ "") as Hne by (by intros ->).
    unfold reorderTasks in Hre.
    destruct (reorder_from 0 taskIds (tasks (store sv))) as [rows|] eqn:Hrows; [|done].
    injection Hre as <-.
    assert (consistent (with_tasks rows (store sv))) as Hcons'.
    { apply (reorderTasks_consistent (JStr day) taskIds (store sv)); [exact Hcons|].
      unfold reorderTasks. by rewrite Hrows. }
    assert (in_sync view (with_tasks rows (store sv))) as Hsync'.
    { apply (in_sync_same view (store sv)); [|done].
      intros day'. by eapply reorder_from_frame. }
    apply in_sync_reordered; try done. intros Hd. by apply Hids.
  - destruct (POST_sessions id now b sv) as [resp sv'] eqn:Hpost.
    unfold POST_sessions in Hpost.
    destruct (negb (truthy (b_duration b)) || negb (truthy (b_type b))) eqn:Hguard.
    { injection Hpost as _ <-.
      rewrite (client_after_none (StartSession id now b)); [done|]. cbn [handle].
      unfold POST_sessions. by rewrite Hguard. }
    destruct (createPomodoroSession id _ (store sv)) as [[session d']|] eqn:Hcreate.
    2:{ injection Hpost as _ <-.
        rewrite (client_after_none (StartSession id now b)); [done|]. cbn [handle].
        unfold POST_sessions. by rewrite Hguard, Hcreate. }
    injection Hpost as _ <-.
    rewrite (client_after_one (StartSession id now b) view sv
               ("pomodoro", session_started session)).
    2:{ cbn [handle]. unfold POST_sessions. by rewrite Hguard, Hcreate. }
    apply createPomodoroSession_Returned in Hcreate as (row & -> & _).
    cbn [snd store publish with_store handleWebSocketMessage].
    by apply (in_sync_same view (store sv)).
  - pose proof (completePomodoroSession_rows now id (store sv)) as [Htasks _].
    destruct (POST_complete now id sv) as [resp sv'] eqn:Hpost.
    unfold POST_complete in Hpost.
    destruct (completePomodoroSession now id (store sv)) as [[session|] d'] eqn:Hc;
      injection Hpost as _ <-; cbn [snd] in Htasks.
    + rewrite (client_after_one (CompleteSession now id) view sv
                 ("pomodoro", session_completed session)).
      2:{ cbn [handle]. unfold POST_complete. by rewrite Hc. }
      cbn [snd store publish with_store handleWebSocketMessage].
      apply (in_sync_same view (store sv)); [|done]. intros day. by rewrite Htasks.
    + rewrite (client_after_none (CompleteSession now id)).
      2:{ cbn [handle]. unfold POST_complete. by rewrite Hc. }
      cbn [snd store with_store].
      apply (in_sync_same view (store sv)); [|done]. intros day. by rewrite Htasks.
Qed.

Lemma client_in_sync_witness :
  in_sync
    (client_after (Delete "B")
       (fetchAllTasks {| store := three_tasks; published := [] |})
       {| store := three_tasks; published := [] |})
    (store (handle (Delete "B") {| store := three_tasks; published := [] |}).2).
Proof.
  apply (proj2 client_in_sync (Delete "B")).
  - apply serve_consistent, consistent_db.
  - apply (proj1 client_in_sync).
  - discriminate.
Defined.

Lemma day_compiled (now id day : string) :
  compile_set (updateTask_params id now [("day", JStr day)])
    (updateTask_set_clause [("day", JStr day)])
  = Returned [(Task.Day, VText day); (Task.Updated_at, VText now)].
Proof. by vm_compute. Qed.

(** X23. The client never moves a task between its lists: on a
    [task_updated] message every list of the week keeps the ids it had.
    So when a PUT gives a stored task another day of the week, the server
    answers 200 and lists the task under the new day, while a client that
    was in step with the server, having taken in the message, still shows
    it under the old day: it is no longer in step. *)
Theorem day_change_out_of_sync :
  (∀ (task : Task.row) (view : gmap string (list client_task)) (day : string),
     day ∈ DAYS →
     task_id <$> (handleWebSocketMessage (task_updated task) view !!! day)
     = task_id <$> (view !!! day))
  ∧ (∀ (now id old new : string) (view : gmap string (list client_task)) (sv : Server)
       (r0 : Task.row),
       consistent (store sv) → in_sync view (store sv) →
       getTask id (store sv) = Some r0 → Task.day r0 = VText old →
       new ∈ DAYS → new ≠ old →
       let r := Update now id [("day", JStr new)] in
       status (handle r sv).1 = 200
       ∧ (VText id ∈ Task.id <$> getTasksByDay new (store (handle r sv).2))
       ∧ (JStr id ∉ task_id <$> (client_after r view sv !!! new))
       ∧ ¬ in_sync (client_after r view sv) (store (handle r sv).2)).
Proof.
  assert (∀ (task : Task.row) (view : gmap string (list client_task)) (day : string),
            day ∈ DAYS →
            task_id <$> (handleWebSocketMessage (task_updated task) view !!! day)
            = task_id <$> (view !!! day)) as Hkeeps.
  { intros task view day Hday. cbn [handleWebSocketMessage].
    rewrite forEach_DAYS_lookup by done.
    change (map ?g ?l) with (g <$> l). rewrite <- list_fmap_compose.
    apply list_fmap_ext. intros i t _. cbn [compose].
    destruct (bool_decide_reflect (task_id t = js_of_value (Task.id task))); done. }
  split; [exact Hkeeps|].
  intros now id old new view sv r0 Hcons Hsync Hget Hold Hnew Hne r.
  destruct (getTask_Some _ _ _ Hget) as [Hr0 Hid0].
  destruct (updateTask_stored now id [("day", JStr new)] (store sv))
    as (asg & r1 & Hasg & Hget1 & Hupd).
  { done. }
  { repeat constructor. by intros ?%elem_of_nil. }
  { by intros [= ]%list_elem_of_singleton. }
  { constructor; [|constructor]. exists Task.Day, (VText new). by repeat split. }
  { apply Hcons. }
  { by exists r0. }
  rewrite day_compiled in Hasg. injection Hasg as <-.
  rewrite Hget in Hget1. injection Hget1 as <-.
  set (g := λ r : Task.row,
         if text_eq (VText id) (Task.id r)
         then assign [(Task.Day, VText new); (Task.Updated_at, VText now)] r else r) in *.
  set (row := assign [(Task.Day, VText new); (Task.Updated_at, VText now)] r0) in *.
  assert (handle r sv
          = (mkResponse 200 (reply_task_row row),
             publish "tasks" (task_updated row)
               (with_store (with_tasks (map g (tasks (store sv))) (store sv)) sv))) as Hh.
  { subst r. cbn [handle]. unfold PUT_task. by rewrite Hupd. }
  assert (client_after r view sv = handleWebSocketMessage (task_updated row) view) as Hc.
  { rewrite (client_after_one r view sv ("tasks", task_updated row)); [done|].
    by rewrite Hh. }
  rewrite Hh, Hc. cbn [fst snd status store publish with_store].
  assert (VText id ∈ Task.id <$> getTasksByDay new
                     (with_tasks (map g (tasks (store sv))) (store sv))) as Hserver.
  { apply list_elem_of_fmap. exists row. split.
    - subst row. by destruct r0.
    - apply getTasksByDay_elem. cbn [tasks with_tasks]. split.
      + change (map g ?l) with (g <$> l).
        assert (row = g r0) as ->.
        { unfold g. rewrite Hid0, text_eq_text_true. done. }
        by apply list_elem_of_fmap_2.
      + subst row. by destruct r0. }
  assert (JStr id ∉ task_id <$> (handleWebSocketMessage (task_updated row) view !!! new))
    as Hclient.
  { rewrite Hkeeps by done. rewrite (Hsync new Hnew).
    intros (r' & E & [Hr' Hd']%getTasksByDay_elem)%list_elem_of_fmap.
    assert (Task.id r' = VText id) as Hid' by (by apply (inj js_of_value)).
    assert (r' = r0) as ->.
    { apply (NoDup_fmap_elem_inj Task.id (tasks (store sv))); [apply Hcons|done..|congruence]. }
    rewrite Hold in Hd'. by injection Hd' as ->. }
  split; [done|]. split; [done|]. split; [done|].
  intros Hs. apply Hclient. rewrite (Hs new Hnew).
  apply list_elem_of_fmap in Hserver as (r' & E & Hr').
  apply list_elem_of_fmap. exists r'. split; [by rewrite <- E|done].
Qed.

Lemma day_change_out_of_sync_witness :
  (VText "A" ∈ Task.id <$> getTasksByDay "tuesday"
      (store (handle (Update "2025-01-07T09:00:00.000Z" "A" [("day", JStr "tuesday")])
                {| store := three_tasks; published := [] |}).2))
  ∧ (JStr "A" ∉ task_id <$>
      (client_after (Update "2025-01-07T09:00:00.000Z" "A" [("day", JStr "tuesday")])
         (fetchAllTasks {| store := three_tasks; published := [] |})
         {| store := three_tasks; published := [] |} !!! "tuesday")).
Proof.
  destruct (proj2 day_change_out_of_sync "2025-01-07T09:00:00.000Z" "A" "monday" "tuesday"
              (fetchAllTasks {| store := three_tasks; published := [] |})
              {| store := three_tasks; published := [] |}
              (Task.mk (VText "A") (VText "a") VNull (VText "monday") (VInt 1) (VInt 0)
                 (VText "2025-01-06T09:00:00.000Z") (VText "2025-01-06T09:00:00.000Z")))
    as (_ & H1 & H2 & _).
  - apply serve_consistent, consistent_db.
  - apply (in_sync_rows _ _). intros day Hday. unfold fetchAllTasks.
    rewrite forEach_DAYS_lookup by done. rewrite <- list_fmap_compose. cbn [GET_tasks].
    rewrite tasks_of_day_getAllTasks_perm. by rewrite getTasksByDay_filter.
  - reflexivity.
  - reflexivity.
  - apply list_elem_of_In. simpl. tauto.
  - discriminate.
  - by split.
Defined.

(** ** Saving an edit *)

Lemma PUT_task_assigns (now id : string) (updates : list (string * jsval))
    (asg : list (Task.column * value)) (sv : Server) (r : Task.row) :
  consistent (store sv) → getTask id (store sv) = Some r →
  updates ≠ [] → NoDup updates.*1 → ("id" ∉ updates.*1) → Forall acceptable updates →
  compile_set (updateTask_params id now updates) (updateTask_set_clause updates)
  = Returned asg →
  (PUT_task now id updates sv).1 = mkResponse 200 (reply_task_row (assign asg r))
  ∧ getTask id (store (PUT_task now id updates sv).2) = Some (assign asg r).
Proof.
  intros Hcons Hget Hne Hnd Hid Hacc Hasg.
  destruct (getTask_Some _ _ _ Hget) as [Hr Hid0].
  destruct (updateTask_stored now id updates (store sv) Hne Hnd Hid Hacc)
    as (asg' & r' & Hasg' & Hget' & Hupd).
  { apply Hcons. }
  { by exists r. }
  rewrite Hasg in Hasg'. injection Hasg' as <-.
  rewrite Hget in Hget'. injection Hget' as <-.
  pose proof (updateTask_reads_back _ _ _ _ _ _ Hupd) as Hrb.
  unfold PUT_task. rewrite Hupd. cbn [fst snd store publish with_store].
  by split.
Qed.

Lemma save_compiled (now id title description : string) :
  compile_set (updateTask_params id now [("title", JStr title)])
    (updateTask_set_clause [("title", JStr title)])
  = Returned [(Task.Title, VText title); (Task.Updated_at, VText now)]
  ∧ compile_set
      (updateTask_params id now [("title", JStr title); ("description", JStr description)])
      (updateTask_set_clause [("title", JStr title); ("description", JStr description)])
    = Returned [(Task.Title, VText title); (Task.Description, VText description);
                (Task.Updated_at, VText now)].
Proof. split; by vm_compute. Qed.

(** X24. Saving an edit of a stored task with a title that is not empty
    after trimming sends the title and, only when it is not empty, the
    description: an emptied description becomes [undefined] and is left out
    of the JSON body. On a consistent store the server answers 200;
    the task then has the new title, the new description or, when the
    description was emptied, the description it had before, and
    [updated_at] the clock reading; nothing else changes. With a title
    that trims to nothing, no request is sent. *)
Theorem save_edit (now id title description : string) (sv : Server) (r : Task.row) :
  consistent (store sv) → getTask id (store sv) = Some r → title ≠ "" →
  handleSaveEdit "" description = None
  ∧ ∃ updates,
      handleSaveEdit title description = Some updates
      ∧ (description = "" → JSON_entries updates = [("title", JStr title)])
      ∧ (client_updateTask now id updates sv).1
        = mkResponse 200 (reply_task_row (edited now title description r))
      ∧ getTask id (store (client_updateTask now id updates sv).2)
        = Some (edited now title description r).
Proof.
  intros Hcons Hget Htitle. split; [done|].
  destruct (save_compiled now id title description) as [H1 H2].
  unfold handleSaveEdit. rewrite truthy_JStr by done. eexists. split; [done|].
  unfold client_updateTask, edited.
  destruct (decide (description = "")) as [->|Hd].
  - assert (JSON_entries [("title", JStr title); ("description", js_or (JStr "") JUndefined)]
            = [("title", JStr title)]) as -> by done.
    split; [done|].
    assert (assign [(Task.Title, VText title); (Task.Updated_at, VText now)] r
            = Task.mk (Task.id r) (VText title) (Task.description r) (Task.day r)
                (Task.priority r) (Task.completed r) (Task.created_at r) (VText now))
      as <- by (by destruct r).
    apply PUT_task_assigns; try done.
    + repeat constructor. by intros ?%elem_of_nil.
    + by intros [= ]%list_elem_of_singleton.
    + constructor; [|constructor]. exists Task.Title, (VText title). by repeat split.
  - assert (JSON_entries
              [("title", JStr title); ("description", js_or (JStr description) JUndefined)]
            = [("title", JStr title); ("description", JStr description)]) as ->.
    { unfold js_or. by rewrite truthy_JStr. }
    split; [done|].
    assert (assign [(Task.Title, VText title); (Task.Description, VText description);
                    (Task.Updated_at, VText now)] r
            = Task.mk (Task.id r) (VText title) (VText description) (Task.day r)
                (Task.priority r) (Task.completed r) (Task.created_at r) (VText now))
      as <- by (by destruct r).
    apply PUT_task_assigns; try done.
    + apply (bool_decide_unpack _). by vm_compute.
    + intros H. apply list_elem_of_In in H. simpl in H. intuition discriminate.
    + constructor; [|constructor; [|constructor]].
      * exists Task.Title, (VText title). by repeat split.
      * exists Task.Description, (VText description). by repeat split.
Qed.

Lemma save_edit_witness :
  ∃ updates,
    handleSaveEdit "a2" "" = Some updates
    ∧ getTask "A"
        (store (client_updateTask "2025-01-06T10:00:00.000Z" "A" updates
                  (serve [Update "2025-01-06T09:30:00.000Z" "A"
                            [("description", JStr "first")]]
                     {| store := three_tasks; published := [] |})).2)
      = Some (Task.mk (VText "A") (VText "a2") (VText "first") (VText "monday") (VInt 1)
                (VInt 0) (VText "2025-01-06T09:00:00.000Z")
                (VText "2025-01-06T10:00:00.000Z")).
Proof.
  destruct (save_edit "2025-01-06T10:00:00.000Z" "A" "a2" ""
              (serve [Update "2025-01-06T09:30:00.000Z" "A" [("description", JStr "first")]]
                 {| store := three_tasks; published := [] |})
              (Task.mk (VText "A") (VText "a") (VText "first") (VText "monday") (VInt 1)
                 (VInt 0) (VText "2025-01-06T09:00:00.000Z")
                 (VText "2025-01-06T09:30:00.000Z")))
    as (_ & updates & H1 & _ & _ & H2).
  - apply serve_consistent, serve_consistent, consistent_db.
  - reflexivity.
  - discriminate.
  - exists updates. split; [exact H1|exact H2].
Defined.

(** ** Publishing, request by request *)



